(** * The diff reconstruction core of [show_differences.py]

    A shallow embedding of [apply_patch_to_content] (single-patch
    reconstruction) and [generate_interleaved_lines_for_all_prs] (the
    interleaved view of all pull requests), together with the library
    functions they call, and the properties of the two functions.

    A Python [str] is modelled by [string]; a character of [string] stands
    for the code point of the same number, so the model covers the strings
    whose code points are below 256.  On those strings the class [\d] of
    [re] is exactly [0-9].  Python integers are [Z]. *)

From Stdlib Require Import Ascii.
From stdpp Require Import gmap strings list fin_maps sorting.

Local Open Scope Z_scope.

(** ** Python library functions used by the source *)

Module Py.

(** [s.startswith(p)] *)
Fixpoint startswith (s p : string) {struct p} : bool :=
  match p with
  | EmptyString => true
  | String a p' =>
      match s with
      | String b s' => Ascii.eqb a b && startswith s' p'
      | EmptyString => false
      end
  end.

(** [s.startswith((p1, p2, ...))] *)
Definition startswith_any (s : string) (ps : list string) : bool :=
  existsb (startswith s) ps.

(** [s[1:]] *)
Definition tail1 (s : string) : string :=
  match s with
  | EmptyString => EmptyString
  | String _ r => r
  end.

(** [p in s] for strings *)
Fixpoint contains (s p : string) : bool :=
  startswith s p ||
  match s with
  | EmptyString => false
  | String _ r => contains r p
  end.

(** [sep.join(ls)] *)
Definition join (sep : string) (ls : list string) : string :=
  String.concat sep ls.

Definition cp (c : ascii) : nat := nat_of_ascii c.

(** The line boundaries of [str.splitlines] below code point 256:
    LF, VT, FF, CR, FS, GS, RS and NEL. *)
Definition is_linebreak (c : ascii) : bool :=
  bool_decide (cp c ∈ [10; 11; 12; 13; 28; 29; 30; 133]%nat).

Definition CR : ascii := ascii_of_nat 13.
Definition LF : ascii := ascii_of_nat 10.

(** [s.splitlines()]: the lines without their boundaries; a boundary at
    the very end opens no further line. *)
Fixpoint splitlines (s : string) : list string :=
  match s with
  | EmptyString => []
  | String c r =>
      if is_linebreak c then
        EmptyString ::
        match r with
        | String c' r' =>
            if Ascii.eqb c CR && Ascii.eqb c' LF then splitlines r'
            else splitlines r
        | EmptyString => []
        end
      else
        match splitlines r with
        | [] => [String c EmptyString]
        | l :: ls => String c l :: ls
        end
  end.

Definition backslash : string := String (ascii_of_nat 92) EmptyString.

Definition dquote : ascii := ascii_of_nat 34.
Definition squote : ascii := ascii_of_nat 39.

(** [html.escape(s)] with its default [quote=True].  The library does five
    successive [replace] calls, the ampersand first; since no replacement
    text holds a character replaced later, this is the character-wise
    map below. *)
Definition escape_char (c : ascii) : string :=
  if Ascii.eqb c "&" then "&amp;"
  else if Ascii.eqb c "<" then "&lt;"
  else if Ascii.eqb c ">" then "&gt;"
  else if Ascii.eqb c dquote then "&quot;"
  else if Ascii.eqb c squote then "&#x27;"
  else String c EmptyString.

Fixpoint html_escape (s : string) : string :=
  match s with
  | EmptyString => EmptyString
  | String c r => escape_char c +:+ html_escape r
  end.

Definition is_digit (c : ascii) : bool :=
  bool_decide (48 ≤ cp c ≤ 57)%nat.

Definition digit_val (c : ascii) : Z := Z.of_nat (cp c) - 48.

(** [int(s)] on a non-empty string of digits, most significant first.  A
    bound of the interpreter on the length of the digit string, where it has
    one, is not modelled. *)
Definition int_of_digits (s : string) : Z :=
  fold_left (λ acc c, 10 * acc + digit_val c) (String.list_ascii_of_string s) 0.

(** The whitespace [int] skips around a number, below code point 256: the
    ASCII whitespace (TAB, LF, VT, FF, CR and the space) and, past the
    ASCII range, the characters [str.isspace] holds of (NEL and the
    no-break space), which [int] reads as spaces.  The separators FS, GS,
    RS and US (28 to 31) are whitespace for [str.strip] but not for
    [int], which raises on them. *)
Definition is_space (c : ascii) : bool :=
  bool_decide (cp c ∈ [9; 10; 11; 12; 13; 32; 133; 160]%nat).

Fixpoint lstrip_chars (l : list ascii) : list ascii :=
  match l with
  | c :: r => if is_space c then lstrip_chars r else l
  | [] => []
  end.

Definition strip_chars (l : list ascii) : list ascii :=
  reverse (lstrip_chars (reverse (lstrip_chars l))).

(** The digits of an [int] literal: decimal digits, where one underscore
    may stand between two digits.  [after_digit] tells whether the
    character before was a digit. *)
Fixpoint int_digits (after_digit : bool) (l : list ascii) (acc : Z) : option Z :=
  match l with
  | [] => if after_digit then Some acc else None
  | c :: r =>
      if is_digit c then int_digits true r (10 * acc + digit_val c)
      else if Ascii.eqb c "_" && after_digit then int_digits false r acc
      else None
  end.

(** [int(s)] for a string: surrounding whitespace, an optional sign, then
    the digits; [None] stands for the [ValueError] it raises.  As for
    [int_of_digits], a bound of the interpreter on the number of digits is
    not modelled: where the interpreter has one, [int] raises on a longer
    text that this function accepts. *)
Definition int (s : string) : option Z :=
  match strip_chars (String.list_ascii_of_string s) with
  | c :: r =>
      if Ascii.eqb c "+" then int_digits false r 0
      else if Ascii.eqb c "-" then Z.opp <$> int_digits false r 0
      else int_digits false (c :: r) 0
  | [] => None
  end.

(** The character of a decimal digit. *)
Definition digit_char (d : Z) : ascii := ascii_of_nat (48 + Z.to_nat d).

(** The decimal digits of [n >= 0], most significant first; [fuel] bounds
    the number of digits. *)
Fixpoint digits_of (fuel : nat) (n : Z) : list ascii :=
  match fuel with
  | O => []
  | S f =>
      if bool_decide (n < 10) then [digit_char n]
      else digits_of f (n / 10) ++ [digit_char (n mod 10)]
  end.

(** [str(n)] for an integer: the decimal digits, behind a minus sign for a
    negative number.  A number has no more decimal digits than binary
    ones. *)
Definition str_int (n : Z) : string :=
  let m := Z.abs n in
  let ds := digits_of (S (Z.to_nat (Z.log2 m))) m in
  String.string_of_list_ascii (if bool_decide (n < 0) then "-"%char :: ds else ds).

(** [s.endswith(p)] *)
Definition endswith (s p : string) : bool :=
  startswith (String.string_of_list_ascii (reverse (String.list_ascii_of_string s)))
    (String.string_of_list_ascii (reverse (String.list_ascii_of_string p))).

(** [os.path.join(a, b)] of [posixpath]. *)
Definition path_join (a b : string) : string :=
  if startswith b "/" then b
  else if bool_decide (a = EmptyString) || endswith a "/" then a +:+ b
  else a +:+ "/" +:+ b.

(** [s.replace(x, y)] for single characters [x] and [y]. *)
Fixpoint replace_char (x y : ascii) (s : string) : string :=
  match s with
  | EmptyString => EmptyString
  | String c r => String (if Ascii.eqb c x then y else c) (replace_char x y r)
  end.

End Py.

(** ** The regular expression of a hunk header

    [re.search(r"@@ -(\d+)(,(\d+))? \+(\d+)(,(\d+))? @@", line)].  Each
    [\d+] is followed in the pattern by a character that is no digit, and
    each optional group starts with a comma where the pattern goes on with a
    space, so the greedy match without backtracking below finds the match
    whenever there is one. *)

Module Re.

(** A literal of the pattern: the rest of [s] behind the prefix [p]. *)
Fixpoint lit (p s : string) {struct p} : option string :=
  match p, s with
  | EmptyString, _ => Some s
  | String a p', String b s' => if Ascii.eqb a b then lit p' s' else None
  | String _ _, EmptyString => None
  end.

(** The longest prefix of digits, and the rest. *)
Fixpoint digits (s : string) : string * string :=
  match s with
  | String c r =>
      if Py.is_digit c then (String c (digits r).1, (digits r).2)
      else (EmptyString, s)
  | EmptyString => (EmptyString, EmptyString)
  end.

(** [(\d+)] *)
Definition digits1 (s : string) : option (string * string) :=
  match digits s with
  | (EmptyString, _) => None
  | (d, r) => Some (d, r)
  end.

(** [(,(\d+))?] *)
Definition opt_count (s : string) : option string * string :=
  match lit "," s ≫= digits1 with
  | Some (d, r) => (Some d, r)
  | None => (None, s)
  end.

(** The groups 1, 3, 4 and 6 of a match. *)
Record groups := Groups {
  group1 : string;
  group3 : option string;
  group4 : string;
  group6 : option string
}.

(** The pattern matched at the start of [s]. *)
Definition match_here (s : string) : option groups :=
  s1 ← lit "@@ -" s;
  '(g1, s2) ← digits1 s1;
  let '(g3, s3) := opt_count s2 in
  s4 ← lit " +" s3;
  '(g4, s5) ← digits1 s4;
  let '(g6, s6) := opt_count s5 in
  _ ← lit " @@" s6;
  Some (Groups g1 g3 g4 g6).

(** [re.search]: the match at the leftmost position that has one. *)
Fixpoint search (s : string) : option groups :=
  match match_here s with
  | Some g => Some g
  | None =>
      match s with
      | String _ r => search r
      | EmptyString => None
      end
  end.

End Re.

(** [old_start_1based = int(match.group(1))]: the only group either function
    reads. *)
Definition old_start_1based (g : Re.groups) : Z :=
  Py.int_of_digits (Re.group1 g).

(** [len(l)] *)
Definition len {A} (l : list A) : Z := Z.of_nat (length l).

(** [range(a, b)] *)
Definition range (a b : Z) : list Z :=
  (λ n : nat, a + Z.of_nat n) <$> seq 0 (Z.to_nat (b - a)).

(** [l[i]], checked: [None] for every index outside [0, len(l)).  Python
    raises [IndexError] at or past [len(l)] and counts a negative index from
    the end; the functions below are shown never to leave the range, so
    neither happens. *)
Definition getitem {A} (l : list A) (i : Z) : option A :=
  if bool_decide (0 ≤ i < len l) then l !! Z.to_nat i else None.

(** A line that belongs to a hunk body. *)
Definition is_body_line (line : string) : bool :=
  Py.startswith_any line ["+"; "-"; " "; Py.backslash].

(** ** Single-patch reconstruction: [apply_patch_to_content] *)

Module Single.

(** The state of the loop over [raw_patch_lines]. *)
Record scan := Scan {
  hunk_sections : list (string * list string);
  current_hunk_header : option string;
  current_hunk_body : option (list string)
}.

(** What the source appends when it closes a hunk. *)
Definition close (st : scan) : list (string * list string) :=
  match current_hunk_header st, current_hunk_body st with
  | Some h, Some b => hunk_sections st ++ [(h, b)]
  | _, _ => hunk_sections st
  end.

Definition scan_line (st : scan) (line : string) : scan :=
  if Py.startswith line "@@" then
    Scan (close st) (Some line) (Some [])
  else
    match current_hunk_body st with
    | Some b =>
        if is_body_line line
        then Scan (hunk_sections st) (current_hunk_header st) (Some (b ++ [line]))
        else st
    | None => st
    end.

Definition scan_patch (raw_patch_lines : list string) : list (string * list string) :=
  close (fold_left scan_line raw_patch_lines (Scan [] None None)).

(** [pr_details_for_annotation]: a dict, of which the function reads the
    keys ['number'] and ['title'].  [ann_number] is the text that
    formatting the value under ['number'] gives, [ann_others] tells
    whether the dict has any further key. *)
Record annotation := {
  ann_number : option string;
  ann_title : option string;
  ann_others : bool
}.

(** The truth value of the optional dict: [None] and the empty dict are
    false. *)
Definition supplied (a : option annotation) : option annotation :=
  match a with
  | Some d =>
      if bool_decide (is_Some (ann_number d)) || bool_decide (is_Some (ann_title d))
         || ann_others d
      then Some d else None
  | None => None
  end.

Definition q : string := String Py.dquote EmptyString.

(** The line emitted for a ["+"] body line. *)
Definition added_line (a : option annotation) (escaped_line_content : string) : string :=
  match supplied a with
  | Some d =>
      let pr_num := default "N/A" (ann_number d) in
      let pr_title := Py.html_escape (default "Unknown PR" (ann_title d)) in
      "<span class=" +:+ q +:+ "added-line pr-annotated" +:+ q +:+ " title=" +:+ q
        +:+ "PR #" +:+ pr_num +:+ ": " +:+ pr_title +:+ q +:+ ">"
        +:+ escaped_line_content +:+ "</span>"
  | None =>
      "<span class=" +:+ q +:+ "added-line" +:+ q +:+ ">"
        +:+ escaped_line_content +:+ "</span>"
  end.

(** The line emitted for a line of the base. *)
Definition base_line (line : string) : string := Py.html_escape line.

(** The state of the loop over the hunks: the lines emitted so far and
    [current_base_line_idx]. *)
Definition state : Type := list string * Z.

(** [for i in range(a, b): result.append(html.escape(base_lines[i]))] *)
Definition copy_base (base_lines : list string) (a b : Z) : option (list string) :=
  mapM (λ i, base_line <$> getitem base_lines i) (range a b).

(** The start of a hunk: copy the base up to the hunk, or move the
    cursor back. *)
Definition enter_hunk (base_lines : list string) (old_start_1based : Z) (st : state)
  : option state :=
  let '(out, current_base_line_idx) := st in
  let lines_to_copy_from_base_before_hunk :=
    (old_start_1based - 1) - current_base_line_idx in
  if bool_decide (lines_to_copy_from_base_before_hunk > 0) then
    let end_copy_idx := current_base_line_idx + lines_to_copy_from_base_before_hunk in
    let end_copy_idx :=
      if bool_decide (end_copy_idx > len base_lines) then len base_lines
      else end_copy_idx in
    copied ← copy_base base_lines current_base_line_idx end_copy_idx;
    Some (out ++ copied, end_copy_idx)
  else if bool_decide (lines_to_copy_from_base_before_hunk < 0) then
    if bool_decide (old_start_1based > 0)
    then Some (out, old_start_1based - 1)
    else Some (out, current_base_line_idx)
  else Some (out, current_base_line_idx).

(** One line of a hunk body. *)
Definition body_line (base_lines : list string) (a : option annotation)
    (st : state) (hunk_body_line : string) : state :=
  let '(out, current_base_line_idx) := st in
  let escaped_line_content := Py.html_escape (Py.tail1 hunk_body_line) in
  if Py.startswith hunk_body_line "+" then
    (out ++ [added_line a escaped_line_content], current_base_line_idx)
  else if Py.startswith hunk_body_line "-" then
    if bool_decide (current_base_line_idx < len base_lines)
    then (out, current_base_line_idx + 1) else (out, current_base_line_idx)
  else if Py.startswith hunk_body_line " " then
    if bool_decide (current_base_line_idx < len base_lines)
    then (out ++ [escaped_line_content], current_base_line_idx + 1)
    else (out ++ [escaped_line_content], current_base_line_idx)
  else if Py.startswith hunk_body_line Py.backslash then st
  else st.

(** One hunk section: a header that does not match is skipped with its
    body. *)
Definition hunk (base_lines : list string) (a : option annotation)
    (st : state) (section : string * list string) : option state :=
  let '(header_line, body_lines) := section in
  match Re.search header_line with
  | None => Some st
  | Some g =>
      st' ← enter_hunk base_lines (old_start_1based g) st;
      Some (fold_left (body_line base_lines a) body_lines st')
  end.

(** The loop over the hunk sections. *)
Fixpoint hunks (base_lines : list string) (a : option annotation)
    (st : state) (sections : list (string * list string)) : option state :=
  match sections with
  | [] => Some st
  | s :: rest => st' ← hunk base_lines a st s; hunks base_lines a st' rest
  end.

(** The lines behind the last hunk. *)
Definition tail (base_lines : list string) (st : state) : option (list string) :=
  let '(out, current_base_line_idx) := st in
  if bool_decide (current_base_line_idx < len base_lines) then
    copied ← copy_base base_lines current_base_line_idx (len base_lines);
    Some (out ++ copied)
  else Some out.

(** [patched_lines_html_result] at the end of the function. *)
Definition patched_lines (base_lines : list string)
    (sections : list (string * list string)) (a : option annotation)
  : option (list string) :=
  st ← hunks base_lines a ([], 0) sections;
  tail base_lines st.

(** The test the source makes when there is no hunk section; both of its
    outcomes return the escaped base. *)
Definition is_only_no_newline_meta (patch_string : string)
    (raw_patch_lines : list string) : bool :=
  if Py.contains patch_string (Py.backslash +:+ " No newline at end of file") then
    negb (existsb (λ pline, Py.startswith_any pline ["+"; "-"])
            (filter (λ pline,
                negb (Py.startswith_any pline ["@@"; "---"; "+++"; "diff"; "index"; Py.backslash]))
               raw_patch_lines))
  else false.

(** [apply_patch_to_content(base_content_str, patch_string,
    pr_details_for_annotation)]; [None] as an argument is Python's [None],
    [None] as the result is an index out of range. *)
Definition apply_patch_to_content (base_content_str patch_string : option string)
    (pr_details_for_annotation : option annotation) : option string :=
  match patch_string with
  | None | Some EmptyString =>
      match base_content_str with
      | None | Some EmptyString => Some EmptyString
      | Some b => Some (Py.html_escape b)
      end
  | Some patch_string =>
      let base_content_str := default EmptyString base_content_str in
      let base_lines := Py.splitlines base_content_str in
      let raw_patch_lines := Py.splitlines patch_string in
      let sections := scan_patch raw_patch_lines in
      match sections with
      | [] =>
          if is_only_no_newline_meta patch_string raw_patch_lines
          then Some (Py.html_escape base_content_str)
          else Some (Py.html_escape base_content_str)
      | _ :: _ =>
          Py.join (String Py.LF EmptyString)
            <$> patched_lines base_lines sections pr_details_for_annotation
      end
  end.

End Single.

(** ** The interleaved view: [generate_interleaved_lines_for_all_prs] *)

Module Merge.

(** One value of [relevant_prs_data]: a dict read with [get]; a field is
    [None] when the key is absent. *)
Record pr_data := {
  patch : option string;
  title : option string;
  html_url : option string;
  local_pr_page_link : option string
}.

(** [relevant_prs_data]: a dict keeps its keys in insertion order, and
    [sorted] is stable, so the order of the entries is part of the
    model.  The keys of a dict are pairwise different ([NoDup d.*1]). *)
Definition prs := list (string * pr_data).

Fixpoint dict_get {V} (d : list (string * V)) (k : string) : option V :=
  match d with
  | [] => None
  | (k', v) :: r => if bool_decide (k' = k) then Some v else dict_get r k
  end.

(** The dict [pr_details] shared by the added lines of one pull request. *)
Record pr_details := {
  number : string;
  details_title : string;
  details_html_url : string;
  details_local_pr_page_link : string
}.

Inductive line_type := base | added.

(** A line object [{'text': .., 'type': .., 'pr_info': ..}]. *)
Record line_obj := LineObj {
  text : string;
  type : line_type;
  pr_info : option pr_details
}.

Definition base_obj (line : string) : line_obj :=
  LineObj (Py.html_escape line) base None.

(** [sorted(keys, key=...)]: stable insertion of one element. *)
Fixpoint insert_by_key (x : Z * string) (l : list (Z * string)) : list (Z * string) :=
  match l with
  | [] => [x]
  | y :: r => if bool_decide (x.1 ≤ y.1) then x :: y :: r else y :: insert_by_key x r
  end.

Definition sort_by_key (l : list (Z * string)) : list (Z * string) :=
  foldr insert_by_key [] l.

(** [sorted(relevant_prs_data.keys(), key=lambda x: int(x))]; [None] when
    [int] raises on a key. *)
Definition sorted_pr_numbers (d : prs) : option (list string) :=
  keyed ← mapM (λ k, z ← Py.int k; Some (z, k)) d.*1;
  Some (sort_by_key keyed).*2.

(** The state of the loop over [raw_patch_lines]; here the body starts as
    the empty list and the header is tested for its truth value. *)
Record scan := Scan {
  hunk_sections : list (string * list string);
  current_hunk_header : option string;
  current_hunk_body : list string
}.

Definition truthy (header : option string) : bool :=
  match header with
  | Some (String _ _) => true
  | _ => false
  end.

Definition close (st : scan) : list (string * list string) :=
  match current_hunk_header st with
  | Some h =>
      if truthy (Some h) then hunk_sections st ++ [(h, current_hunk_body st)]
      else hunk_sections st
  | None => hunk_sections st
  end.

Definition scan_line (st : scan) (line : string) : scan :=
  if Py.startswith line "@@" then
    Scan (close st) (Some line) []
  else if truthy (current_hunk_header st) then
    if is_body_line line
    then Scan (hunk_sections st) (current_hunk_header st) (current_hunk_body st ++ [line])
    else st
  else st.

Definition scan_patch (raw_patch_lines : list string) : list (string * list string) :=
  close (fold_left scan_line raw_patch_lines (Scan [] None [])).

(** [additions_map]: insertion key to the line objects anchored there. *)
Abbreviation additions := (gmap Z (list line_obj)).

(** [if key not in additions_map: additions_map[key] = []] and
    [additions_map[key].append(line_obj)] *)
Definition append_at (key : Z) (o : line_obj) (m : additions) : additions :=
  <[key := default [] (m !! key) ++ [o]]> m.

(** One line of a hunk body; the state is the map and
    [temp_base_line_offset_in_hunk]. *)
Definition body_line (details : pr_details) (target_insertion_line_0_idx : Z)
    (st : additions * Z) (hunk_line : string) : additions * Z :=
  let '(m, temp_base_line_offset_in_hunk) := st in
  if Py.startswith hunk_line "+" then
    let line_content := Py.html_escape (Py.tail1 hunk_line) in
    let o := LineObj line_content added (Some details) in
    let insertion_key := target_insertion_line_0_idx + temp_base_line_offset_in_hunk in
    (append_at insertion_key o m, temp_base_line_offset_in_hunk)
  else if Py.startswith hunk_line "-" then (m, temp_base_line_offset_in_hunk + 1)
  else if Py.startswith hunk_line " " then (m, temp_base_line_offset_in_hunk + 1)
  else st.

Definition target_of (old_start_1based : Z) : Z :=
  if bool_decide (old_start_1based > 0) then old_start_1based - 1 else -1.

(** One hunk section. *)
Definition hunk (details : pr_details) (m : additions)
    (section : string * list string) : additions :=
  let '(header, body) := section in
  match Re.search header with
  | None => m
  | Some g =>
      (fold_left (body_line details (target_of (old_start_1based g))) body (m, 0)).1
  end.

Definition details_of (pr_num_str : string) (d : pr_data) : pr_details :=
  {| number := pr_num_str;
     details_title := Py.html_escape (default "Unknown PR" (title d));
     details_html_url := default "#" (html_url d);
     details_local_pr_page_link := default "#" (local_pr_page_link d) |}.

(** The body of the loop over the sorted pull request numbers for one
    of them. *)
Definition pull_request (m : additions) (pr_num_str : string) (d : pr_data) : additions :=
  match patch d with
  | None | Some EmptyString => m
  | Some patch_string =>
      fold_left (hunk (details_of pr_num_str d)) (scan_patch (Py.splitlines patch_string)) m
  end.

(** The loop over the sorted pull request numbers; [None] is the
    [KeyError] of [relevant_prs_data[pr_num_str]]. *)
Fixpoint pull_requests (d : prs) (m : additions) (sorted : list string) : option additions :=
  match sorted with
  | [] => Some m
  | pr_num_str :: rest =>
      pr ← dict_get d pr_num_str;
      pull_requests d (pull_request m pr_num_str pr) rest
  end.

(** The additions the source emits for key [k], none if the key is
    absent. *)
Definition at_key (m : additions) (k : Z) : list line_obj := default [] (m !! k).

(** [for i, base_line_text in enumerate(base_lines)] from index [i] on. *)
Fixpoint emit_from (m : additions) (i : Z) (base_lines : list string) : list line_obj :=
  match base_lines with
  | [] => []
  | base_line_text :: rest =>
      base_obj base_line_text :: at_key m i ++ emit_from m (i + 1) rest
  end.

(** [final_lines_with_objects] *)
Definition emit (m : additions) (base_lines : list string) : list line_obj :=
  at_key m (-1) ++ emit_from m 0 base_lines.

(** [generate_interleaved_lines_for_all_prs(base_content_str,
    relevant_prs_data)]; [None] as the result is a raised exception. *)
Definition generate_interleaved_lines_for_all_prs
    (base_content_str : option string) (relevant_prs_data : prs)
  : option (list line_obj) :=
  let base_content_str := default EmptyString base_content_str in
  let base_lines := Py.splitlines base_content_str in
  sorted ← sorted_pr_numbers relevant_prs_data;
  m ← pull_requests relevant_prs_data ∅ sorted;
  Some (emit m base_lines).

End Merge.

(** ** Inputs for the examples *)

(** The line feed between two lines of a text. *)
Definition nl : string := String Py.LF EmptyString.

(** An entry of [relevant_prs_data] with the patch [p]. *)
Definition pr_with (p : string) : Merge.pr_data :=
  {| Merge.patch := Some p; Merge.title := Some "t"; Merge.html_url := None;
     Merge.local_pr_page_link := None |}.

(** ** The scan of the patch lines in recursive form

    Both functions split the patch lines into hunk sections with the same
    loop.  [sections_from cur lines] is that loop written as a recursion on
    the lines, [cur] being the section that is open; the lemmas below show
    that both loops compute it. *)

Definition is_header (line : string) : bool := Py.startswith line "@@".

Definition flush (cur : option (string * list string)) : list (string * list string) :=
  match cur with
  | Some s => [s]
  | None => []
  end.

Fixpoint sections_from (cur : option (string * list string)) (lines : list string)
  : list (string * list string) :=
  match lines with
  | [] => flush cur
  | line :: rest =>
      if is_header line then flush cur ++ sections_from (Some (line, [])) rest
      else
        sections_from
          (match cur with
           | Some (h, b) => if is_body_line line then Some (h, b ++ [line]) else cur
           | None => None
           end)
          rest
  end.

(** The lines are at their end or start with a hunk header. *)
Definition starts_hunk (lines : list string) : Prop :=
  match lines with
  | [] => True
  | l :: _ => is_header l = true
  end.

(** Two patch lines that differ at most in what a hunk header says beyond
    [old_start]: equal lines, or two header lines that both match and agree
    on [old_start]. *)
Definition same_old_start (l1 l2 : string) : Prop :=
  l1 = l2
  ∨ (is_header l1 = true ∧ is_header l2 = true
     ∧ ∃ g1 g2, Re.search l1 = Some g1 ∧ Re.search l2 = Some g2
                ∧ old_start_1based g1 = old_start_1based g2).

(** The same for two hunk sections, for two optional patch texts and for
    two entries of [relevant_prs_data]. *)
Definition same_section (s1 s2 : string * list string) : Prop :=
  s1.2 = s2.2
  ∧ old_start_1based <$> Re.search s1.1 = old_start_1based <$> Re.search s2.1.

Definition same_patch (p1 p2 : option string) : Prop :=
  match p1, p2 with
  | Some p1, Some p2 => Forall2 same_old_start (Py.splitlines p1) (Py.splitlines p2)
  | None, None => True
  | _, _ => False
  end.

Definition same_entry (e1 e2 : string * Merge.pr_data) : Prop :=
  e1.1 = e2.1
  ∧ Merge.title e1.2 = Merge.title e2.2
  ∧ Merge.html_url e1.2 = Merge.html_url e2.2
  ∧ Merge.local_pr_page_link e1.2 = Merge.local_pr_page_link e2.2
  ∧ same_patch (Merge.patch e1.2) (Merge.patch e2.2).

(** No character of [p] is a line boundary. *)
Fixpoint no_break (p : string) : bool :=
  match p with
  | EmptyString => true
  | String c r => negb (Py.is_linebreak c) && no_break r
  end.

(** A patch text without a hunk: no text at all, or a text none of whose
    hunk sections has a header of the expected form (there may be no
    section). *)
Definition no_hunk (patch_string : option string) : Prop :=
  match patch_string with
  | Some p => Forall (λ s, Re.search s.1 = None) (Single.scan_patch (Py.splitlines p))
  | None => True
  end.

(** ** The additions of the interleaved view as a list

    The loops of [generate_interleaved_lines_for_all_prs] put the added
    lines into [additions_map] one by one.  The functions below list the
    pairs of insertion key and line object in the order in which the loops
    append them; the lemmas show that the map the source ends with holds,
    under every key, the objects listed for that key, in this order. *)

Fixpoint body_additions (details : Merge.pr_details) (target offset : Z)
    (body : list string) : list (Z * Merge.line_obj) :=
  match body with
  | [] => []
  | hunk_line :: rest =>
      if Py.startswith hunk_line "+" then
        (target + offset,
         Merge.LineObj (Py.html_escape (Py.tail1 hunk_line)) Merge.added (Some details))
        :: body_additions details target offset rest
      else if Py.startswith hunk_line "-" then body_additions details target (offset + 1) rest
      else if Py.startswith hunk_line " " then body_additions details target (offset + 1) rest
      else body_additions details target offset rest
  end.

Definition hunk_additions (details : Merge.pr_details) (section : string * list string)
  : list (Z * Merge.line_obj) :=
  match Re.search section.1 with
  | Some g => body_additions details (Merge.target_of (old_start_1based g)) 0 section.2
  | None => []
  end.

Definition pr_additions (pr_num_str : string) (d : Merge.pr_data)
  : list (Z * Merge.line_obj) :=
  match Merge.patch d with
  | None | Some EmptyString => []
  | Some patch_string =>
      flat_map (hunk_additions (Merge.details_of pr_num_str d))
        (Merge.scan_patch (Py.splitlines patch_string))
  end.

Definition all_additions (d : Merge.prs) (sorted : list string) : list (Z * Merge.line_obj) :=
  flat_map (λ k, match Merge.dict_get d k with
                 | Some x => pr_additions k x
                 | None => []
                 end) sorted.

Definition add_all (m : Merge.additions) (l : list (Z * Merge.line_obj)) : Merge.additions :=
  fold_left (λ m p, Merge.append_at p.1 p.2 m) l m.

(** The objects listed for key [k]. *)
Definition keyed_at (k : Z) (l : list (Z * Merge.line_obj)) : list Merge.line_obj :=
  (filter (λ p, p.1 = k) l).*2.

(** Every key of the mapping is a text [int] accepts. *)
Definition keys_parse (d : Merge.prs) : Prop :=
  Forall (λ k, is_Some (Py.int k)) d.*1.

(** A key with its number, when [int] accepts it. *)
Definition keyed (k : string) : Z * string := (default 0 (Py.int k), k).

(** The order [sorted] sorts the keyed pull request numbers by. *)
Definition key_le (x y : Z * string) : Prop := x.1 ≤ y.1.

(** The keys of the mapping denote pairwise different numbers. *)
Definition distinct_numbers (d : Merge.prs) : Prop := NoDup (Py.int <$> d.*1).

#[global] Instance line_type_eq_dec : EqDecision Merge.line_type.
Proof. solve_decision. Defined.

(** ** Notions used by the lemmas *)

(** The cursor stays inside [0, len(base_lines)]. *)
Definition in_base (base_lines : list string) (st : Single.state) : Prop :=
  0 ≤ st.2 ≤ len base_lines.

(** The hunk section that is open in a state of the scan. *)
Definition single_cur (st : Single.scan) : option (string * list string) :=
  match Single.current_hunk_header st, Single.current_hunk_body st with
  | Some h, Some b => Some (h, b)
  | _, _ => None
  end.

Definition merge_cur (st : Merge.scan) : option (string * list string) :=
  match Merge.current_hunk_header st with
  | Some h => Some (h, Merge.current_hunk_body st)
  | None => None
  end.

(** A header that is set starts with [@@], so it is not empty. *)
Definition merge_wf (st : Merge.scan) : Prop :=
  match Merge.current_hunk_header st with
  | Some h => ∃ c r, h = String c r
  | None => True
  end.

(** A line object of type added. *)
Definition is_added (o : Merge.line_obj) : Prop := Merge.type o = Merge.added.

(** ** A patch that fits its base

    What a hunk body emits does not depend on the base: the added lines as
    spans and the context lines with the text the patch gives them.
    [body_consumed] counts the base lines a body passes. *)

Fixpoint body_emitted (a : option Single.annotation) (body : list string) : list string :=
  match body with
  | [] => []
  | l :: rest =>
      if Py.startswith l "+" then
        Single.added_line a (Py.html_escape (Py.tail1 l)) :: body_emitted a rest
      else if Py.startswith l "-" then body_emitted a rest
      else if Py.startswith l " " then Py.html_escape (Py.tail1 l) :: body_emitted a rest
      else body_emitted a rest
  end.

Fixpoint body_consumed (body : list string) : Z :=
  match body with
  | [] => 0
  | l :: rest =>
      if Py.startswith l "+" then body_consumed rest
      else if Py.startswith l "-" then 1 + body_consumed rest
      else if Py.startswith l " " then 1 + body_consumed rest
      else body_consumed rest
  end.

(** The Added and the Removed lines of a body. *)
Definition added_count (body : list string) : Z :=
  len (filter (λ l, Py.startswith l "+" = true) body).

Definition removed_count (body : list string) : Z :=
  len (filter (λ l, Py.startswith l "+" = false ∧ Py.startswith l "-" = true) body).

(** The hunks of a list of sections, when every header matches: the
    number [old_start] with the body. *)
Definition parsed_hunks (sections : list (string * list string))
  : option (list (Z * list string)) :=
  mapM (λ s, g ← Re.search s.1; Some (old_start_1based g, s.2)) sections.

(** The hunks come in the order of the base, do not overlap, and stay
    inside the base, seen from the cursor [idx]. *)
Fixpoint well_placed (base_lines : list string) (idx : Z) (hunks : list (Z * list string))
  : Prop :=
  match hunks with
  | [] => True
  | (os, body) :: rest =>
      idx ≤ os - 1
      ∧ os - 1 + body_consumed body ≤ len base_lines
      ∧ well_placed base_lines (os - 1 + body_consumed body) rest
  end.

(** Patch application as a unified diff describes it: the base up to the
    hunk, what the hunk body emits in place of the lines it passes, and so
    on behind it. *)
Fixpoint applied (base_lines : list string) (a : option Single.annotation) (idx : Z)
    (hunks : list (Z * list string)) : list string :=
  match hunks with
  | [] => Single.base_line <$> drop (Z.to_nat idx) base_lines
  | (os, body) :: rest =>
      (Single.base_line <$> take (Z.to_nat (os - 1 - idx)) (drop (Z.to_nat idx) base_lines))
      ++ body_emitted a body
      ++ applied base_lines a (os - 1 + body_consumed body) rest
  end.

(** Added minus Removed lines over all hunks. *)
Fixpoint patch_delta (hunks : list (Z * list string)) : Z :=
  match hunks with
  | [] => 0
  | (_, body) :: rest => added_count body - removed_count body + patch_delta rest
  end.


(** ** The caller of the interleaved view: step 4 of [process_repository]

    For one file, [process_repository] builds the mapping
    [all_prs_patches_for_interleaved_view] out of
    [all_pr_details_with_files], whose keys are the numbers of the pull
    requests, and hands it to [generate_interleaved_lines_for_all_prs]. *)

Module Caller.

(** An entry of ['files_changed']; [patch] is [None] when the entry has no
    ['patch'] key and [Some None] when the key holds [None]. *)
Record file_change := FileChange {
  filename : string;
  patch : option (option string)
}.

(** A value of [all_pr_details_with_files], with the keys the loop
    reads. *)
Record pr_detail := PrDetail {
  title : string;
  html_url : string;
  files_changed : list file_change
}.

(** [d[k] = v]: a key that is there keeps its place and gets the new
    value, a new key goes to the end. *)
Fixpoint dict_set {V} (k : string) (v : V) (d : list (string * V)) : list (string * V) :=
  match d with
  | [] => [(k, v)]
  | (k', v') :: r =>
      if decide (k' = k) then (k, v) :: r else (k', v') :: dict_set k v r
  end.

(** The test of the loop over ['files_changed']. *)
Definition changes_file (file_full_path : string) (c : file_change) : bool :=
  bool_decide (filename c = file_full_path) && bool_decide (is_Some (patch c)).

Section Step4.

(** [os.path.join] is the one of the platform. *)
Variable os_path_join : string → string → string.

(** [os.path.join(pulls_dir_rel_path_for_file_page, f"{pr_num}.html")
    .replace("\\", "/")] *)
Definition local_link (pulls_dir_rel_path_for_file_page : string) (pr_num : Z) : string :=
  Py.replace_char (ascii_of_nat 92) "/"
    (os_path_join pulls_dir_rel_path_for_file_page (Py.str_int pr_num +:+ ".html")).

(** The value stored under [str(pr_num)]. *)
Definition interleaved_entry (pulls_dir_rel_path_for_file_page : string) (pr_num : Z)
    (pr_detail_data : pr_detail) (pr_file_change_info : file_change) : Merge.pr_data :=
  {| Merge.patch := default None (patch pr_file_change_info);
     Merge.title := Some (title pr_detail_data);
     Merge.html_url := Some (html_url pr_detail_data);
     Merge.local_pr_page_link := Some (local_link pulls_dir_rel_path_for_file_page pr_num) |}.

(** The body of the loop over [all_pr_details_with_files.items()]: the
    first change of the file that has a patch is stored, and the inner
    loop breaks. *)
Definition add_pr (pulls_dir_rel_path_for_file_page file_full_path : string)
    (all_prs_patches_for_interleaved_view : Merge.prs) (item : Z * pr_detail) : Merge.prs :=
  match List.find (changes_file file_full_path) (files_changed item.2) with
  | Some pr_file_change_info =>
      dict_set (Py.str_int item.1)
        (interleaved_entry pulls_dir_rel_path_for_file_page item.1 item.2 pr_file_change_info)
        all_prs_patches_for_interleaved_view
  | None => all_prs_patches_for_interleaved_view
  end.

Definition all_prs_patches_for_interleaved_view
    (pulls_dir_rel_path_for_file_page file_full_path : string)
    (all_pr_details_with_files : list (Z * pr_detail)) : Merge.prs :=
  fold_left (add_pr pulls_dir_rel_path_for_file_page file_full_path)
    all_pr_details_with_files [].

(** The call of [generate_interleaved_lines_for_all_prs], made for a file
    that is not binary and has a content; [None] is the branch of the
    [except]. *)
Definition interleaved_lines_data
    (pulls_dir_rel_path_for_file_page file_full_path : string)
    (content_str : option string) (is_binary : bool)
    (all_pr_details_with_files : list (Z * pr_detail)) : option (list Merge.line_obj) :=
  if negb is_binary && bool_decide (is_Some content_str) then
    Merge.generate_interleaved_lines_for_all_prs content_str
      (all_prs_patches_for_interleaved_view pulls_dir_rel_path_for_file_page file_full_path
         all_pr_details_with_files)
  else Some [].

End Step4.

End Caller.

(** ** The texts the header pattern matches

    The pattern read as a description of texts: [is_number] are the texts
    of [\d+], [count_text] is the optional group, [header_text g rest] the
    text that matches with the groups [g] and is followed by [rest]. *)

Definition is_number (s : string) : Prop :=
  s ≠ EmptyString ∧ Forall (λ c, Py.is_digit c = true) (String.list_ascii_of_string s).

Definition count_text (g : option string) : string :=
  match g with
  | Some d => "," +:+ d
  | None => EmptyString
  end.

Definition header_text (g : Re.groups) (rest : string) : string :=
  "@@ -" +:+ Re.group1 g +:+ count_text (Re.group3 g) +:+ " +" +:+ Re.group4 g
    +:+ count_text (Re.group6 g) +:+ " @@" +:+ rest.

Definition groups_wf (g : Re.groups) : Prop :=
  is_number (Re.group1 g) ∧ from_option is_number True (Re.group3 g)
  ∧ is_number (Re.group4 g) ∧ from_option is_number True (Re.group6 g).

(** ** Escaped texts *)

(** No character of [s] opens or closes a tag or a quoted attribute. *)
Definition is_escaped (s : string) : Prop :=
  Forall (λ c, c ∉ ["<"%char; ">"%char; Py.dquote; Py.squote])
    (String.list_ascii_of_string s).

(** A text that does not go on with a digit. *)
Definition no_digit_head (s : string) : Prop :=
  match s with
  | String c _ => Py.is_digit c = false
  | EmptyString => True
  end.


(** ** Entries that touch the file *)

#[global] Instance groups_eq_dec : EqDecision Re.groups.
Proof. solve_decision. Defined.

#[global] Instance no_hunk_dec (patch_string : option string) : Decision (no_hunk patch_string).
Proof. destruct patch_string; apply _. Defined.

(** The entries whose patch has a hunk section with a header that
    matches. *)
Definition with_hunks (d : list (string * Merge.pr_data)) : Merge.prs :=
  filter (λ e, ¬ no_hunk (Merge.patch e.2)) d.

(** The keys of such entries of [d]. *)
Definition key_with_hunks (d : Merge.prs) (k : string) : Prop :=
  from_option (λ x, ¬ no_hunk (Merge.patch x)) False (Merge.dict_get d k).

#[global] Instance key_with_hunks_dec d k : Decision (key_with_hunks d k).
Proof. unfold key_with_hunks. destruct (Merge.dict_get d k); apply _. Defined.


(** ** The cache files: [get_cache_path] *)

Module Cache.

Definition OUTPUT_BASE_DIR : string := "gh_local_viewer_output2".

(** [bytes]: a list of numbers from 0 to 255. *)
Definition bytes : Type := list Z.

(** The UTF-8 encoding of one character, for a code point below 256: one
    byte below 128, else the two bytes [110xxxxx 10xxxxxx]. *)
Definition utf8 (c : ascii) : bytes :=
  let n := Z.of_nat (Py.cp c) in
  if bool_decide (n < 128) then [n] else [192 + n / 64; 128 + n mod 64].

(** [s.encode()] *)
Definition encode (s : string) : bytes :=
  flat_map utf8 (String.list_ascii_of_string s).

(** The alphabet of [base64.urlsafe_b64encode]: the one of base64 with
    [-] and [_] in the place of [+] and [/]. *)
Definition alphabet : list ascii :=
  String.list_ascii_of_string
    "ABCDEFGHIJKLMNOPQRSTUVWXYZabcdefghijklmnopqrstuvwxyz0123456789-_".

Definition sextet (n : Z) : ascii := nth (Z.to_nat n) alphabet "="%char.

(** [base64.urlsafe_b64encode(bs)]: three bytes are 24 bits and give four
    characters of six bits each; one or two bytes at the end are filled
    up with zero bits and give two or three characters and the padding
    [=]. *)
Fixpoint urlsafe_b64encode (bs : bytes) : list ascii :=
  match bs with
  | [] => []
  | [a] =>
      let n := a * 65536 in
      [sextet (n / 262144); sextet (n / 4096 mod 64); "="%char; "="%char]
  | [a; b] =>
      let n := (a * 256 + b) * 256 in
      [sextet (n / 262144); sextet (n / 4096 mod 64); sextet (n / 64 mod 64); "="%char]
  | a :: b :: c :: rest =>
      let n := (a * 256 + b) * 256 + c in
      sextet (n / 262144) :: sextet (n / 4096 mod 64) :: sextet (n / 64 mod 64)
        :: sextet (n mod 64) :: urlsafe_b64encode rest
  end.

(** [base64.urlsafe_b64encode(identifier.encode()).decode() if identifier
    else "default"] *)
Definition sanitized_identifier (identifier : string) : string :=
  match identifier with
  | EmptyString => "default"
  | _ => String.string_of_list_ascii (urlsafe_b64encode (encode identifier))
  end.

Section Path.

(** [os.path.join(a, *p)] is the one of the platform. *)
Variable os_path_join : string → list string → string.

(** [get_cache_path(owner, repo, cache_type, identifier)]: the path it
    returns; it also creates the directory of the path. *)
Definition get_cache_path (owner repo cache_type identifier : string) : string :=
  let base_cache_dir := os_path_join OUTPUT_BASE_DIR [owner; repo; "_cache"] in
  let sanitized_identifier := sanitized_identifier identifier in
  if bool_decide (cache_type = "file_content_blob") then
    os_path_join base_cache_dir ["file_blobs"; identifier +:+ ".dat"]
  else if bool_decide (cache_type = "contents_metadata") then
    os_path_join base_cache_dir ["dir_contents"; sanitized_identifier +:+ ".json"]
  else if bool_decide (cache_type = "pull_files_detail") then
    os_path_join base_cache_dir [cache_type; identifier +:+ ".json"]
  else if bool_decide (identifier ≠ EmptyString) then
    os_path_join base_cache_dir [cache_type; sanitized_identifier +:+ ".json"]
  else
    os_path_join base_cache_dir [cache_type +:+ ".json"].

End Path.

End Cache.

(** ** Reading a cache file name back

    The inverse of the encoding, used to show that the name of a cache
    file determines the identifier. *)

(** The place of a character in the alphabet. *)
Definition unsextet (c : ascii) : Z :=
  from_option (λ p : nat * ascii, Z.of_nat p.1) 0 (list_find (λ x, x = c) Cache.alphabet).

(** The bytes of a text in base64. *)
Fixpoint b64decode (l : list ascii) : Cache.bytes :=
  match l with
  | c0 :: c1 :: c2 :: c3 :: rest =>
      let n := ((unsextet c0 * 64 + unsextet c1) * 64 + unsextet c2) * 64 + unsextet c3 in
      if Ascii.eqb c2 "=" then [n / 65536]
      else if Ascii.eqb c3 "=" then [n / 65536; n / 256 mod 256]
      else n / 65536 :: n / 256 mod 256 :: n mod 256 :: b64decode rest
  | _ => []
  end.

(** The characters of a text in UTF-8, for code points below 256. *)
Fixpoint utf8_decode (bs : Cache.bytes) : list ascii :=
  match bs with
  | a :: rest =>
      if bool_decide (a < 128) then ascii_of_nat (Z.to_nat a) :: utf8_decode rest
      else
        match rest with
        | b :: rest' =>
            ascii_of_nat (Z.to_nat ((a - 192) * 64 + (b - 128))) :: utf8_decode rest'
        | [] => []
        end
  | [] => []
  end.

(** A name without a path separator. *)
Definition plain_name (n : string) : Prop :=
  Forall (λ c, c ≠ "/"%char ∧ c ≠ ascii_of_nat 92) (String.list_ascii_of_string n).

(** [os.path.join(a, *p)] of [posixpath]. *)
Definition posix_join (a : string) (p : list string) : string :=
  fold_left Py.path_join p a.


(** ** The origin of the lines of the reconstruction *)

(** Where a line of the reconstruction comes from: a line of the base, an
    Added line of a hunk body, or a Context line of a hunk body. *)
Definition line_origin (base_lines : list string) (bodies : list string)
    (a : option Single.annotation) (line : string) : Prop :=
  (∃ b, b ∈ base_lines ∧ line = Single.base_line b)
  ∨ (∃ l, l ∈ bodies ∧ Py.startswith l "+" = true
          ∧ line = Single.added_line a (Py.html_escape (Py.tail1 l)))
  ∨ (∃ l, l ∈ bodies ∧ Py.startswith l "+" = false ∧ Py.startswith l "-" = false
          ∧ Py.startswith l " " = true ∧ line = Py.html_escape (Py.tail1 l)).


(** ** Properties of single-patch reconstruction *)

(** The scenarios of the specification. *)

Example round_trip :
  Single.apply_patch_to_content (Some ("a" +:+ nl +:+ "b" +:+ nl +:+ "c"))
    (Some ("@@ -2,1 +2,2 @@" +:+ nl +:+ " b" +:+ nl +:+ "+x")) None
  = Some ("a" +:+ nl +:+ "b" +:+ nl +:+ Single.added_line None "x" +:+ nl +:+ "c").
Proof. vm_compute. reflexivity. Qed.

Example removal :
  Single.apply_patch_to_content (Some ("a" +:+ nl +:+ "b" +:+ nl +:+ "c"))
    (Some ("@@ -1,2 +1,1 @@" +:+ nl +:+ "-a" +:+ nl +:+ " b")) None
  = Some ("b" +:+ nl +:+ "c").
Proof. vm_compute. reflexivity. Qed.

Example two_sources :
  Merge.generate_interleaved_lines_for_all_prs (Some "x")
    [("2", pr_with ("@@ -0,0 +1 @@" +:+ nl +:+ "+q"));
     ("1", pr_with ("@@ -0,0 +1 @@" +:+ nl +:+ "+p"))]
  = Some [Merge.LineObj "p" Merge.added (Some (Merge.details_of "1" (pr_with "")));
          Merge.LineObj "q" Merge.added (Some (Merge.details_of "2" (pr_with "")));
          Merge.base_obj "x"].
Proof. vm_compute. reflexivity. Qed.

Section SingleFacts.
Import Single.

Lemma len_nonneg {A} (l : list A) : 0 ≤ len l.
Proof. unfold len. lia. Qed.

Lemma range_cons (a b : Z) : a < b → range a b = a :: range (a + 1) b.
Proof.
  intros Hab. unfold range.
  replace (Z.to_nat (b - a)) with (S (Z.to_nat (b - (a + 1)))) by lia.
  cbn [seq fmap list_fmap]. f_equal; [lia|].
  rewrite <- seq_shift, <- list_fmap_compose.
  apply list_fmap_ext. intros _ n _. simpl. lia.
Qed.

Lemma range_empty (a b : Z) : b ≤ a → range a b = [].
Proof. intros Hab. unfold range. by replace (Z.to_nat (b - a)) with 0%nat by lia. Qed.

(** Inside the base, the checked copy is the slice it stands for. *)
Lemma copy_base_slice (base_lines : list string) (a b : Z) :
  0 ≤ a → b ≤ len base_lines →
  copy_base base_lines a b
  = Some (base_line <$> take (Z.to_nat (b - a)) (drop (Z.to_nat a) base_lines)).
Proof.
  intros Ha Hb. unfold copy_base.
  remember (Z.to_nat (b - a)) as n eqn:Hn.
  revert a Ha Hn. induction n as [|n IH]; intros a Ha Hn.
  - rewrite range_empty by lia. done.
  - rewrite range_cons by lia. cbn [mapM].
    assert (Hin : 0 ≤ a < len base_lines) by lia.
    destruct (lookup_lt_is_Some_2 base_lines (Z.to_nat a)) as [x Hx];
      [unfold len in *; lia|].
    assert (Hget : getitem base_lines a = Some x).
    { unfold getitem. by rewrite bool_decide_eq_true_2. }
    rewrite Hget. cbn [fmap option_fmap option_map mbind option_bind].
    rewrite (IH (a + 1)) by lia. cbn [mbind option_bind mret option_ret].
    rewrite (drop_S _ _ _ Hx). cbn [take fmap list_fmap].
    by replace (S (Z.to_nat a)) with (Z.to_nat (a + 1)) by lia.
Qed.

Lemma enter_hunk_in_base base_lines os st :
  in_base base_lines st →
  ∃ st', enter_hunk base_lines os st = Some st' ∧ in_base base_lines st'.
Proof.
  destruct st as [out idx]. unfold in_base, enter_hunk. simpl. intros Hidx.
  repeat case_bool_decide; try (eexists; split; [done|simpl; lia]).
  - rewrite copy_base_slice by lia. eexists; split; [done|simpl; lia].
  - rewrite copy_base_slice by lia. eexists; split; [done|simpl; lia].
Qed.

Lemma body_line_in_base base_lines a st line :
  in_base base_lines st → in_base base_lines (body_line base_lines a st line).
Proof.
  destruct st as [out idx]. unfold in_base, body_line. cbn [snd]. intros Hidx.
  destruct (Py.startswith line "+"); [cbn [snd]; lia|].
  destruct (Py.startswith line "-"); [case_bool_decide; cbn [snd]; lia|].
  destruct (Py.startswith line " "); [case_bool_decide; cbn [snd]; lia|].
  destruct (Py.startswith line Py.backslash); cbn [snd]; lia.
Qed.

Lemma body_in_base base_lines a body st :
  in_base base_lines st →
  in_base base_lines (fold_left (body_line base_lines a) body st).
Proof.
  revert st. induction body as [|l body IH]; intros st Hst; [done|].
  simpl. apply IH. by apply body_line_in_base.
Qed.

Lemma hunk_in_base base_lines a st section :
  in_base base_lines st →
  ∃ st', hunk base_lines a st section = Some st' ∧ in_base base_lines st'.
Proof.
  intros Hst. destruct section as [h body]. unfold hunk.
  destruct (Re.search h) as [g|]; [|by eexists].
  destruct (enter_hunk_in_base base_lines (old_start_1based g) st Hst) as (st' & -> & Hst').
  simpl. eexists; split; [done|]. by apply body_in_base.
Qed.

Lemma hunks_in_base base_lines a sections st :
  in_base base_lines st →
  ∃ st', hunks base_lines a st sections = Some st' ∧ in_base base_lines st'.
Proof.
  revert st. induction sections as [|s sections IH]; intros st Hst; [by eexists|].
  simpl. destruct (hunk_in_base base_lines a st s Hst) as (st' & -> & Hst').
  simpl. by apply IH.
Qed.

Lemma tail_in_base base_lines st :
  in_base base_lines st →
  tail base_lines st
  = Some (st.1 ++ (base_line <$> drop (Z.to_nat st.2) base_lines)).
Proof.
  destruct st as [out idx]. unfold in_base, tail. simpl. intros Hidx.
  case_bool_decide.
  - rewrite copy_base_slice by lia. simpl. do 3 f_equal.
    apply take_ge. rewrite length_drop. unfold len. lia.
  - rewrite drop_ge by (unfold len in *; lia). by rewrite app_nil_r.
Qed.

End SingleFacts.

(** C9: single-patch reconstruction never reads [base_lines] outside
    [0, len(base_lines)).  Every read of the model is checked and gives
    [None] outside that range; the function returns a result for every
    input, and the loop over the hunks, started as the source starts it,
    ends for every list of hunk sections with the cursor inside
    [0, len(base_lines)] and a tail copy that stays in range. *)
Theorem apply_patch_never_out_of_range
    (base_content_str patch_string : option string) (a : option Single.annotation) :
  is_Some (Single.apply_patch_to_content base_content_str patch_string a)
  ∧ ∀ (base_lines : list string) (sections : list (string * list string)),
      ∃ out idx,
        Single.hunks base_lines a ([], 0) sections = Some (out, idx)
        ∧ 0 ≤ idx ≤ len base_lines
        ∧ Single.patched_lines base_lines sections a
          = Some (out ++ (Single.base_line <$> drop (Z.to_nat idx) base_lines)).
Proof.
  assert (Hloop : ∀ base_lines sections, ∃ out idx,
      Single.hunks base_lines a ([], 0) sections = Some (out, idx)
      ∧ 0 ≤ idx ≤ len base_lines
      ∧ Single.patched_lines base_lines sections a
        = Some (out ++ (Single.base_line <$> drop (Z.to_nat idx) base_lines))).
  { intros base_lines sections.
    destruct (hunks_in_base base_lines a sections ([], 0)) as ([out idx] & Hh & Hin).
    { unfold in_base. simpl. pose proof (len_nonneg base_lines). lia. }
    exists out, idx. split; [done|]. split; [exact Hin|].
    unfold Single.patched_lines. rewrite Hh. cbn [mbind option_bind].
    by rewrite (tail_in_base base_lines (out, idx) Hin). }
  split; [|exact Hloop].
  unfold Single.apply_patch_to_content.
  destruct patch_string as [[|c p]|].
  - destruct base_content_str as [[|]|]; by eexists.
  - cbv zeta. destruct (Single.scan_patch _) as [|s secs'].
    + destruct (Single.is_only_no_newline_meta _ _); by eexists.
    + destruct (Hloop (Py.splitlines (default "" base_content_str)) (s :: secs'))
        as (out & idx & _ & _ & ->).
      by eexists.
  - destruct base_content_str as [[|]|]; by eexists.
Qed.

(** C3, the claim as stated fails: with the cursor at 2, a hunk whose
    header has [old_start = 0] has a negative gap, and the cursor stays at
    2; it is not moved to [max(old_start - 1, 0) = 0]. *)
Lemma snap_old_start_zero_counterexample :
  (0 - 1) - 2 < 0
  ∧ Single.enter_hunk ["a"; "b"] 0 ([], 2) = Some ([], 2)
  ∧ Z.max (0 - 1) 0 ≠ 2
  ∧ Single.apply_patch_to_content (Some ("a" +:+ nl +:+ "b"))
      (Some ("@@ -2 +2 @@" +:+ nl +:+ " b" +:+ nl +:+ "@@ -0,0 +1 @@" +:+ nl +:+ "+x")) None
    = Some ("a" +:+ nl +:+ "b" +:+ nl +:+ Single.added_line None "x").
Proof. vm_compute. repeat split; congruence. Qed.

(** ** The number read from a hunk header *)

Lemma digits_are_digits s :
  Forall (λ c, Py.is_digit c = true) (String.list_ascii_of_string (Re.digits s).1).
Proof.
  induction s as [|c s IH]; [constructor|]. cbn [Re.digits].
  destruct (Py.is_digit c) eqn:Hc; [|constructor].
  cbn [fst String.list_ascii_of_string]. by constructor.
Qed.

Lemma fold_digits_nonneg (l : list ascii) (acc : Z) :
  Forall (λ c, Py.is_digit c = true) l → 0 ≤ acc →
  0 ≤ fold_left (λ acc c, 10 * acc + Py.digit_val c) l acc.
Proof.
  intros Hl. revert acc. induction Hl as [|c l Hc _ IH]; intros acc Hacc; [done|].
  cbn [fold_left]. apply IH. unfold Py.is_digit in Hc.
  apply bool_decide_eq_true_1 in Hc. unfold Py.digit_val. lia.
Qed.

Lemma digits1_digits s d r : Re.digits1 s = Some (d, r) → d = (Re.digits s).1.
Proof.
  unfold Re.digits1. destruct (Re.digits s) as [[|c d'] r']; [done|].
  by intros [= <- <-].
Qed.

Lemma match_here_group1 s g :
  Re.match_here s = Some g → ∃ t, Re.group1 g = (Re.digits t).1.
Proof.
  unfold Re.match_here. intros H.
  destruct (Re.lit "@@ -" s) as [s1|]; [|done]. cbn [mbind option_bind] in H.
  destruct (Re.digits1 s1) as [[g1 s2]|] eqn:Hd; [|done]. cbn [mbind option_bind] in H.
  destruct (Re.opt_count s2) as [g3 s3].
  destruct (Re.lit " +" s3) as [s4|]; [|done]. cbn [mbind option_bind] in H.
  destruct (Re.digits1 s4) as [[g4 s5]|]; [|done]. cbn [mbind option_bind] in H.
  destruct (Re.opt_count s5) as [g6 s6].
  destruct (Re.lit " @@" s6) as [s7|]; [|done]. cbn [mbind option_bind] in H.
  injection H as <-. exists s1. cbn [Re.group1]. by apply digits1_digits in Hd.
Qed.

Lemma search_group1 s g :
  Re.search s = Some g → ∃ t, Re.group1 g = (Re.digits t).1.
Proof.
  induction s as [|c s IH]; cbn [Re.search].
  - destruct (Re.match_here "") eqn:Hm; [|done]. intros [= <-]. by eapply match_here_group1.
  - destruct (Re.match_here (String c s)) eqn:Hm; [|exact IH].
    intros [= <-]. by eapply match_here_group1.
Qed.

Lemma old_start_nonneg h g : Re.search h = Some g → 0 ≤ old_start_1based g.
Proof.
  intros (t & Ht)%search_group1. unfold old_start_1based, Py.int_of_digits.
  rewrite Ht. apply fold_digits_nonneg; [apply digits_are_digits | done].
Qed.

(** C3, amended: at a hunk whose gap [(old_start - 1) - base_idx] is
    negative, nothing is copied and nothing is raised before the hunk body
    is walked; when [old_start > 0] the cursor is set to [old_start - 1],
    which is [max(old_start - 1, 0)], and when [old_start = 0] the cursor
    is left where it is. *)
Theorem enter_hunk_negative_gap
    (base_lines out body : list string) (a : option Single.annotation)
    (idx : Z) (h : string) (g : Re.groups) :
  Re.search h = Some g →
  (old_start_1based g - 1) - idx < 0 →
  let idx' :=
    if bool_decide (old_start_1based g = 0) then idx
    else Z.max (old_start_1based g - 1) 0 in
  Single.enter_hunk base_lines (old_start_1based g) (out, idx) = Some (out, idx')
  ∧ Single.hunk base_lines a (out, idx) (h, body)
    = Some (fold_left (Single.body_line base_lines a) body (out, idx')).
Proof.
  intros Hh Hgap idx'. pose proof (old_start_nonneg h g Hh) as Hos.
  assert (Henter : Single.enter_hunk base_lines (old_start_1based g) (out, idx)
                   = Some (out, idx')).
  { unfold Single.enter_hunk. rewrite bool_decide_eq_false_2 by lia.
    rewrite bool_decide_eq_true_2 by lia. subst idx'.
    repeat case_bool_decide; try lia; do 2 f_equal; lia. }
  split; [exact Henter|]. unfold Single.hunk. by rewrite Hh, Henter.
Qed.

Lemma enter_hunk_negative_gap_witness :
  Single.enter_hunk ["a"; "b"; "c"] 2 (["x"], 3) = Some (["x"], 1)
  ∧ Single.enter_hunk ["a"; "b"; "c"] 0 (["x"], 3) = Some (["x"], 3).
Proof.
  split.
  - refine (proj1 (enter_hunk_negative_gap ["a"; "b"; "c"] ["x"] [] None 3
      "@@ -2 +2 @@" (Re.Groups "2" None "2" None) _ _)); [reflexivity | vm_compute; reflexivity].
  - refine (proj1 (enter_hunk_negative_gap ["a"; "b"; "c"] ["x"] [] None 3
      "@@ -0,0 +1 @@" (Re.Groups "0" (Some "0") "1" None) _ _));
      [reflexivity | vm_compute; reflexivity].
Defined.

(** An escaped text never starts with the character that opens a tag. *)
Lemma html_escape_not_tag (t r : string) : Py.html_escape t ≠ String "<" r.
Proof.
  destruct t as [|c t]; [done|]. simpl. unfold Py.escape_char.
  destruct (Ascii.eqb_spec c "&"); [done|].
  destruct (Ascii.eqb_spec c "<"); [done|].
  destruct (Ascii.eqb_spec c ">"); [done|].
  destruct (Ascii.eqb_spec c Py.dquote); [done|].
  destruct (Ascii.eqb_spec c Py.squote); [done|].
  simpl. by intros [= Hc _].
Qed.

(** C4, the claim as stated fails: without an annotation the line for
    ["+x"] is a span of class [added-line], not the escaped text that a
    base or context line is emitted as. *)
Lemma added_without_annotation_counterexample :
  Single.body_line ["a"] None ([], 0) "+x"
  = (["<span class=" +:+ Single.q +:+ "added-line" +:+ Single.q +:+ ">x</span>"], 0)
  ∧ Single.body_line ["a"] None ([], 0) " x" = ([Single.base_line "x"], 1)
  ∧ Single.added_line None "x" ≠ Single.base_line "x".
Proof. vm_compute. repeat split; congruence. Qed.

(** C4, amended: for every Added body line the emitted line is a span that
    marks it as added, and the base cursor does not move.  With a supplied
    annotation (a dict that is not empty) the span has the classes
    [added-line pr-annotated] and a title made of the annotation's number
    and escaped title; without one it is the plain span of class
    [added-line].  In neither case is it the line a base line is emitted
    as. *)
Theorem added_line_emission
    (base_lines out : list string) (idx : Z) (a : option Single.annotation)
    (content : string) :
  let escaped := Py.html_escape content in
  Single.body_line base_lines a (out, idx) (String "+" content)
  = (out ++ [Single.added_line a escaped], idx)
  ∧ Single.added_line a escaped
    = match Single.supplied a with
      | Some d =>
          "<span class=" +:+ Single.q +:+ "added-line pr-annotated" +:+ Single.q
            +:+ " title=" +:+ Single.q +:+ "PR #" +:+ default "N/A" (Single.ann_number d)
            +:+ ": " +:+ Py.html_escape (default "Unknown PR" (Single.ann_title d))
            +:+ Single.q +:+ ">" +:+ escaped +:+ "</span>"
      | None =>
          "<span class=" +:+ Single.q +:+ "added-line" +:+ Single.q +:+ ">"
            +:+ escaped +:+ "</span>"
      end
  ∧ ∀ t, Single.added_line a escaped ≠ Single.base_line t.
Proof.
  intros escaped. split; [reflexivity|]. split.
  - unfold Single.added_line. by destruct (Single.supplied a).
  - intros t Heq. unfold Single.base_line, Single.added_line in Heq.
    symmetry in Heq. destruct (Single.supplied a); simpl in Heq;
      by apply html_escape_not_tag in Heq.
Qed.

(** ** The scan of the patch lines *)

Section Scan.

Lemma is_header_nonempty line : is_header line = true → ∃ c r, line = String c r.
Proof. destruct line as [|c r]; [done|]. by exists c, r. Qed.

Lemma single_close st : Single.close st = Single.hunk_sections st ++ flush (single_cur st).
Proof.
  unfold Single.close, single_cur.
  destruct (Single.current_hunk_header st), (Single.current_hunk_body st);
    simpl; by rewrite ?app_nil_r.
Qed.

Lemma single_scan_from lines st :
  (Single.current_hunk_header st = None ↔ Single.current_hunk_body st = None) →
  Single.close (fold_left Single.scan_line lines st)
  = Single.hunk_sections st ++ sections_from (single_cur st) lines.
Proof.
  revert st. induction lines as [|line lines IH]; intros st Hwf.
  { apply single_close. }
  cbn [fold_left sections_from]. unfold Single.scan_line at 2. fold (is_header line).
  destruct (is_header line).
  - rewrite IH by done. cbn [Single.hunk_sections]. rewrite single_close.
    by rewrite <- app_assoc.
  - destruct st as [secs [h|] [b|]]; cbn [Single.current_hunk_body] in *.
    + destruct (is_body_line line); by rewrite IH.
    + destruct Hwf as [_ Hwf]. by specialize (Hwf eq_refl).
    + destruct Hwf as [Hwf _]. by specialize (Hwf eq_refl).
    + by rewrite IH.
Qed.

Lemma single_scan_patch lines : Single.scan_patch lines = sections_from None lines.
Proof. unfold Single.scan_patch. by rewrite single_scan_from. Qed.

Lemma merge_close st :
  merge_wf st → Merge.close st = Merge.hunk_sections st ++ flush (merge_cur st).
Proof.
  unfold Merge.close, merge_cur, merge_wf.
  destruct (Merge.current_hunk_header st) as [h|]; [|by rewrite app_nil_r].
  by intros (c & r & ->).
Qed.

Lemma merge_scan_from lines st :
  merge_wf st →
  Merge.close (fold_left Merge.scan_line lines st)
  = Merge.hunk_sections st ++ sections_from (merge_cur st) lines.
Proof.
  revert st. induction lines as [|line lines IH]; intros st Hwf.
  { by apply merge_close. }
  cbn [fold_left sections_from]. unfold Merge.scan_line at 2. fold (is_header line).
  destruct (is_header line) eqn:Hh.
  - rewrite IH by (by apply is_header_nonempty). cbn [Merge.hunk_sections].
    rewrite merge_close by done. by rewrite <- app_assoc.
  - destruct st as [secs [h|] b]; unfold merge_wf in Hwf;
      cbn [Merge.current_hunk_header] in *.
    + destruct Hwf as (c & r & ->). cbn [Merge.truthy].
      destruct (is_body_line line); rewrite IH; by try (eexists _, _).
    + by rewrite IH.
Qed.

(** The two functions split a patch into the same hunk sections. *)
Lemma merge_scan_patch lines : Merge.scan_patch lines = Single.scan_patch lines.
Proof.
  rewrite single_scan_patch. unfold Merge.scan_patch.
  by rewrite merge_scan_from.
Qed.

(** The headers of the sections are the lines that start with [@@], in
    the order of the text. *)
Lemma sections_from_headers cur lines :
  (sections_from cur lines).*1 = (flush cur).*1 ++ filter (λ l, is_header l = true) lines.
Proof.
  revert cur. induction lines as [|line lines IH]; intros cur.
  { simpl. by rewrite app_nil_r. }
  cbn [sections_from]. destruct (is_header line) eqn:Hh.
  - rewrite fmap_app, IH, filter_cons_True by done. done.
  - rewrite IH, filter_cons_False by (by rewrite Hh).
    destruct cur as [[h b]|]; [|done]. by destruct (is_body_line line).
Qed.

(** A text behind which a hunk can start: the end of the patch, or a
    header line. *)
Lemma sections_from_app cur lines1 lines2 :
  starts_hunk lines2 →
  sections_from cur (lines1 ++ lines2)
  = sections_from cur lines1 ++ sections_from None lines2.
Proof.
  intros Hstart. revert cur. induction lines1 as [|l lines1 IH]; intros cur.
  - cbn [app]. destruct lines2 as [|h t]; cbn [sections_from flush].
    + by rewrite app_nil_r.
    + unfold starts_hunk in Hstart. by rewrite Hstart.
  - cbn [app sections_from]. destruct (is_header l); [|apply IH].
    by rewrite IH, app_assoc.
Qed.

Lemma sections_from_body h b body :
  Forall (λ l, is_header l = false) body →
  sections_from (Some (h, b)) body = [(h, b ++ filter (λ l, is_body_line l = true) body)].
Proof.
  intros Hbody. revert b. induction Hbody as [|l body Hl _ IH]; intros b.
  { cbn [sections_from flush]. by rewrite app_nil_r. }
  cbn [sections_from]. rewrite Hl. destruct (is_body_line l) eqn:Hb.
  - rewrite IH, filter_cons_True by done. by rewrite <- app_assoc.
  - rewrite IH, filter_cons_False by (by rewrite Hb). done.
Qed.

(** A hunk in the text: its header, the lines up to the next header, of
    which the body lines are kept. *)
Lemma scan_patch_hunk before h body rest :
  is_header h = true →
  Forall (λ l, is_header l = false) body →
  starts_hunk rest →
  Single.scan_patch (before ++ h :: body ++ rest)
  = Single.scan_patch before
      ++ (h, filter (λ l, is_body_line l = true) body) :: Single.scan_patch rest.
Proof.
  intros Hh Hbody Hrest. rewrite !single_scan_patch.
  rewrite (sections_from_app None before (h :: body ++ rest)) by exact Hh.
  f_equal. cbn [sections_from]. rewrite Hh. cbn [flush app].
  by rewrite (sections_from_app _ body rest Hrest), sections_from_body.
Qed.

Lemma scan_patch_app before rest :
  starts_hunk rest →
  Single.scan_patch (before ++ rest) = Single.scan_patch before ++ Single.scan_patch rest.
Proof. intros Hrest. rewrite !single_scan_patch. by apply sections_from_app. Qed.

End Scan.

(** ** Lines and escaping *)

Section Lines.

Lemma string_app_nil_r (s : string) : s +:+ EmptyString = s.
Proof. induction s as [|c s IH]; [done|]. exact (f_equal (String c) IH). Qed.

Lemma splitlines_nil s : Py.splitlines s = [] → s = EmptyString.
Proof.
  destruct s as [|c r]; [done|]. simpl.
  destruct (Py.is_linebreak c); [done|]. by destruct (Py.splitlines r).
Qed.

(** A text without line boundary in front of [t] joins the first line
    of [t]. *)
Lemma splitlines_prefix c p t :
  no_break (String c p) = true →
  Py.splitlines (String c p +:+ t)
  = match Py.splitlines t with
    | [] => [String c p]
    | l :: ls => (String c p +:+ l) :: ls
    end.
Proof.
  revert c. induction p as [|c' p IH]; intros c Hnb.
  - simpl in *. destruct (Py.is_linebreak c); [done|]. done.
  - cbn [no_break] in Hnb. apply andb_prop in Hnb as [Hc Hp].
    change (String c (String c' p) +:+ t) with (String c (String c' p +:+ t)).
    cbn [Py.splitlines]. destruct (Py.is_linebreak c); [done|].
    fold Py.splitlines. rewrite (IH c' Hp). by destruct (Py.splitlines t).
Qed.

Lemma escape_char_break c :
  Py.is_linebreak c = true → Py.escape_char c = String c EmptyString.
Proof.
  intros Hc. unfold Py.escape_char.
  repeat match goal with
  | |- context [Ascii.eqb c ?d] =>
      destruct (Ascii.eqb_spec c d) as [->|_]; [vm_compute in Hc; discriminate|]
  end.
  done.
Qed.

Lemma escape_char_no_break c :
  Py.is_linebreak c = false →
  ∃ c' p, Py.escape_char c = String c' p ∧ no_break (String c' p) = true
          ∧ c' ≠ Py.LF.
Proof.
  intros Hc. unfold Py.escape_char.
  repeat match goal with
  | |- context [Ascii.eqb c ?d] =>
      destruct (Ascii.eqb_spec c d) as [->|_];
        [eexists _, _; split; [reflexivity|]; by vm_compute|]
  end.
  exists c, EmptyString. split; [done|]. simpl. rewrite Hc. split; [done|].
  intros ->. by vm_compute in Hc.
Qed.

(** Escaping keeps the lines: the lines of the escaped text are the
    escaped lines of the text. *)
Lemma splitlines_html_escape s :
  Py.splitlines (Py.html_escape s) = Py.html_escape <$> Py.splitlines s.
Proof.
  remember (String.length s) as n eqn:Hn. revert s Hn.
  induction (lt_wf n) as [n _ IH]. intros s ->.
  destruct s as [|c r]; [done|].
  cbn [Py.html_escape]. destruct (Py.is_linebreak c) eqn:Hc.
  - rewrite (escape_char_break c Hc).
    change (String c EmptyString +:+ Py.html_escape r)
      with (String c (Py.html_escape r)).
    cbn [Py.splitlines]. rewrite Hc. cbn [fmap list_fmap Py.html_escape]. f_equal.
    destruct r as [|c' r']; [done|]. cbn [Py.html_escape].
    destruct (Py.is_linebreak c') eqn:Hc'.
    + rewrite (escape_char_break c' Hc').
      change (String c' EmptyString +:+ Py.html_escape r')
        with (String c' (Py.html_escape r')).
      cbv beta iota.
      destruct (Ascii.eqb c Py.CR && Ascii.eqb c' Py.LF).
      * eapply IH; [|done]. simpl. lia.
      * transitivity (Py.splitlines (Py.html_escape (String c' r'))).
        { cbn [Py.html_escape]. by rewrite (escape_char_break c' Hc'). }
        eapply IH; [|done]. simpl. lia.
    + destruct (escape_char_no_break c' Hc') as (c'' & p & Hesc & _ & Hlf).
      assert (Hne : c' ≠ Py.LF) by (intros ->; by vm_compute in Hc').
      assert (Ascii.eqb c' Py.LF = false) as -> by by apply Ascii.eqb_neq.
      rewrite andb_false_r.
      rewrite Hesc.
      change (String c'' p +:+ Py.html_escape r')
        with (String c'' (p +:+ Py.html_escape r')).
      cbv beta iota.
      assert (Ascii.eqb c'' Py.LF = false) as -> by by apply Ascii.eqb_neq.
      rewrite andb_false_r.
      transitivity (Py.splitlines (Py.html_escape (String c' r'))).
      { cbn [Py.html_escape]. by rewrite Hesc. }
      eapply IH; [|done]. simpl. lia.
  - destruct (escape_char_no_break c Hc) as (c'' & p & Hesc & Hnb & _).
    rewrite Hesc, (splitlines_prefix c'' p _ Hnb), <- Hesc.
    rewrite (IH (String.length r)) by (simpl; lia || done).
    cbn [Py.splitlines]. rewrite Hc.
    destruct (Py.splitlines r); [|done].
    cbn [fmap list_fmap Py.html_escape]. by rewrite string_app_nil_r.
Qed.

End Lines.

(** ** Hunk sections whose header does not match *)

Section Skipped.

Lemma single_hunks_app bl a st l1 l2 :
  Single.hunks bl a st (l1 ++ l2)
  = Single.hunks bl a st l1 ≫= λ st', Single.hunks bl a st' l2.
Proof.
  revert st. induction l1 as [|s l1 IH]; intros st; [done|].
  cbn [app Single.hunks]. destruct (Single.hunk bl a st s) as [st'|]; [|done].
  cbn [mbind option_bind]. apply IH.
Qed.

Lemma single_hunk_skipped bl a st h b :
  Re.search h = None → Single.hunk bl a st (h, b) = Some st.
Proof. intros Hh. unfold Single.hunk. by rewrite Hh. Qed.

Lemma single_hunks_skipped bl a st sections :
  Forall (λ s, Re.search s.1 = None) sections →
  Single.hunks bl a st sections = Some st.
Proof.
  induction 1 as [|[h b] sections Hh _ IH]; [done|].
  cbn [Single.hunks]. by rewrite (single_hunk_skipped bl a st h b Hh).
Qed.

Lemma merge_hunk_skipped det m h b :
  Re.search h = None → Merge.hunk det m (h, b) = m.
Proof. intros Hh. unfold Merge.hunk. by rewrite Hh. Qed.

End Skipped.

(** C5: the hunk parser has no failure: the scan of the lines and the
    header match are total functions without an error value, and both
    functions scan alike.  Every line that starts with [@@] opens one hunk
    section, in the order of the text; a section whose header does not match
    the expected form contributes nothing, its body lines included, and
    the sections before and behind it are processed as if it were not
    there, in single-patch reconstruction and in the interleaved view: the
    result is the one for the text without that header and the lines up to
    the next header. *)
Theorem unparseable_header_dropped
    (lines base_lines : list string) (a : option Single.annotation)
    (st : Single.state) (details : Merge.pr_details) (m : Merge.additions)
    (pre post : list (string * list string)) (h : string) (b : list string)
    (before body rest : list string) :
  Re.search h = None →
  (Single.scan_patch lines).*1 = filter (λ l, is_header l = true) lines
  ∧ Merge.scan_patch lines = Single.scan_patch lines
  ∧ Single.hunks base_lines a st (pre ++ (h, b) :: post)
    = Single.hunks base_lines a st (pre ++ post)
  ∧ fold_left (Merge.hunk details) (pre ++ (h, b) :: post) m
    = fold_left (Merge.hunk details) (pre ++ post) m
  ∧ (is_header h = true → Forall (λ l, is_header l = false) body → starts_hunk rest →
     Single.hunks base_lines a st (Single.scan_patch (before ++ h :: body ++ rest))
     = Single.hunks base_lines a st (Single.scan_patch (before ++ rest))
     ∧ fold_left (Merge.hunk details) (Merge.scan_patch (before ++ h :: body ++ rest)) m
       = fold_left (Merge.hunk details) (Merge.scan_patch (before ++ rest)) m).
Proof.
  intros Hh.
  assert (Hsingle : ∀ pre b post,
    Single.hunks base_lines a st (pre ++ (h, b) :: post)
    = Single.hunks base_lines a st (pre ++ post)).
  { intros pre' b' post'. rewrite !single_hunks_app.
    destruct (Single.hunks base_lines a st pre') as [st'|]; [|done].
    cbn [mbind option_bind Single.hunks].
    by rewrite (single_hunk_skipped base_lines a st' h b' Hh). }
  assert (Hmerge : ∀ pre b post,
    fold_left (Merge.hunk details) (pre ++ (h, b) :: post) m
    = fold_left (Merge.hunk details) (pre ++ post) m).
  { intros pre' b' post'. rewrite !fold_left_app. cbn [fold_left].
    by rewrite (merge_hunk_skipped details _ h b' Hh). }
  split; [|split; [|split; [|split; [|split]]]].
  - by rewrite single_scan_patch, sections_from_headers.
  - apply merge_scan_patch.
  - apply Hsingle.
  - apply Hmerge.
  - rewrite (scan_patch_hunk before h body rest), (scan_patch_app before rest) by done.
    apply Hsingle.
  - rewrite !merge_scan_patch.
    rewrite (scan_patch_hunk before h body rest), (scan_patch_app before rest) by done.
    apply Hmerge.
Qed.

Lemma unparseable_header_dropped_witness :
  (Single.scan_patch ["@@ -1 +1 @@"; "+a"; "@@ bad @@"; "+b"; "@@ -2 +3 @@"; "+c"]).*1
  = ["@@ -1 +1 @@"; "@@ bad @@"; "@@ -2 +3 @@"]
  ∧ Single.hunks ["x"; "y"] None ([], 0)
      ([("@@ -1 +1 @@", ["+a"])] ++ ("@@ bad @@", ["+b"]) :: [("@@ -2 +3 @@", ["+c"])])
    = Single.hunks ["x"; "y"] None ([], 0)
        ([("@@ -1 +1 @@", ["+a"])] ++ [("@@ -2 +3 @@", ["+c"])])
  ∧ Single.hunks ["x"; "y"] None ([], 0)
      (Single.scan_patch
         (["@@ -1 +1 @@"; "+a"] ++ "@@ bad @@" :: ["+b"] ++ ["@@ -2 +3 @@"; "+c"]))
    = Single.hunks ["x"; "y"] None ([], 0)
        (Single.scan_patch (["@@ -1 +1 @@"; "+a"] ++ ["@@ -2 +3 @@"; "+c"])).
Proof.
  pose proof (unparseable_header_dropped
    ["@@ -1 +1 @@"; "+a"; "@@ bad @@"; "+b"; "@@ -2 +3 @@"; "+c"]
    ["x"; "y"] None ([], 0)
    (Merge.details_of "1" (pr_with "")) ∅
    [("@@ -1 +1 @@", ["+a"])] [("@@ -2 +3 @@", ["+c"])] "@@ bad @@" ["+b"]
    ["@@ -1 +1 @@"; "+a"] ["+b"] ["@@ -2 +3 @@"; "+c"]
    eq_refl) as (H1 & _ & H3 & _ & H5).
  split; [exact H1|]. split; [exact H3|].
  refine (proj1 (H5 eq_refl _ eq_refl)).
  apply Forall_cons_2; [reflexivity | apply Forall_nil_2].
Defined.

(** C6: reconstruction with a patch that has no hunk gives the base back.
    For every base and annotation, when the patch text is absent, empty,
    has no [@@] line, or has only hunk sections with unparseable headers,
    the loop emits exactly the base lines, each as a base line, in order;
    the function returns without raising, with the escaped base text where
    there is no hunk section and with the joined escaped base lines
    otherwise; and the lines of the escaped base text are the escaped base
    lines. *)
Theorem identity_on_empty_patch
    (base_content_str patch_string : option string) (a : option Single.annotation) :
  no_hunk patch_string →
  let base := default EmptyString base_content_str in
  let base_lines := Py.splitlines base in
  let sections :=
    match patch_string with
    | Some p => Single.scan_patch (Py.splitlines p)
    | None => []
    end in
  Single.patched_lines base_lines sections a = Some (Single.base_line <$> base_lines)
  ∧ Single.apply_patch_to_content base_content_str patch_string a
    = Some (match sections with
            | [] => Py.html_escape base
            | _ :: _ => Py.join nl (Single.base_line <$> base_lines)
            end)
  ∧ Py.splitlines (Py.html_escape base) = Single.base_line <$> base_lines.
Proof.
  intros Hno base base_lines sections.
  assert (Hskip : Forall (λ s, Re.search s.1 = None) sections).
  { subst sections. destruct patch_string; [exact Hno | constructor]. }
  assert (Hlines : Single.patched_lines base_lines sections a
                   = Some (Single.base_line <$> base_lines)).
  { unfold Single.patched_lines.
    rewrite (single_hunks_skipped base_lines a ([], 0) sections Hskip).
    cbn [mbind option_bind]. rewrite tail_in_base.
    - done.
    - unfold in_base. simpl. pose proof (len_nonneg base_lines). lia. }
  split; [exact Hlines|]. split; [|apply splitlines_html_escape].
  unfold Single.apply_patch_to_content. subst sections base_lines base.
  destruct patch_string as [[|c p]|].
  - by destruct base_content_str as [[|]|].
  - cbv zeta. destruct (Single.scan_patch _) as [|s secs].
    + by destruct (Single.is_only_no_newline_meta _ _).
    + by rewrite Hlines.
  - by destruct base_content_str as [[|]|].
Qed.

Lemma identity_on_empty_patch_witness :
  Single.apply_patch_to_content (Some ("a<b" +:+ nl +:+ "c"))
    (Some ("diff --git a/f b/f" +:+ nl +:+ "Binary files differ")) None
  = Some ("a&lt;b" +:+ nl +:+ "c")
  ∧ Single.apply_patch_to_content (Some ("a<b" +:+ nl +:+ "c"))
      (Some ("@@ garbled @@" +:+ nl +:+ "+x")) None
    = Some ("a&lt;b" +:+ nl +:+ "c").
Proof.
  split.
  - refine (proj1 (proj2 (identity_on_empty_patch (Some ("a<b" +:+ nl +:+ "c"))
      (Some ("diff --git a/f b/f" +:+ nl +:+ "Binary files differ")) None _))).
    exact (Forall_nil_2 _).
  - refine (proj1 (proj2 (identity_on_empty_patch (Some ("a<b" +:+ nl +:+ "c"))
      (Some ("@@ garbled @@" +:+ nl +:+ "+x")) None _))).
    change (Forall (λ s, Re.search s.1 = None) [("@@ garbled @@", ["+x"])]).
    apply Forall_cons_2; [reflexivity | apply Forall_nil_2].
Defined.

(** ** The additions map of the interleaved view *)

Section Additions.

Lemma add_all_app m l1 l2 : add_all m (l1 ++ l2) = add_all (add_all m l1) l2.
Proof. apply fold_left_app. Qed.

Lemma at_key_append k k' o m :
  Merge.at_key (Merge.append_at k' o m) k
  = Merge.at_key m k ++ (if bool_decide (k' = k) then [o] else []).
Proof.
  unfold Merge.at_key, Merge.append_at. case_bool_decide as Hk.
  - subst. rewrite lookup_insert_eq. done.
  - rewrite lookup_insert_ne by done. by rewrite app_nil_r.
Qed.

Lemma at_key_add_all k l m :
  Merge.at_key (add_all m l) k = Merge.at_key m k ++ keyed_at k l.
Proof.
  revert m. induction l as [|[k' o] l IH]; intros m.
  { by rewrite app_nil_r. }
  change (add_all m ((k', o) :: l)) with (add_all (Merge.append_at k' o m) l).
  rewrite IH, at_key_append. unfold keyed_at. rewrite <- app_assoc. f_equal.
  case_bool_decide.
  - by rewrite filter_cons_True.
  - by rewrite filter_cons_False.
Qed.

Lemma merge_body_additions details target body m offset :
  (fold_left (Merge.body_line details target) body (m, offset)).1
  = add_all m (body_additions details target offset body).
Proof.
  revert m offset. induction body as [|l body IH]; intros m offset; [done|].
  cbn [fold_left body_additions]. unfold Merge.body_line at 2.
  destruct (Py.startswith l "+"); [by rewrite IH|].
  destruct (Py.startswith l "-"); [by rewrite IH|].
  destruct (Py.startswith l " "); by rewrite IH.
Qed.

Lemma merge_hunk_additions details m section :
  Merge.hunk details m section = add_all m (hunk_additions details section).
Proof.
  destruct section as [h b]. unfold Merge.hunk, hunk_additions. cbn [fst snd].
  destruct (Re.search h); [apply merge_body_additions | done].
Qed.

Lemma merge_hunks_additions details sections m :
  fold_left (Merge.hunk details) sections m
  = add_all m (flat_map (hunk_additions details) sections).
Proof.
  revert m. induction sections as [|s sections IH]; intros m; [done|].
  cbn [fold_left flat_map]. by rewrite IH, merge_hunk_additions, add_all_app.
Qed.

Lemma pull_request_additions m k d :
  Merge.pull_request m k d = add_all m (pr_additions k d).
Proof.
  unfold Merge.pull_request, pr_additions.
  destruct (Merge.patch d) as [[|c p]|]; [done| |done].
  apply merge_hunks_additions.
Qed.

Lemma dict_get_is_Some {V} (d : list (string * V)) k :
  k ∈ d.*1 → is_Some (Merge.dict_get d k).
Proof.
  induction d as [|[k' v] d IH]; [by intros ?%elem_of_nil|].
  cbn [fmap list_fmap fst Merge.dict_get]. intros [->|Hin]%elem_of_cons.
  - by rewrite bool_decide_eq_true_2.
  - case_bool_decide; [done | by apply IH].
Qed.

Lemma dict_get_elem {V} (d : list (string * V)) k v :
  NoDup d.*1 → (k, v) ∈ d → Merge.dict_get d k = Some v.
Proof.
  induction d as [|[k' v'] d IH]; [by intros _ ?%elem_of_nil|].
  cbn [fmap list_fmap fst Merge.dict_get]. intros [Hk' Hnd]%NoDup_cons.
  intros [[= -> ->]|Hin]%elem_of_cons.
  - by rewrite bool_decide_eq_true_2.
  - case_bool_decide as Hk; [|by apply IH]. subst.
    destruct Hk'. apply (list_elem_of_fmap_2 fst) in Hin. exact Hin.
Qed.

Lemma pull_requests_additions d sorted m :
  sorted ⊆ d.*1 →
  Merge.pull_requests d m sorted = Some (add_all m (all_additions d sorted)).
Proof.
  revert m. induction sorted as [|k sorted IH]; intros m Hsub; [done|].
  cbn [Merge.pull_requests all_additions flat_map].
  destruct (dict_get_is_Some d k) as [x Hx]; [apply Hsub; left|].
  rewrite Hx. cbn [mbind option_bind].
  rewrite IH by (intros y Hy; apply Hsub; by right).
  by rewrite pull_request_additions, add_all_app.
Qed.

End Additions.

(** ** The order of the pull requests *)

Section Sorted.

Lemma insert_by_key_perm x l : Merge.insert_by_key x l ≡ₚ x :: l.
Proof.
  induction l as [|y l IH]; [done|]. cbn [Merge.insert_by_key].
  case_bool_decide; [done|]. rewrite IH. apply Permutation_swap.
Qed.

Lemma sort_by_key_perm l : Merge.sort_by_key l ≡ₚ l.
Proof.
  induction l as [|x l IH]; [done|]. cbn [Merge.sort_by_key foldr].
  fold (Merge.sort_by_key l). by rewrite insert_by_key_perm, IH.
Qed.

Lemma insert_by_key_sorted x l :
  StronglySorted key_le l → StronglySorted key_le (Merge.insert_by_key x l).
Proof.
  induction 1 as [|y l Hl IH Hy]; cbn [Merge.insert_by_key].
  { repeat constructor. }
  case_bool_decide as Hxy.
  - constructor; [by constructor|]. constructor; [done|].
    eapply Forall_impl; [exact Hy|]. unfold key_le. intros z Hz. lia.
  - constructor; [done|]. rewrite insert_by_key_perm. constructor; [|done].
    unfold key_le. lia.
Qed.

Lemma sort_by_key_sorted l : StronglySorted key_le (Merge.sort_by_key l).
Proof.
  induction l as [|x l IH]; [constructor|]. by apply insert_by_key_sorted.
Qed.

(** The keyed list [sorted] works on, when every key parses. *)
Lemma keyed_fmap (keys : list string) :
  Forall (λ k, is_Some (Py.int k)) keys →
  mapM (λ k, z ← Py.int k; Some (z, k)) keys
  = Some (keyed <$> keys).
Proof.
  induction 1 as [|k keys [z Hz] _ IH]; [done|].
  cbn [mapM fmap list_fmap]. rewrite Hz, IH. unfold keyed. by rewrite Hz.
Qed.

Lemma sorted_pr_numbers_parse d :
  keys_parse d →
  Merge.sorted_pr_numbers d
  = Some (Merge.sort_by_key (keyed <$> d.*1)).*2.
Proof.
  intros Hp. unfold Merge.sorted_pr_numbers. by rewrite (keyed_fmap _ Hp).
Qed.

Lemma sorted_pr_numbers_fail d :
  ¬ keys_parse d → Merge.sorted_pr_numbers d = None.
Proof.
  intros Hp. unfold Merge.sorted_pr_numbers.
  destruct (mapM _ d.*1) as [ks|] eqn:Hk; [|done].
  destruct Hp. apply mapM_Some_1 in Hk. unfold keys_parse.
  induction Hk as [|k p keys ks Hkp _ IH]; constructor; [|done].
  destruct (Py.int k); [by eexists | done].
Qed.

Lemma sorted_keys_perm (keys : list string) :
  (Merge.sort_by_key (keyed <$> keys)).*2 ≡ₚ keys.
Proof.
  rewrite sort_by_key_perm, <- list_fmap_compose.
  rewrite (list_fmap_ext _ id keys); [by rewrite list_fmap_id | done].
Qed.

(** With keys that parse the function returns, and what it returns is
    the base interleaved with the listed additions of the pull
    requests in sorted order. *)
Lemma generate_returns base d :
  keys_parse d →
  ∃ sorted,
    Merge.sorted_pr_numbers d = Some sorted
    ∧ sorted ≡ₚ d.*1
    ∧ Merge.generate_interleaved_lines_for_all_prs base d
      = Some (Merge.emit (add_all ∅ (all_additions d sorted))
                (Py.splitlines (default EmptyString base))).
Proof.
  intros Hp. eexists. split; [by apply sorted_pr_numbers_parse|].
  split; [apply sorted_keys_perm|].
  unfold Merge.generate_interleaved_lines_for_all_prs.
  rewrite (sorted_pr_numbers_parse d Hp). cbn [mbind option_bind].
  rewrite pull_requests_additions; [done|].
  intros k Hk. by rewrite sorted_keys_perm in Hk.
Qed.

End Sorted.

(** ** What the interleaved view emits *)

Section Emit.

Lemma body_additions_added details target offset body :
  Forall (λ p, is_added p.2) (body_additions details target offset body).
Proof.
  revert offset. induction body as [|l body IH]; intros offset; [constructor|].
  cbn [body_additions].
  destruct (Py.startswith l "+"); [by constructor|].
  destruct (Py.startswith l "-"); [done|].
  by destruct (Py.startswith l " ").
Qed.

Lemma pr_additions_added k x : Forall (λ p, is_added p.2) (pr_additions k x).
Proof.
  unfold pr_additions. destruct (Merge.patch x) as [[|c p]|]; [constructor| |constructor].
  apply Forall_flat_map, Forall_forall. intros s _. unfold hunk_additions.
  destruct (Re.search s.1); [apply body_additions_added | constructor].
Qed.

Lemma all_additions_added d sorted : Forall (λ p, is_added p.2) (all_additions d sorted).
Proof.
  unfold all_additions. apply Forall_flat_map, Forall_forall. intros k _.
  destruct (Merge.dict_get d k); [apply pr_additions_added | constructor].
Qed.

Lemma keyed_at_added k l :
  Forall (λ p, is_added p.2) l → Forall is_added (keyed_at k l).
Proof.
  rewrite !Forall_forall. intros Hl o. unfold keyed_at.
  intros ([k' o'] & -> & [_ Hin]%list_elem_of_filter)%list_elem_of_fmap.
  by apply (Hl (k', o')).
Qed.

Lemma at_key_empty k : Merge.at_key ∅ k = [].
Proof. unfold Merge.at_key. by rewrite lookup_empty. Qed.

Lemma at_key_listed k l : Merge.at_key (add_all ∅ l) k = keyed_at k l.
Proof. by rewrite at_key_add_all, at_key_empty. Qed.

(** The loop over the base lines as a list: every base line with the
    additions of its index behind it. *)
Lemma emit_from_imap m i base_lines :
  Merge.emit_from m i base_lines
  = mjoin (imap (λ n b, Merge.base_obj b :: Merge.at_key m (i + Z.of_nat n)) base_lines).
Proof.
  revert i. induction base_lines as [|b base_lines IH]; intros i; [done|].
  cbn [Merge.emit_from imap mjoin list_join]. rewrite IH.
  replace (i + Z.of_nat 0) with i by lia. cbn [app]. do 3 f_equal.
  apply imap_ext. intros n x _. cbn. do 2 f_equal. lia.
Qed.




End Emit.



(** C1, at an input where the code loses an Added line: a patch that
    appends a line behind the last base line keys it at [len(base)], a key
    the emission loop never reaches.  The patch has one Added line; the
    result has the three base lines only, so its length is 3 and not
    3 + 1. *)
Theorem appended_line_is_lost :
  let base := "a" +:+ nl +:+ "b" +:+ nl +:+ "c" in
  let p := pr_with ("@@ -1,3 +1,4 @@" +:+ nl +:+ " a" +:+ nl +:+ " b" +:+ nl
                      +:+ " c" +:+ nl +:+ "+d") in
  pr_additions "7" p = [(3, Merge.LineObj "d" Merge.added (Some (Merge.details_of "7" p)))]
  ∧ Merge.generate_interleaved_lines_for_all_prs (Some base) [("7", p)]
    = Some [Merge.base_obj "a"; Merge.base_obj "b"; Merge.base_obj "c"].
Proof. vm_compute. split; reflexivity. Qed.

(** C2, the claim as stated fails: a hunk whose header has
    [old_start = 0] and whose body has a context line before the Added
    line keys the Added line at 0, and it is emitted behind the first base
    line. *)
Lemma sentinel_after_context_counterexample :
  old_start_1based <$> Re.search "@@ -0,0 +1,2 @@" = Some 0
  ∧ Merge.generate_interleaved_lines_for_all_prs (Some "a")
      [("1", pr_with ("@@ -0,0 +1,2 @@" +:+ nl +:+ " a" +:+ nl +:+ "+x"))]
    = Some [Merge.base_obj "a";
            Merge.LineObj "x" Merge.added (Some (Merge.details_of "1" (pr_with "")))].
Proof. vm_compute. split; reflexivity. Qed.

Lemma elem_of_flat_map {A B} (f : A → list B) (l : list A) (y : B) :
  y ∈ flat_map f l ↔ ∃ x, y ∈ f x ∧ x ∈ l.
Proof.
  induction l as [|a l IH]; cbn [flat_map].
  - split; [by intros ?%elem_of_nil | by intros (x & _ & ?%elem_of_nil)].
  - rewrite elem_of_app, IH. split.
    + intros [Hy|(x & Hy & Hx)]; [exists a | exists x]; split; by try constructor.
    + intros (x & Hy & [->|Hx]%elem_of_cons); [by left | right; by exists x].
Qed.

Lemma body_additions_first details target offset pre content post :
  Forall (λ l, Py.startswith l "-" = false ∧ Py.startswith l " " = false) pre →
  (target + offset,
   Merge.LineObj (Py.html_escape content) Merge.added (Some details))
  ∈ body_additions details target offset (pre ++ String "+" content :: post).
Proof.
  induction 1 as [|l pre [Hm Hs] _ IH].
  - cbn [app body_additions]. change (Py.startswith (String "+" content) "+") with true.
    left.
  - cbn [app body_additions]. rewrite Hm, Hs.
    destruct (Py.startswith l "+"); [right|]; exact IH.
Qed.

(** C2, amended: for every merge input whose keys [int] accepts, an Added
    line of a hunk whose header has [old_start = 0] appears in the merged
    output before every base line, provided no Context or Removed line
    stands before it in its hunk body: the output splits at the line
    object into a part before it that holds added lines only, and the
    rest. *)
Theorem sentinel_additions_first
    (base_content_str : option string) (d : Merge.prs)
    (k : string) (x : Merge.pr_data) (c : ascii) (p h : string) (g : Re.groups)
    (pre post : list string) (content : string) :
  keys_parse d →
  NoDup d.*1 →
  (k, x) ∈ d →
  Merge.patch x = Some (String c p) →
  (h, pre ++ String "+" content :: post) ∈ Merge.scan_patch (Py.splitlines (String c p)) →
  Re.search h = Some g →
  old_start_1based g = 0 →
  Forall (λ l, Py.startswith l "-" = false ∧ Py.startswith l " " = false) pre →
  ∃ l1 l2,
    Merge.generate_interleaved_lines_for_all_prs base_content_str d
    = Some (l1 ++ Merge.LineObj (Py.html_escape content) Merge.added
                    (Some (Merge.details_of k x)) :: l2)
    ∧ Forall (λ o, Merge.type o = Merge.added) l1.
Proof.
  intros Hp Hnd Hkx Hpatch Hsec Hh Hos Hpre.
  destruct (generate_returns base_content_str d Hp) as (sorted & _ & Hperm & ->).
  set (o := Merge.LineObj _ _ _).
  assert (Hin : (-1, o) ∈ all_additions d sorted).
  { unfold all_additions. apply elem_of_flat_map. exists k. split.
    - rewrite (dict_get_elem d k x Hnd Hkx). unfold pr_additions. rewrite Hpatch.
      apply elem_of_flat_map. eexists. split; [|exact Hsec].
      unfold hunk_additions. cbn [fst snd]. rewrite Hh, Hos.
      apply (body_additions_first _ (-1) 0 pre content post Hpre).
    - rewrite Hperm. by apply (list_elem_of_fmap_2 fst) in Hkx. }
  assert (Hat : o ∈ keyed_at (-1) (all_additions d sorted)).
  { unfold keyed_at. apply (list_elem_of_fmap_2 snd (_ : list (Z * Merge.line_obj)) (-1, o)).
    by apply list_elem_of_filter. }
  apply list_elem_of_split in Hat as (l1 & l2 & Hsplit).
  exists l1, (l2 ++ Merge.emit_from (add_all ∅ (all_additions d sorted)) 0
                     (Py.splitlines (default EmptyString base_content_str))).
  split.
  - unfold Merge.emit. rewrite at_key_listed, Hsplit. by rewrite <- app_assoc.
  - pose proof (keyed_at_added (-1) _ (all_additions_added d sorted)) as Hadd.
    rewrite Hsplit in Hadd. by apply Forall_app in Hadd as [Hadd _].
Qed.

Lemma sentinel_additions_first_witness :
  ∃ l1 l2,
    Merge.generate_interleaved_lines_for_all_prs (Some "x")
      [("1", pr_with ("@@ -0,0 +1,2 @@" +:+ nl +:+ "+p" +:+ nl +:+ "+q"))]
    = Some (l1 ++ Merge.LineObj (Py.html_escape "q") Merge.added
                    (Some (Merge.details_of "1"
                       (pr_with ("@@ -0,0 +1,2 @@" +:+ nl +:+ "+p" +:+ nl +:+ "+q")))) :: l2)
    ∧ Forall (λ o, Merge.type o = Merge.added) l1.
Proof.
  apply (sentinel_additions_first (Some "x")
    [("1", pr_with ("@@ -0,0 +1,2 @@" +:+ nl +:+ "+p" +:+ nl +:+ "+q"))]
    "1" (pr_with ("@@ -0,0 +1,2 @@" +:+ nl +:+ "+p" +:+ nl +:+ "+q"))
    "@" ("@ -0,0 +1,2 @@" +:+ nl +:+ "+p" +:+ nl +:+ "+q") "@@ -0,0 +1,2 @@"
    (Re.Groups "0" (Some "0") "1" (Some "2")) ["+p"] [] "q").
  - unfold keys_parse. simpl. apply Forall_cons_2; [by eexists | apply Forall_nil_2].
  - simpl. apply NoDup_singleton.
  - apply list_elem_of_singleton. reflexivity.
  - reflexivity.
  - apply list_elem_of_singleton. reflexivity.
  - reflexivity.
  - reflexivity.
  - apply Forall_cons_2; [split; reflexivity | apply Forall_nil_2].
Defined.

(** ** Ties between pull requests *)

Section Ties.





Lemma fmap_NoDup_inj {A B} (f : A → B) (l : list A) x y :
  NoDup (f <$> l) → x ∈ l → y ∈ l → f x = f y → x = y.
Proof.
  induction l as [|a l IH]; [by intros _ ?%elem_of_nil|].
  cbn [fmap list_fmap]. intros [Ha Hnd]%NoDup_cons.
  intros [->|Hx]%elem_of_cons [->|Hy]%elem_of_cons Hf; [done| | |by apply IH].
  - destruct Ha. rewrite Hf. by apply list_elem_of_fmap_2.
  - destruct Ha. rewrite <- Hf. by apply list_elem_of_fmap_2.
Qed.

(** With keys that denote different numbers, the sorted keys do not
    depend on the order of the mapping. *)
Lemma sort_by_key_perm_invariant (keys keys' : list string) :
  Forall (λ k, is_Some (Py.int k)) keys →
  NoDup (Py.int <$> keys) →
  keys' ≡ₚ keys →
  Merge.sort_by_key (keyed <$> keys')
  = Merge.sort_by_key (keyed <$> keys).
Proof.
  intros Hp Hnd Hperm.
  apply (StronglySorted_unique_strong key_le); [|apply sort_by_key_sorted..|].
  - intros x1 x2. rewrite !sort_by_key_perm, Hperm.
    intros (k1 & -> & Hk1)%list_elem_of_fmap (k2 & -> & Hk2)%list_elem_of_fmap.
    unfold key_le, keyed. cbn [fst]. intros H1 H2.
    rewrite Forall_forall in Hp.
    destruct (Hp k1 Hk1) as [z1 Hz1], (Hp k2 Hk2) as [z2 Hz2].
    rewrite Hz1, Hz2 in H1, H2. unfold default, id in H1, H2.
    assert (k1 = k2) as ->; [|done].
    apply (fmap_NoDup_inj Py.int keys); [done..|]. rewrite Hz1, Hz2. f_equal. lia.
  - by rewrite !sort_by_key_perm, Hperm.
Qed.

Lemma dict_get_None {V} (d : list (string * V)) k :
  k ∉ d.*1 → Merge.dict_get d k = None.
Proof.
  induction d as [|[k' v] d IH]; [done|].
  cbn [fmap list_fmap fst Merge.dict_get]. intros Hk.
  rewrite bool_decide_eq_false_2 by (intros ->; apply Hk; left).
  apply IH. intros Hin. apply Hk. by right.
Qed.

Lemma dict_get_perm {V} (d d' : list (string * V)) k :
  NoDup d.*1 → d' ≡ₚ d → Merge.dict_get d' k = Merge.dict_get d k.
Proof.
  intros Hnd Hperm.
  assert (Hnd' : NoDup d'.*1) by by rewrite Hperm.
  destruct (decide (k ∈ d.*1)) as [Hk|Hk].
  - apply list_elem_of_fmap in Hk as ([k' v] & -> & Hin). cbn [fst].
    rewrite (dict_get_elem d k' v Hnd Hin).
    apply dict_get_elem; [done|]. by rewrite Hperm.
  - rewrite (dict_get_None d k Hk). apply dict_get_None. by rewrite Hperm.
Qed.

Lemma pull_requests_ext d d' m sorted :
  (∀ k, Merge.dict_get d' k = Merge.dict_get d k) →
  Merge.pull_requests d' m sorted = Merge.pull_requests d m sorted.
Proof.
  intros Hget. revert m. induction sorted as [|k sorted IH]; intros m; [done|].
  cbn [Merge.pull_requests]. rewrite Hget.
  destruct (Merge.dict_get d k); [apply IH | done].
Qed.

Lemma generate_perm_invariant base d d' :
  NoDup d.*1 → distinct_numbers d → d' ≡ₚ d →
  Merge.generate_interleaved_lines_for_all_prs base d'
  = Merge.generate_interleaved_lines_for_all_prs base d.
Proof.
  intros Hnd Hdist Hperm. unfold Merge.generate_interleaved_lines_for_all_prs.
  assert (Hsorted : Merge.sorted_pr_numbers d' = Merge.sorted_pr_numbers d).
  { destruct (decide (Forall (λ k, is_Some (Py.int k)) d.*1)) as [Hp|Hp].
    - rewrite (sorted_pr_numbers_parse d Hp).
      rewrite (sorted_pr_numbers_parse d') by (unfold keys_parse; by rewrite Hperm).
      by rewrite (sort_by_key_perm_invariant d.*1 d'.*1 Hp Hdist) by by rewrite Hperm.
    - rewrite (sorted_pr_numbers_fail d Hp).
      apply sorted_pr_numbers_fail. unfold keys_parse. by rewrite Hperm. }
  rewrite Hsorted. destruct (Merge.sorted_pr_numbers d) as [sorted|]; [|done].
  cbn [mbind option_bind].
  by rewrite (pull_requests_ext d d' ∅ sorted (λ k, dict_get_perm d d' k Hnd Hperm)).
Qed.

End Ties.



(** The output of that mapping, line by line: the line of source "1"
    stands before the line of source "2", in front of the base line. *)
Example ties_in_the_output :
  Merge.generate_interleaved_lines_for_all_prs (Some "x")
    [("2", pr_with ("@@ -0,0 +1 @@" +:+ nl +:+ "+q"));
     ("1", pr_with ("@@ -0,0 +1 @@" +:+ nl +:+ "+p"))]
  = Some [Merge.LineObj "p" Merge.added
            (Some (Merge.details_of "1" (pr_with ("@@ -0,0 +1 @@" +:+ nl +:+ "+p"))));
          Merge.LineObj "q" Merge.added
            (Some (Merge.details_of "2" (pr_with ("@@ -0,0 +1 @@" +:+ nl +:+ "+q"))));
          Merge.base_obj "x"].
Proof. vm_compute. reflexivity. Qed.

(** When two keys denote the same number their order in the mapping
    decides, so the hypothesis on the numbers cannot be dropped. *)
Example tie_of_equal_numbers :
  let a := pr_with ("@@ -0,0 +1 @@" +:+ nl +:+ "+p") in
  let b := pr_with ("@@ -0,0 +1 @@" +:+ nl +:+ "+q") in
  Merge.generate_interleaved_lines_for_all_prs (Some "x") [("1", a); ("01", b)]
  ≠ Merge.generate_interleaved_lines_for_all_prs (Some "x") [("01", b); ("1", a)].
Proof. vm_compute. discriminate. Qed.

(** ** What is read of a hunk header *)

Section HeaderFields.

Lemma same_old_start_header l1 l2 :
  same_old_start l1 l2 → is_header l1 = is_header l2.
Proof. intros [->|(-> & -> & _)]; done. Qed.

Lemma flush_same c1 c2 :
  option_Forall2 same_section c1 c2 → Forall2 same_section (flush c1) (flush c2).
Proof.
  intros [x y H|]; cbn [flush]; [|constructor].
  constructor; [exact H | constructor].
Qed.

Lemma sections_from_same c1 c2 lines1 lines2 :
  option_Forall2 same_section c1 c2 →
  Forall2 same_old_start lines1 lines2 →
  Forall2 same_section (sections_from c1 lines1) (sections_from c2 lines2).
Proof.
  intros Hc Hlines. revert c1 c2 Hc.
  induction Hlines as [|l1 l2 lines1 lines2 Hl _ IH]; intros c1 c2 Hc.
  { cbn [sections_from]. apply flush_same, Hc. }
  cbn [sections_from]. rewrite <- (same_old_start_header l1 l2 Hl).
  destruct (is_header l1) eqn:Hh.
  - apply Forall2_app.
    + apply flush_same, Hc.
    + apply IH. constructor. split; [done|]. cbn [fst].
      destruct Hl as [->|(_ & _ & g1 & g2 & -> & -> & Hos)]; [done|].
      cbn [fmap option_fmap option_map]. by rewrite Hos.
  - destruct Hl as [->|(Hh1 & _)]; [|congruence].
    apply IH. destruct Hc as [[h1 b1] [h2 b2] [Hb Hos]|]; [|constructor].
    cbn [fst snd] in *. subst b2.
    destruct (is_body_line l2); constructor; by split.
Qed.

Lemma scan_patch_same lines1 lines2 :
  Forall2 same_old_start lines1 lines2 →
  Forall2 same_section (Single.scan_patch lines1) (Single.scan_patch lines2).
Proof.
  intros Hlines. rewrite !single_scan_patch.
  apply sections_from_same; [constructor | done].
Qed.

Lemma single_hunk_same base_lines a st s1 s2 :
  same_section s1 s2 →
  Single.hunk base_lines a st s1 = Single.hunk base_lines a st s2.
Proof.
  destruct s1 as [h1 b1], s2 as [h2 b2]. intros [Hb Hos]. cbn [fst snd] in *.
  subst b2. unfold Single.hunk.
  destruct (Re.search h1) as [g1|], (Re.search h2) as [g2|]; try done.
  cbn [fmap option_fmap option_map] in Hos. injection Hos as Hos. by rewrite Hos.
Qed.

Lemma single_hunks_same base_lines a sections1 sections2 st :
  Forall2 same_section sections1 sections2 →
  Single.hunks base_lines a st sections1 = Single.hunks base_lines a st sections2.
Proof.
  intros Hs. revert st. induction Hs as [|s1 s2 l1 l2 Hs _ IH]; intros st; [done|].
  cbn [Single.hunks]. rewrite (single_hunk_same base_lines a st s1 s2 Hs).
  destruct (Single.hunk base_lines a st s2); [apply IH | done].
Qed.

Lemma hunk_additions_same details s1 s2 :
  same_section s1 s2 → hunk_additions details s1 = hunk_additions details s2.
Proof.
  intros [Hb Hos]. unfold hunk_additions. rewrite Hb.
  destruct (Re.search s1.1) as [g1|], (Re.search s2.1) as [g2|]; try done.
  cbn [fmap option_fmap option_map] in Hos. injection Hos as Hos. by rewrite Hos.
Qed.

Lemma pr_additions_same k x1 x2 :
  same_entry (k, x1) (k, x2) → pr_additions k x1 = pr_additions k x2.
Proof.
  intros (_ & Ht & Hu & Hl & Hp). cbn [fst snd] in *.
  unfold pr_additions, same_patch in *.
  assert (Hdet : Merge.details_of k x1 = Merge.details_of k x2).
  { unfold Merge.details_of. by rewrite Ht, Hu, Hl. }
  destruct (Merge.patch x1) as [p1|], (Merge.patch x2) as [p2|]; try done.
  assert (Hsec := scan_patch_same _ _ Hp). rewrite <- !merge_scan_patch in Hsec.
  destruct p1 as [|c1 p1], p2 as [|c2 p2].
  - done.
  - apply Forall2_nil_inv_l in Hp. by apply splitlines_nil in Hp.
  - apply Forall2_nil_inv_r in Hp. by apply splitlines_nil in Hp.
  - rewrite Hdet. clear Hp. induction Hsec as [|s1 s2 l1 l2 Hs _ IH]; [done|].
    cbn [flat_map]. by rewrite IH, (hunk_additions_same _ s1 s2 Hs).
Qed.

Lemma dict_get_same d1 d2 k :
  Forall2 same_entry d1 d2 →
  option_Forall2 (λ x1 x2, same_entry (k, x1) (k, x2))
    (Merge.dict_get d1 k) (Merge.dict_get d2 k).
Proof.
  induction 1 as [|[k1 x1] [k2 x2] d1 d2 He _ IH]; [constructor|].
  cbn [Merge.dict_get]. pose proof He as (Hk & Hrest). cbn [fst snd] in *. subst k2.
  case_bool_decide; [|done]. subst k1. constructor. by split.
Qed.

Lemma pull_requests_same d1 d2 sorted m :
  Forall2 same_entry d1 d2 →
  Merge.pull_requests d1 m sorted = Merge.pull_requests d2 m sorted.
Proof.
  intros Hd. revert m. induction sorted as [|k sorted IH]; intros m; [done|].
  cbn [Merge.pull_requests].
  destruct (dict_get_same d1 d2 k Hd) as [x1 x2 Hx|]; [|done].
  cbn [mbind option_bind].
  by rewrite !pull_request_additions, (pr_additions_same k x1 x2 Hx).
Qed.

Lemma keys_same d1 d2 : Forall2 same_entry d1 d2 → d1.*1 = d2.*1.
Proof.
  induction 1 as [|e1 e2 d1 d2 (Hk & _) _ IH]; [done|].
  cbn [fmap list_fmap]. by rewrite Hk, IH.
Qed.

End HeaderFields.

(** C10: of a hunk header both functions read [old_start] only.  Two
    patches whose lines are equal except for header lines that both match
    and agree on [old_start] (so that they may differ in [old_count],
    [new_start], [new_count] and in what follows the header) give the same
    single-patch reconstruction, for every base and annotation; and two
    mappings whose entries agree in key, title and links and have such
    patches give the same interleaved view. *)
Theorem only_old_start_is_read
    (base_content_str p1 p2 : option string) (a : option Single.annotation)
    (d1 d2 : Merge.prs) :
  same_patch p1 p2 →
  Forall2 same_entry d1 d2 →
  Single.apply_patch_to_content base_content_str p1 a
  = Single.apply_patch_to_content base_content_str p2 a
  ∧ Merge.generate_interleaved_lines_for_all_prs base_content_str d1
    = Merge.generate_interleaved_lines_for_all_prs base_content_str d2.
Proof.
  intros Hp Hd. split.
  - unfold Single.apply_patch_to_content, same_patch in *.
    destruct p1 as [p1|], p2 as [p2|]; try done.
    assert (Hsec := scan_patch_same _ _ Hp).
    destruct p1 as [|c1 p1], p2 as [|c2 p2].
    + done.
    + apply Forall2_nil_inv_l in Hp. by apply splitlines_nil in Hp.
    + apply Forall2_nil_inv_r in Hp. by apply splitlines_nil in Hp.
    + cbv zeta. unfold Single.patched_lines.
      rewrite (single_hunks_same _ a _ _ ([], 0) Hsec).
      destruct Hsec as [|s1 s2 l1 l2 _ _]; [|done].
      by do 2 destruct (Single.is_only_no_newline_meta _ _).
  - unfold Merge.generate_interleaved_lines_for_all_prs, Merge.sorted_pr_numbers.
    rewrite (keys_same d1 d2 Hd).
    destruct (mapM _ d2.*1) as [ks|]; [|done]. cbn [mbind option_bind].
    by rewrite (pull_requests_same d1 d2 _ ∅ Hd).
Qed.

Lemma only_old_start_is_read_witness :
  let p1 := "@@ -2,1 +2,2 @@" +:+ nl +:+ " b" +:+ nl +:+ "+x" in
  let p2 := "@@ -2,7 +9,4 @@ def f():" +:+ nl +:+ " b" +:+ nl +:+ "+x" in
  let base := Some ("a" +:+ nl +:+ "b" +:+ nl +:+ "c") in
  Single.apply_patch_to_content base (Some p1) None
  = Single.apply_patch_to_content base (Some p2) None
  ∧ Merge.generate_interleaved_lines_for_all_prs base [("1", pr_with p1)]
    = Merge.generate_interleaved_lines_for_all_prs base [("1", pr_with p2)].
Proof.
  intros p1 p2 base.
  assert (Hp : same_patch (Some p1) (Some p2)).
  { change (Forall2 same_old_start ["@@ -2,1 +2,2 @@"; " b"; "+x"]
              ["@@ -2,7 +9,4 @@ def f():"; " b"; "+x"]).
    apply Forall2_cons_2.
    - right. split; [reflexivity|]. split; [reflexivity|].
      exists (Re.Groups "2" (Some "1") "2" (Some "2")), (Re.Groups "2" (Some "7") "9" (Some "4")).
      split; [reflexivity|]. split; reflexivity.
    - apply Forall2_cons_2; [left; reflexivity|].
      apply Forall2_cons_2; [left; reflexivity|]. apply Forall2_nil_2. }
  apply (only_old_start_is_read base (Some p1) (Some p2) None
           [("1", pr_with p1)] [("1", pr_with p2)] Hp).
  apply Forall2_cons_2; [|apply Forall2_nil_2].
  split; [reflexivity|]. split; [reflexivity|]. split; [reflexivity|].
  split; [reflexivity|]. exact Hp.
Defined.

(** ** Which additions reach the output *)

Section Reach.

Lemma flat_map_app_perm {A B} (f g : A → list B) (l : list A) :
  flat_map (λ x, f x ++ g x) l ≡ₚ flat_map f l ++ flat_map g l.
Proof.
  induction l as [|x l IH]; [done|]. cbn [flat_map]. rewrite IH.
  rewrite <- !app_assoc. f_equiv. rewrite !app_assoc. f_equiv.
  apply Permutation_app_comm.
Qed.

Lemma flat_map_single (z a b : Z) (o : Merge.line_obj) :
  flat_map (λ k, if bool_decide (z = k) then [o] else []) (range a b)
  = if bool_decide (a ≤ z < b) then [o] else [].
Proof.
  remember (Z.to_nat (b - a)) as n eqn:Hn. revert a Hn.
  induction n as [|n IH]; intros a Hn.
  - rewrite range_empty by lia. by rewrite bool_decide_eq_false_2 by lia.
  - rewrite range_cons by lia. cbn [flat_map]. rewrite (IH (a + 1)) by lia.
    repeat case_bool_decide; try done; lia.
Qed.

Lemma keyed_at_cons k p l :
  keyed_at k (p :: l) = (if bool_decide (p.1 = k) then [p.2] else []) ++ keyed_at k l.
Proof.
  unfold keyed_at. case_bool_decide.
  - by rewrite filter_cons_True.
  - by rewrite filter_cons_False.
Qed.

(** The additions under the keys [a .. b-1] are the listed additions
    with a key in that range. *)
Lemma keyed_range l a b :
  flat_map (λ k, keyed_at k l) (range a b) ≡ₚ (filter (λ p, a ≤ p.1 < b) l).*2.
Proof.
  induction l as [|p l IH].
  - cbn [filter list_filter fmap list_fmap]. induction (range a b) as [|k ks IHk]; done.
  - rewrite (flat_map_ext _ (λ k, (if bool_decide (p.1 = k) then [p.2] else [])
                                   ++ keyed_at k l))
      by (intros k; apply keyed_at_cons).
    rewrite flat_map_app_perm, flat_map_single, IH.
    case_bool_decide.
    + by rewrite filter_cons_True.
    + by rewrite filter_cons_False.
Qed.

Lemma emit_from_perm m i base_lines :
  Merge.emit_from m i base_lines
  ≡ₚ (Merge.base_obj <$> base_lines)
      ++ flat_map (Merge.at_key m) (range i (i + len base_lines)).
Proof.
  revert i. induction base_lines as [|b base_lines IH]; intros i.
  - rewrite range_empty by (unfold len; simpl; lia). done.
  - cbn [Merge.emit_from fmap list_fmap]. rewrite range_cons by (unfold len; simpl; lia).
    cbn [flat_map]. rewrite (IH (i + 1)).
    replace (i + 1 + len base_lines) with (i + len (b :: base_lines))
      by (unfold len; simpl; lia).
    cbn [app]. f_equiv. rewrite !app_assoc. f_equiv. apply Permutation_app_comm.
Qed.

(** The merged output, up to the order of its lines: the base lines and
    the additions keyed from -1 to [len(base_lines) - 1]; an addition
    with a larger key is not in it. *)
Lemma generate_reach base d :
  keys_parse d →
  ∃ sorted out,
    Merge.sorted_pr_numbers d = Some sorted
    ∧ Merge.generate_interleaved_lines_for_all_prs base d = Some out
    ∧ let base_lines := Py.splitlines (default EmptyString base) in
      out ≡ₚ (Merge.base_obj <$> base_lines)
              ++ (filter (λ p, -1 ≤ p.1 < len base_lines) (all_additions d sorted)).*2.
Proof.
  intros Hp. destruct (generate_returns base d Hp) as (sorted & Hs & _ & ->).
  exists sorted. eexists. split; [done|]. split; [done|]. cbv zeta.
  set (bl := Py.splitlines _). set (l := all_additions d sorted).
  unfold Merge.emit. rewrite emit_from_perm.
  rewrite <- keyed_range. rewrite (range_cons (-1)) by (pose proof (len_nonneg bl); lia).
  cbn [flat_map]. rewrite at_key_listed.
  rewrite (flat_map_ext (Merge.at_key (add_all ∅ l)) (λ k, keyed_at k l))
    by (intros k; apply at_key_listed).
  replace (-1 + 1) with 0 by lia. replace (0 + len bl) with (len bl) by lia.
  rewrite !app_assoc. f_equiv. apply Permutation_app_comm.
Qed.

End Reach.

(** ** Patches that fit their base *)

Section Fits.

Lemma body_consumed_nonneg body : 0 ≤ body_consumed body.
Proof.
  induction body as [|l body IH]; cbn [body_consumed]; [done|].
  repeat destruct (Py.startswith l _); lia.
Qed.

(** The walk over a hunk body: what it emits is fixed by the body, and the
    cursor moves by the lines the body passes, stopping at the end of the
    base. *)
Lemma body_walk base_lines a body out idx :
  0 ≤ idx ≤ len base_lines →
  fold_left (Single.body_line base_lines a) body (out, idx)
  = (out ++ body_emitted a body, Z.min (idx + body_consumed body) (len base_lines)).
Proof.
  revert out idx. induction body as [|l body IH]; intros out idx Hidx.
  { cbn [fold_left body_emitted body_consumed]. rewrite app_nil_r. f_equal. lia. }
  pose proof (body_consumed_nonneg body) as Hc.
  cbn [fold_left body_emitted body_consumed]. unfold Single.body_line at 2.
  destruct (Py.startswith l "+").
  { rewrite IH by done. by rewrite <- app_assoc. }
  destruct (Py.startswith l "-").
  { case_bool_decide; rewrite IH by lia; f_equal; lia. }
  destruct (Py.startswith l " ").
  { case_bool_decide; rewrite IH by lia; rewrite <- app_assoc; f_equal; lia. }
  destruct (Py.startswith l Py.backslash); by rewrite IH.
Qed.

Lemma hunk_fits base_lines a out idx h g body :
  Re.search h = Some g →
  0 ≤ idx ≤ old_start_1based g - 1 →
  old_start_1based g - 1 + body_consumed body ≤ len base_lines →
  Single.hunk base_lines a (out, idx) (h, body)
  = Some (out
          ++ (Single.base_line
                <$> take (Z.to_nat (old_start_1based g - 1 - idx))
                      (drop (Z.to_nat idx) base_lines))
          ++ body_emitted a body,
          old_start_1based g - 1 + body_consumed body).
Proof.
  intros Hh Hidx Hlen. pose proof (body_consumed_nonneg body) as Hc.
  unfold Single.hunk. rewrite Hh. unfold Single.enter_hunk.
  set (os := old_start_1based g) in *.
  case_bool_decide as Hgap.
  - rewrite bool_decide_eq_false_2 by lia. rewrite copy_base_slice by lia.
    cbn [mbind option_bind]. rewrite body_walk by lia.
    replace (idx + (os - 1 - idx)) with (os - 1) by lia.
    rewrite <- app_assoc. do 2 f_equal. lia.
  - rewrite bool_decide_eq_false_2 by lia. cbn [mbind option_bind].
    rewrite body_walk by lia. replace (os - 1 - idx) with 0 by lia.
    cbn [Z.to_nat take fmap list_fmap app]. do 2 f_equal. lia.
Qed.

Lemma hunks_fit base_lines a sections hunks out idx :
  parsed_hunks sections = Some hunks →
  0 ≤ idx ≤ len base_lines →
  well_placed base_lines idx hunks →
  Single.hunks base_lines a (out, idx) sections ≫= Single.tail base_lines
  = Some (out ++ applied base_lines a idx hunks).
Proof.
  intros Hparsed%mapM_Some_1. revert out idx.
  induction Hparsed as [|[h b] [os body] sections hunks Hs _ IH]; intros out idx Hidx Hwp.
  - cbn [Single.hunks mbind option_bind applied]. by rewrite tail_in_base.
  - cbn [fst snd] in Hs. destruct (Re.search h) as [g|] eqn:Hh; [|done].
    cbn [mbind option_bind] in Hs. injection Hs as <- <-.
    destruct Hwp as (Hle & Hlen & Hwp). pose proof (body_consumed_nonneg b) as Hc.
    cbn [Single.hunks applied]. rewrite (hunk_fits base_lines a out idx h g b Hh) by lia.
    cbn [mbind option_bind]. rewrite IH by (done || lia). by rewrite <- !app_assoc.
Qed.

(** For a patch whose hunks all parse, come in the order of the base, do
    not overlap and stay inside the base, the reconstruction is the
    application of the patch: the base lines outside the hunks, and in
    place of each hunk's span the context and added lines of its body. *)
Theorem patch_applied
    (base_lines : list string) (sections : list (string * list string))
    (hunks : list (Z * list string)) (a : option Single.annotation) :
  parsed_hunks sections = Some hunks →
  well_placed base_lines 0 hunks →
  Single.patched_lines base_lines sections a = Some (applied base_lines a 0 hunks).
Proof.
  intros Hp Hwp. unfold Single.patched_lines.
  apply (hunks_fit base_lines a sections hunks [] 0 Hp); [|done].
  pose proof (len_nonneg base_lines). lia.
Qed.

Lemma patch_applied_witness :
  Single.patched_lines ["a"; "b"; "c"; "d"]
    [("@@ -2,2 +2,2 @@", [" b"; "-c"; "+x"])] None
  = Some (applied ["a"; "b"; "c"; "d"] None 0 [(2, [" b"; "-c"; "+x"])]).
Proof.
  apply (patch_applied ["a"; "b"; "c"; "d"] [("@@ -2,2 +2,2 @@", [" b"; "-c"; "+x"])]
           [(2, [" b"; "-c"; "+x"])] None).
  - reflexivity.
  - vm_compute. repeat split; discriminate.
Defined.

Lemma body_emitted_length a body :
  len (body_emitted a body) - body_consumed body = added_count body - removed_count body.
Proof.
  unfold added_count, removed_count, len.
  induction body as [|l body IH]; [done|]. cbn [body_emitted body_consumed].
  destruct (Py.startswith l "+") eqn:Hp.
  { rewrite filter_cons_True, filter_cons_False by (by rewrite ?Hp; try intros [? ?]).
    cbn [length]. lia. }
  rewrite (filter_cons_False (λ l, Py.startswith l "+" = true)) by (by rewrite Hp).
  destruct (Py.startswith l "-") eqn:Hm.
  { rewrite filter_cons_True by (by rewrite Hp, Hm). cbn [length]. lia. }
  rewrite filter_cons_False by (rewrite Hm; by intros [? ?]).
  destruct (Py.startswith l " "); cbn [length]; lia.
Qed.

Lemma applied_length base_lines a idx hunks :
  0 ≤ idx →
  well_placed base_lines idx hunks →
  len (applied base_lines a idx hunks) = len base_lines - idx + patch_delta hunks
  ∨ len base_lines < idx.
Proof.
  revert idx. induction hunks as [|[os body] hunks IH]; intros idx Hidx Hwp.
  - cbn [applied patch_delta]. unfold len. rewrite length_fmap, length_drop. lia.
  - destruct Hwp as (Hle & Hlen & Hwp). pose proof (body_consumed_nonneg body) as Hc.
    pose proof (body_emitted_length a body) as Hb.
    left. cbn [applied patch_delta]. unfold len in *.
    rewrite !length_app, length_fmap, length_take, length_drop.
    destruct (IH (os - 1 + body_consumed body)) as [IH'|IH']; [lia|done| |lia].
    unfold len in IH'. lia.
Qed.

(** Length conservation: for such a patch the reconstruction has the
    length of the base plus the Added lines minus the Removed lines. *)
Theorem patch_length
    (base_lines : list string) (sections : list (string * list string))
    (hunks : list (Z * list string)) (a : option Single.annotation) :
  parsed_hunks sections = Some hunks →
  well_placed base_lines 0 hunks →
  ∃ out,
    Single.patched_lines base_lines sections a = Some out
    ∧ len out = len base_lines + patch_delta hunks.
Proof.
  intros Hp Hwp. exists (applied base_lines a 0 hunks). split.
  { unfold Single.patched_lines.
    apply (hunks_fit base_lines a sections hunks [] 0 Hp); [|done].
    pose proof (len_nonneg base_lines). lia. }
  destruct (applied_length base_lines a 0 hunks) as [H|H]; [lia|done| |].
  - lia.
  - pose proof (len_nonneg base_lines). lia.
Qed.

Lemma patch_length_witness :
  ∃ out,
    Single.patched_lines ["a"; "b"; "c"; "d"]
      [("@@ -2,2 +2,3 @@", [" b"; "-c"; "+x"; "+y"])] None = Some out
    ∧ len out = len ["a"; "b"; "c"; "d"] + patch_delta [(2, [" b"; "-c"; "+x"; "+y"])].
Proof.
  apply (patch_length ["a"; "b"; "c"; "d"] [("@@ -2,2 +2,3 @@", [" b"; "-c"; "+x"; "+y"])]
           [(2, [" b"; "-c"; "+x"; "+y"])] None).
  - reflexivity.
  - vm_compute. repeat split; discriminate.
Defined.

End Fits.

(** ** The interleaved view as a whole *)

Section View.

Lemma dict_get_Some_elem {V} (d : list (string * V)) k v :
  Merge.dict_get d k = Some v → (k, v) ∈ d.
Proof.
  induction d as [|[k' v'] d IH]; [done|]. cbn [Merge.dict_get].
  case_bool_decide as Hk; [intros [= ->]; subst; left | intros H; right; by apply IH].
Qed.

Lemma all_additions_entries d0 (d : Merge.prs) :
  (∀ e, e ∈ d → Merge.dict_get d0 e.1 = Some e.2) →
  all_additions d0 d.*1 = flat_map (λ e, pr_additions e.1 e.2) d.
Proof.
  unfold all_additions. induction d as [|e d IH]; intros Hget; [done|].
  cbn [fmap list_fmap flat_map]. rewrite (Hget e) by left.
  f_equal. apply IH. intros e' He'. apply Hget. by right.
Qed.

Lemma all_additions_keys d :
  NoDup d.*1 → all_additions d d.*1 = flat_map (λ e, pr_additions e.1 e.2) d.
Proof.
  intros Hnd. apply all_additions_entries. intros [k x] He. by apply dict_get_elem.
Qed.

Lemma all_additions_perm d s1 s2 : s1 ≡ₚ s2 → all_additions d s1 ≡ₚ all_additions d s2.
Proof.
  intros Hs. unfold all_additions.
  induction Hs as [|k s1 s2 _ IH|k1 k2 s|s1 s2 s3 _ IH1 _ IH2]; cbn [flat_map].
  - done.
  - by rewrite IH.
  - rewrite !app_assoc. f_equiv. apply Permutation_app_comm.
  - by rewrite IH1.
Qed.

Lemma emit_empty base_lines : Merge.emit ∅ base_lines = Merge.base_obj <$> base_lines.
Proof.
  unfold Merge.emit. rewrite at_key_empty. cbn [app].
  generalize 0 as i. induction base_lines as [|b base_lines IH]; intros i; [done|].
  cbn [Merge.emit_from fmap list_fmap]. by rewrite at_key_empty, IH.
Qed.

Lemma pr_additions_no_hunk k x : no_hunk (Merge.patch x) → pr_additions k x = [].
Proof.
  unfold no_hunk, pr_additions. destruct (Merge.patch x) as [[|c p]|]; [done| |done].
  rewrite merge_scan_patch. induction 1 as [|s secs Hs _ IH]; [done|].
  cbn [flat_map]. rewrite IH. unfold hunk_additions. by rewrite Hs.
Qed.

(** The body lines of the sections are lines of the text. *)
Lemma sections_from_lines cur lines s l :
  s ∈ sections_from cur lines → l ∈ s.2 →
  l ∈ lines ∨ ∃ c, cur = Some c ∧ l ∈ c.2.
Proof.
  revert cur. induction lines as [|line lines IH]; intros cur; cbn [sections_from].
  - destruct cur as [c|]; cbn [flush]; [|by intros ?%elem_of_nil].
    intros ->%list_elem_of_singleton Hl. right. by exists c.
  - destruct (is_header line).
    + intros [Hs|Hs]%elem_of_app Hl.
      * destruct cur as [c|]; cbn [flush] in Hs; [|by apply elem_of_nil in Hs].
        apply list_elem_of_singleton in Hs as ->. right. by exists c.
      * destruct (IH _ Hs Hl) as [Hin|(c & [= <-] & Hin)]; [left; by right|].
        by apply elem_of_nil in Hin.
    + intros Hs Hl. destruct (IH _ Hs Hl) as [Hin|(c & Hc & Hin)]; [left; by right|].
      destruct cur as [[h b]|]; [|done].
      destruct (is_body_line line); injection Hc as <-; cbn [snd] in Hin.
      * apply elem_of_app in Hin as [Hin|Hin].
        -- right. by exists (h, b).
        -- apply list_elem_of_singleton in Hin as ->. left. left.
      * right. by exists (h, b).
Qed.

Lemma body_additions_line details target offset body p :
  p ∈ body_additions details target offset body →
  ∃ line, line ∈ body ∧ Py.startswith line "+" = true
          ∧ p.2 = Merge.LineObj (Py.html_escape (Py.tail1 line)) Merge.added (Some details).
Proof.
  revert offset. induction body as [|l body IH]; intros offset; cbn [body_additions].
  { by intros ?%elem_of_nil. }
  destruct (Py.startswith l "+") eqn:Hp.
  - intros [->|Hin]%elem_of_cons.
    + exists l. split; [left|done].
    + destruct (IH _ Hin) as (line & ? & ?). exists line. split; [by right|done].
  - intros Hin.
    assert (∃ o', p ∈ body_additions details target o' body) as [o' Ho'].
    { destruct (Py.startswith l "-"); [by eexists|].
      destruct (Py.startswith l " "); by eexists. }
    destruct (IH _ Ho') as (line & ? & ?). exists line. split; [by right|done].
Qed.

End View.

(** A key that [int] does not accept makes the function raise: the sort
    of the keys by their numbers fails, whatever the base and the other
    entries are. *)
Theorem generate_raises_on_bad_key
    (base_content_str : option string) (d : Merge.prs) (k : string) :
  k ∈ d.*1 →
  Py.int k = None →
  Merge.generate_interleaved_lines_for_all_prs base_content_str d = None.
Proof.
  intros Hk Hint. unfold Merge.generate_interleaved_lines_for_all_prs.
  rewrite (sorted_pr_numbers_fail d); [done|].
  unfold keys_parse. rewrite Forall_forall. intros Hall.
  destruct (Hall k Hk) as [z Hz]. congruence.
Qed.

Lemma generate_raises_on_bad_key_witness :
  Merge.generate_interleaved_lines_for_all_prs (Some "a")
    [("1", pr_with ("@@ -0,0 +1 @@" +:+ nl +:+ "+p"));
     (String (ascii_of_nat 28) "7", pr_with ("@@ -0,0 +1 @@" +:+ nl +:+ "+q"))]
  = None.
Proof.
  apply (generate_raises_on_bad_key (Some "a")
           [("1", pr_with ("@@ -0,0 +1 @@" +:+ nl +:+ "+p"));
            (String (ascii_of_nat 28) "7", pr_with ("@@ -0,0 +1 @@" +:+ nl +:+ "+q"))]
           (String (ascii_of_nat 28) "7")).
  - simpl. apply elem_of_cons. right. apply list_elem_of_singleton. reflexivity.
  - reflexivity.
Defined.

(** The merged output, up to the order of its lines, is the base lines
    together with the Added lines whose insertion key lies between -1 and
    [len(base) - 1]; its length is the number of base lines plus the number
    of those Added lines. *)
Theorem generate_content (base_content_str : option string) (d : Merge.prs) :
  keys_parse d →
  NoDup d.*1 →
  let base_lines := Py.splitlines (default EmptyString base_content_str) in
  let reached :=
    filter (λ p, -1 ≤ p.1 < len base_lines) (flat_map (λ e, pr_additions e.1 e.2) d) in
  ∃ out,
    Merge.generate_interleaved_lines_for_all_prs base_content_str d = Some out
    ∧ out ≡ₚ (Merge.base_obj <$> base_lines) ++ reached.*2
    ∧ len out = len base_lines + len reached.
Proof.
  intros Hp Hnd base_lines reached.
  destruct (generate_reach base_content_str d Hp) as (sorted & out & Hs & Hout & Hperm).
  cbv zeta in Hperm. fold base_lines in Hperm.
  assert (Hsorted : sorted ≡ₚ d.*1).
  { rewrite (sorted_pr_numbers_parse d Hp) in Hs. injection Hs as <-.
    apply sorted_keys_perm. }
  assert (Hout' : out ≡ₚ (Merge.base_obj <$> base_lines) ++ reached.*2).
  { rewrite Hperm. f_equiv. subst reached. rewrite <- (all_additions_keys d Hnd).
    by rewrite (all_additions_perm d sorted d.*1 Hsorted). }
  exists out. split; [done|]. split; [done|].
  unfold len. rewrite Hout', length_app, !length_fmap. lia.
Qed.

Lemma generate_content_witness :
  let d := [("7", pr_with ("@@ -1,2 +1,3 @@" +:+ nl +:+ " a" +:+ nl +:+ "+x" +:+ nl
                            +:+ " b" +:+ nl +:+ "+y"))] in
  let base_lines := Py.splitlines (default EmptyString (Some ("a" +:+ nl +:+ "b"))) in
  let reached :=
    filter (λ p, -1 ≤ p.1 < len base_lines) (flat_map (λ e, pr_additions e.1 e.2) d) in
  ∃ out,
    Merge.generate_interleaved_lines_for_all_prs (Some ("a" +:+ nl +:+ "b")) d = Some out
    ∧ out ≡ₚ (Merge.base_obj <$> base_lines) ++ reached.*2
    ∧ len out = len base_lines + len reached.
Proof.
  intros d. apply (generate_content (Some ("a" +:+ nl +:+ "b")) d).
  - unfold keys_parse. simpl. apply Forall_cons_2; [by eexists | apply Forall_nil_2].
  - simpl. apply NoDup_singleton.
Defined.

(** Pull requests without a hunk leave the base as it is: when every
    entry of the mapping has no patch, an empty patch or a patch without a
    parseable hunk, the result is the base lines and nothing else. *)
Theorem generate_without_hunks (base_content_str : option string) (d : Merge.prs) :
  keys_parse d →
  Forall (λ e, no_hunk (Merge.patch e.2)) d →
  Merge.generate_interleaved_lines_for_all_prs base_content_str d
  = Some (Merge.base_obj <$> Py.splitlines (default EmptyString base_content_str)).
Proof.
  intros Hp Hno.
  destruct (generate_returns base_content_str d Hp) as (sorted & _ & _ & ->).
  assert (Hall : all_additions d sorted = []).
  { unfold all_additions. induction sorted as [|k sorted IH]; [done|].
    cbn [flat_map]. rewrite IH, app_nil_r.
    destruct (Merge.dict_get d k) as [x|] eqn:Hk; [|done].
    apply pr_additions_no_hunk. apply dict_get_Some_elem in Hk.
    rewrite Forall_forall in Hno. apply (Hno (k, x) Hk). }
  rewrite Hall. cbn [add_all fold_left]. by rewrite emit_empty.
Qed.

Lemma generate_without_hunks_witness :
  Merge.generate_interleaved_lines_for_all_prs (Some ("a" +:+ nl +:+ "b"))
    [("3", pr_with ""); ("1", pr_with "Binary files differ")]
  = Some (Merge.base_obj <$> Py.splitlines (default EmptyString (Some ("a" +:+ nl +:+ "b")))).
Proof.
  apply (generate_without_hunks (Some ("a" +:+ nl +:+ "b"))
           [("3", pr_with ""); ("1", pr_with "Binary files differ")]).
  - unfold keys_parse. simpl. repeat (apply Forall_cons_2; [by eexists|]). apply Forall_nil_2.
  - apply Forall_cons_2; [exact (Forall_nil_2 _)|].
    apply Forall_cons_2; [exact (Forall_nil_2 _) | apply Forall_nil_2].
Defined.

(** Where the lines of the merged output come from: a line is a base
    line, escaped, or the escaped text of a line of the patch of one of
    the pull requests that starts with [+], with the details of that pull
    request. *)
Lemma generate_lines_origin (base_content_str : option string) (d : Merge.prs) :
  keys_parse d →
  ∃ out,
    Merge.generate_interleaved_lines_for_all_prs base_content_str d = Some out
    ∧ ∀ o, o ∈ out →
        (∃ b, o = Merge.base_obj b)
        ∨ ∃ k x p line,
            (k, x) ∈ d ∧ Merge.patch x = Some p ∧ line ∈ Py.splitlines p
            ∧ Py.startswith line "+" = true
            ∧ o = Merge.LineObj (Py.html_escape (Py.tail1 line)) Merge.added
                    (Some (Merge.details_of k x)).
Proof.
  intros Hp.
  destruct (generate_reach base_content_str d Hp) as (sorted & out & _ & Hout & Hperm).
  exists out. split; [done|]. intros o Ho. cbv zeta in Hperm.
  rewrite Hperm in Ho. apply elem_of_app in Ho as [Ho|Ho].
  { apply list_elem_of_fmap in Ho as (b & -> & _). left. by exists b. }
  right.
  apply list_elem_of_fmap in Ho as ([key o'] & -> & [_ Ho]%list_elem_of_filter).
  cbn [snd] in *. unfold all_additions in Ho.
  apply elem_of_flat_map in Ho as (k & Ho & _).
  destruct (Merge.dict_get d k) as [x|] eqn:Hk; [|by apply elem_of_nil in Ho].
  apply dict_get_Some_elem in Hk. unfold pr_additions in Ho.
  destruct (Merge.patch x) as [[|c p]|] eqn:Hpatch; try by apply elem_of_nil in Ho.
  apply elem_of_flat_map in Ho as ([h body] & Ho & Hsec).
  unfold hunk_additions in Ho. cbn [fst snd] in Ho.
  destruct (Re.search h); [|by apply elem_of_nil in Ho].
  apply body_additions_line in Ho as (line & Hline & Hplus & Heq). cbn [snd] in Heq.
  exists k, x, (String c p), line. repeat split; try done.
  rewrite merge_scan_patch, single_scan_patch in Hsec.
  destruct (sections_from_lines None _ (h, body) line Hsec Hline) as [Hin|(? & [=] & _)].
  exact Hin.
Qed.

(** Every line of type added in the merged output comes from the mapping:
    it is the escaped text of a line of the patch of one of the pull
    requests that starts with [+], and it carries the details of that pull
    request. *)
Theorem added_lines_provenance (base_content_str : option string) (d : Merge.prs) :
  keys_parse d →
  ∃ out,
    Merge.generate_interleaved_lines_for_all_prs base_content_str d = Some out
    ∧ ∀ o, o ∈ out → Merge.type o = Merge.added →
        ∃ k x p line,
          (k, x) ∈ d ∧ Merge.patch x = Some p ∧ line ∈ Py.splitlines p
          ∧ Py.startswith line "+" = true
          ∧ o = Merge.LineObj (Py.html_escape (Py.tail1 line)) Merge.added
                  (Some (Merge.details_of k x)).
Proof.
  intros Hp. destruct (generate_lines_origin base_content_str d Hp) as (out & Hout & Ho).
  exists out. split; [done|]. intros o Hin Hadded.
  destruct (Ho o Hin) as [[b ->]|H]; [done|exact H].
Qed.

Lemma added_lines_provenance_witness :
  ∃ out,
    Merge.generate_interleaved_lines_for_all_prs (Some "a")
      [("1", pr_with ("@@ -0,0 +1 @@" +:+ nl +:+ "+p"))] = Some out
    ∧ ∀ o, o ∈ out → Merge.type o = Merge.added →
        ∃ k x p line,
          (k, x) ∈ [("1", pr_with ("@@ -0,0 +1 @@" +:+ nl +:+ "+p"))]
          ∧ Merge.patch x = Some p ∧ line ∈ Py.splitlines p
          ∧ Py.startswith line "+" = true
          ∧ o = Merge.LineObj (Py.html_escape (Py.tail1 line)) Merge.added
                  (Some (Merge.details_of k x)).
Proof.
  apply (added_lines_provenance (Some "a") [("1", pr_with ("@@ -0,0 +1 @@" +:+ nl +:+ "+p"))]).
  unfold keys_parse. simpl. apply Forall_cons_2; [by eexists | apply Forall_nil_2].
Defined.

(** What [int] accepts: whitespace around the number, a sign, single
    underscores between digits; and what it raises on. *)
Example int_examples :
  Py.int " 7 " = Some 7
  ∧ Py.int "-12" = Some (-12)
  ∧ Py.int "+007" = Some 7
  ∧ Py.int "1_000" = Some 1000
  ∧ Py.int (String (ascii_of_nat 160) "7" +:+ String (ascii_of_nat 133) "") = Some 7
  ∧ Py.int (String (ascii_of_nat 28) "7") = None
  ∧ Py.int (String "7" (String (ascii_of_nat 31) "")) = None
  ∧ Py.int "1__0" = None
  ∧ Py.int "_1" = None
  ∧ Py.int "1_" = None
  ∧ Py.int "- 7" = None
  ∧ Py.int "1.5" = None
  ∧ Py.int "" = None.
Proof. vm_compute. repeat split; reflexivity. Qed.

Example str_int_examples :
  Py.str_int 0 = "0" ∧ Py.str_int 1205 = "1205" ∧ Py.str_int (-37) = "-37".
Proof. vm_compute. auto. Qed.

(** ** Numbers as texts *)

Section Numbers.

Lemma digit_char_spec d :
  0 ≤ d < 10 →
  Py.is_digit (Py.digit_char d) = true ∧ Py.digit_val (Py.digit_char d) = d
  ∧ Py.is_space (Py.digit_char d) = false.
Proof.
  intros Hd.
  assert (d = 0 ∨ d = 1 ∨ d = 2 ∨ d = 3 ∨ d = 4 ∨ d = 5 ∨ d = 6 ∨ d = 7 ∨ d = 8 ∨ d = 9)
    as Hcases by lia.
  repeat destruct Hcases as [->|Hcases]; try subst d; by vm_compute.
Qed.

Abbreviation digit_value := (λ (acc : Z) (c : ascii), 10 * acc + Py.digit_val c).

Lemma digits_of_spec fuel n :
  0 ≤ n < 2 ^ Z.of_nat fuel → (0 < fuel)%nat →
  Forall (λ c, Py.is_digit c = true ∧ Py.is_space c = false) (Py.digits_of fuel n)
  ∧ Py.digits_of fuel n ≠ []
  ∧ fold_left digit_value (Py.digits_of fuel n) 0 = n.
Proof.
  revert n. induction fuel as [|fuel IH]; intros n Hn Hfuel; [lia|].
  cbn [Py.digits_of]. case_bool_decide as Hlt.
  - destruct (digit_char_spec n) as (H1 & H2 & H3); [lia|].
    split; [by repeat constructor|]. split; [done|]. cbn [fold_left]. lia.
  - assert (Hdiv : 0 ≤ n / 10 < 2 ^ Z.of_nat fuel).
    { split; [apply Z.div_pos; lia|].
      apply Z.div_lt_upper_bound; [lia|].
      replace (Z.of_nat (S fuel)) with (Z.succ (Z.of_nat fuel)) in Hn by lia.
      rewrite Z.pow_succ_r in Hn by lia. lia. }
    assert (Hpos : (0 < fuel)%nat).
    { destruct fuel; [|lia]. assert (1 ≤ n / 10) by (apply Z.div_le_lower_bound; lia).
      simpl in Hdiv. lia. }
    destruct (IH (n / 10) Hdiv Hpos) as (Hall & Hne & Hval).
    destruct (digit_char_spec (n mod 10)) as (H1 & H2 & H3).
    { apply Z.mod_pos_bound. lia. }
    split; [|split].
    + apply Forall_app. split; [done | by repeat constructor].
    + by destruct (Py.digits_of fuel (n / 10)).
    + rewrite fold_left_app. cbn [fold_left]. rewrite Hval, H2.
      pose proof (Z.div_mod n 10). lia.
Qed.

Lemma int_digits_digits b l acc :
  Forall (λ c, Py.is_digit c = true) l → l ≠ [] →
  Py.int_digits b l acc = Some (fold_left digit_value l acc).
Proof.
  intros Hl. revert b acc. induction Hl as [|c l Hc Hl IH]; intros b acc Hne; [done|].
  cbn [Py.int_digits fold_left]. rewrite Hc.
  destruct l as [|c' l']; [done|]. by apply IH.
Qed.

Lemma lstrip_chars_id l :
  match l with c :: _ => Py.is_space c = false | [] => True end →
  Py.lstrip_chars l = l.
Proof. destruct l as [|c l]; [done|]. cbn [Py.lstrip_chars]. by intros ->. Qed.

Lemma strip_chars_id l :
  Forall (λ c, Py.is_space c = false) l → Py.strip_chars l = l.
Proof.
  intros Hl. unfold Py.strip_chars.
  rewrite (lstrip_chars_id l) by (by destruct Hl).
  rewrite lstrip_chars_id; [apply reverse_involutive|].
  assert (Hrev : Forall (λ c, Py.is_space c = false) (reverse l)).
  { by apply Forall_reverse. }
  by destruct Hrev.
Qed.

Lemma log2_bound m : 0 ≤ m → 0 ≤ m < 2 ^ Z.of_nat (S (Z.to_nat (Z.log2 m))).
Proof.
  intros Hm. split; [done|].
  replace (Z.of_nat (S (Z.to_nat (Z.log2 m)))) with (Z.succ (Z.log2 m))
    by (pose proof (Z.log2_nonneg m); lia).
  destruct (decide (m = 0)) as [->|Hne]; [done|].
  apply Z.log2_spec. lia.
Qed.

End Numbers.

(** [int] reads back what [str] writes: for every integer [n],
    [int(str(n))] is [n].  The keys [str(pr_num)] that the caller puts into
    the mapping of the interleaved view are read back by [int] in
    [sorted]. *)
Theorem int_str (n : Z) : Py.int (Py.str_int n) = Some n.
Proof.
  unfold Py.int, Py.str_int. cbv zeta.
  destruct (digits_of_spec (S (Z.to_nat (Z.log2 (Z.abs n)))) (Z.abs n)) as (Hall & Hne & Hval).
  { apply log2_bound. lia. }
  { lia. }
  set (ds := Py.digits_of _ _) in *.
  assert (Hdig : Forall (λ c, Py.is_digit c = true) ds).
  { eapply Forall_impl; [exact Hall|]. by intros c [? _]. }
  assert (Hsp : Forall (λ c, Py.is_space c = false) ds).
  { eapply Forall_impl; [exact Hall|]. by intros c [_ ?]. }
  rewrite String.list_ascii_of_string_of_list_ascii.
  case_bool_decide as Hneg.
  - rewrite strip_chars_id by (by constructor).
    change (Ascii.eqb "-" "+") with false. change (Ascii.eqb "-" "-") with true.
    cbv iota. rewrite (int_digits_digits false ds 0 Hdig Hne), Hval.
    cbn [fmap option_fmap option_map]. f_equal. lia.
  - rewrite strip_chars_id by done.
    destruct ds as [|c ds']; [done|].
    assert (Hc : Py.is_digit c = true) by (by inversion Hdig).
    assert (Ascii.eqb c "+" = false) as ->.
    { apply Ascii.eqb_neq. intros ->. by vm_compute in Hc. }
    assert (Ascii.eqb c "-" = false) as ->.
    { apply Ascii.eqb_neq. intros ->. by vm_compute in Hc. }
    rewrite (int_digits_digits false (c :: ds') 0 Hdig Hne), Hval. f_equal. lia.
Qed.

(** ** The mapping [process_repository] builds *)

Section CallerFacts.

Variable os_path_join : string → string → string.
Variables pulls_dir file_full_path : string.

Lemma str_int_inj (n m : Z) : Py.str_int n = Py.str_int m → n = m.
Proof.
  intros H. apply (f_equal Py.int) in H. rewrite !int_str in H. congruence.
Qed.

Lemma dict_set_keys {V} (k : string) (v : V) (d : list (string * V)) :
  (Caller.dict_set k v d).*1 = if decide (k ∈ d.*1) then d.*1 else d.*1 ++ [k].
Proof.
  induction d as [|[k' v'] d IH]; [done|]. cbn [Caller.dict_set].
  destruct (decide (k' = k)) as [->|Hne].
  - cbn [fmap list_fmap fst]. rewrite decide_True by left. done.
  - cbn [fmap list_fmap fst] in *. rewrite IH.
    destruct (decide (k ∈ d.*1)) as [Hin|Hin].
    + rewrite decide_True by (by right). done.
    + rewrite decide_False; [done|]. intros [?|?]%elem_of_cons; [congruence|done].
Qed.

Lemma dict_set_fresh {V} (k : string) (v : V) (d : list (string * V)) :
  k ∉ d.*1 → Caller.dict_set k v d = d ++ [(k, v)].
Proof.
  induction d as [|[k' v'] d IH]; [done|]. cbn [Caller.dict_set fmap list_fmap fst].
  intros Hin. apply not_elem_of_cons in Hin as [Hne Hin].
  rewrite decide_False by congruence. cbn [app]. f_equal. by apply IH.
Qed.

Lemma dict_set_NoDup {V} (k : string) (v : V) (d : list (string * V)) :
  NoDup d.*1 → NoDup (Caller.dict_set k v d).*1.
Proof.
  intros Hnd. rewrite dict_set_keys. destruct (decide (k ∈ d.*1)); [done|].
  apply NoDup_app. split; [done|]. split; [|apply NoDup_singleton].
  intros x Hx ->%list_elem_of_singleton. done.
Qed.

(** What the loop keeps: the keys are the texts [str] gives, each once. *)
Lemma mapping_keys (prs : list (Z * Caller.pr_detail)) (acc : Merge.prs) :
  Forall (λ k, ∃ n, k = Py.str_int n) acc.*1 → NoDup acc.*1 →
  let d := fold_left (Caller.add_pr os_path_join pulls_dir file_full_path) prs acc in
  Forall (λ k, ∃ n, k = Py.str_int n) d.*1 ∧ NoDup d.*1.
Proof.
  revert acc. induction prs as [|[n x] prs IH]; intros acc Hk Hnd; [done|].
  cbn [fold_left]. apply IH.
  - unfold Caller.add_pr. cbn [fst snd]. destruct (List.find _ _); [|done].
    rewrite dict_set_keys. destruct (decide _); [done|].
    apply Forall_app. split; [done|]. apply Forall_singleton. by exists n.
  - unfold Caller.add_pr. cbn [fst snd]. destruct (List.find _ _); [|done].
    by apply dict_set_NoDup.
Qed.

Lemma str_keys_parse (d : Merge.prs) :
  Forall (λ k, ∃ n, k = Py.str_int n) d.*1 → keys_parse d.
Proof.
  unfold keys_parse. intros H. eapply Forall_impl; [exact H|].
  intros k [n ->]. rewrite int_str. by eexists.
Qed.

Lemma str_keys_distinct (d : Merge.prs) :
  Forall (λ k, ∃ n, k = Py.str_int n) d.*1 → NoDup d.*1 → distinct_numbers d.
Proof.
  intros Hk Hnd. unfold distinct_numbers. apply NoDup_fmap_2_strong; [|done].
  intros k k' Hin Hin' Heq. rewrite Forall_forall in Hk.
  destruct (Hk k Hin) as [n ->]. destruct (Hk k' Hin') as [n' ->].
  rewrite !int_str in Heq. congruence.
Qed.

(** The entry one pull request contributes, if any. *)
Lemma add_pr_fresh (acc : Merge.prs) (item : Z * Caller.pr_detail) :
  Py.str_int item.1 ∉ acc.*1 →
  Caller.add_pr os_path_join pulls_dir file_full_path acc item
  = acc ++ option_list
             ((λ c, (Py.str_int item.1,
                     Caller.interleaved_entry os_path_join pulls_dir item.1 item.2 c))
                <$> List.find (Caller.changes_file file_full_path)
                      (Caller.files_changed item.2)).
Proof.
  intros Hin. unfold Caller.add_pr. destruct (List.find _ _) as [c|]; cbn.
  - by apply dict_set_fresh.
  - by rewrite app_nil_r.
Qed.

Lemma mapping_omap (prs : list (Z * Caller.pr_detail)) (acc : Merge.prs) :
  NoDup (acc.*1 ++ (Py.str_int <$> prs.*1)) →
  fold_left (Caller.add_pr os_path_join pulls_dir file_full_path) prs acc
  = acc ++ omap (λ item,
             (λ c, (Py.str_int item.1,
                    Caller.interleaved_entry os_path_join pulls_dir item.1 item.2 c))
               <$> List.find (Caller.changes_file file_full_path)
                     (Caller.files_changed item.2)) prs.
Proof.
  revert acc. induction prs as [|item prs IH]; intros acc Hnd.
  { by rewrite app_nil_r. }
  cbn [fold_left]. cbn [fmap list_fmap] in Hnd.
  assert (Hfresh : Py.str_int item.1 ∉ acc.*1).
  { apply NoDup_app in Hnd as (_ & Hd & _). intros Hin. apply (Hd _ Hin). left. }
  rewrite (add_pr_fresh acc item Hfresh). rewrite IH.
  - cbn [omap list_omap]. destruct (List.find _ _) as [c|]; cbn.
    + by rewrite <- app_assoc.
    + by rewrite app_nil_r.
  - destruct (List.find _ _) as [c|]; cbn.
    + rewrite fmap_app. cbn. rewrite <- app_assoc. exact Hnd.
    + rewrite app_nil_r. apply NoDup_app in Hnd as (Ha & Hd & Hb).
      apply NoDup_app. split; [done|]. split.
      * intros x Hx Hin. apply (Hd x Hx). by right.
      * by apply NoDup_cons in Hb as [_ ?].
Qed.

Lemma mapping_perm (prs prs' : list (Z * Caller.pr_detail)) :
  NoDup prs.*1 → prs' ≡ₚ prs →
  Caller.all_prs_patches_for_interleaved_view os_path_join pulls_dir file_full_path prs'
  ≡ₚ Caller.all_prs_patches_for_interleaved_view os_path_join pulls_dir file_full_path prs.
Proof.
  intros Hnd Hperm. unfold Caller.all_prs_patches_for_interleaved_view.
  assert (Hstr : ∀ l : list (Z * Caller.pr_detail),
            NoDup l.*1 → NoDup ([] ++ (Py.str_int <$> l.*1))).
  { intros l Hl. cbn [app]. apply NoDup_fmap_2; [|done].
    intros n m. apply str_int_inj. }
  rewrite !mapping_omap by (apply Hstr; by rewrite ?Hperm).
  cbn [app]. by rewrite Hperm.
Qed.

End CallerFacts.

(** Step 4 of [process_repository] never makes the interleaved view fail:
    whatever the pull requests and their file changes are, the keys of
    the mapping it builds are texts [int] accepts, each key is there once
    and no two keys denote the same number, so the call returns and the
    [except] around it is not taken. *)
Theorem interleaved_view_returns
    (os_path_join : string → string → string) (pulls_dir file_full_path : string)
    (content_str : option string) (is_binary : bool)
    (all_pr_details_with_files : list (Z * Caller.pr_detail)) :
  let d := Caller.all_prs_patches_for_interleaved_view os_path_join pulls_dir
             file_full_path all_pr_details_with_files in
  keys_parse d ∧ NoDup d.*1 ∧ distinct_numbers d
  ∧ is_Some (Caller.interleaved_lines_data os_path_join pulls_dir file_full_path
               content_str is_binary all_pr_details_with_files).
Proof.
  intros d.
  destruct (mapping_keys os_path_join pulls_dir file_full_path
              all_pr_details_with_files []) as [Hk Hnd]; [done|apply NoDup_nil_2|].
  fold (Caller.all_prs_patches_for_interleaved_view os_path_join pulls_dir
          file_full_path all_pr_details_with_files) in Hk, Hnd. fold d in Hk, Hnd.
  pose proof (str_keys_parse d Hk) as Hp.
  split; [done|]. split; [done|]. split; [by apply str_keys_distinct|].
  unfold Caller.interleaved_lines_data. fold d.
  destruct (negb is_binary && bool_decide (is_Some content_str)); [|by eexists].
  destruct (generate_returns content_str d Hp) as (sorted & _ & _ & ->). by eexists.
Qed.

(** The interleaved view of a file does not depend on the order in which
    [all_pr_details_with_files] lists the pull requests: the keys of that
    dict are the numbers of the pull requests, and the lines are sorted
    by them. *)
Theorem interleaved_view_order
    (os_path_join : string → string → string) (pulls_dir file_full_path : string)
    (content_str : option string) (is_binary : bool)
    (all_pr_details_with_files reordered : list (Z * Caller.pr_detail)) :
  NoDup all_pr_details_with_files.*1 →
  reordered ≡ₚ all_pr_details_with_files →
  Caller.interleaved_lines_data os_path_join pulls_dir file_full_path content_str is_binary
    reordered
  = Caller.interleaved_lines_data os_path_join pulls_dir file_full_path content_str is_binary
      all_pr_details_with_files.
Proof.
  intros Hnd Hperm. unfold Caller.interleaved_lines_data.
  destruct (negb is_binary && bool_decide (is_Some content_str)); [|done].
  destruct (mapping_keys os_path_join pulls_dir file_full_path
              all_pr_details_with_files []) as [Hk Hnd']; [done|apply NoDup_nil_2|].
  apply generate_perm_invariant; [done|by apply str_keys_distinct|].
  by apply mapping_perm.
Qed.

Lemma interleaved_view_order_witness :
  Caller.interleaved_lines_data Py.path_join "../pulls" "a.txt" (Some ("x" +:+ nl +:+ "y")) false
    [(7, Caller.PrDetail "seven" "u7"
           [Caller.FileChange "a.txt" (Some (Some ("@@ -1 +1,2 @@" +:+ nl +:+ " x" +:+ nl +:+ "+q")))]);
     (12, Caller.PrDetail "twelve" "u12"
           [Caller.FileChange "a.txt" (Some (Some ("@@ -1 +1,2 @@" +:+ nl +:+ " x" +:+ nl +:+ "+p")))])]
  = Caller.interleaved_lines_data Py.path_join "../pulls" "a.txt" (Some ("x" +:+ nl +:+ "y")) false
    [(12, Caller.PrDetail "twelve" "u12"
           [Caller.FileChange "a.txt" (Some (Some ("@@ -1 +1,2 @@" +:+ nl +:+ " x" +:+ nl +:+ "+p")))]);
     (7, Caller.PrDetail "seven" "u7"
           [Caller.FileChange "a.txt" (Some (Some ("@@ -1 +1,2 @@" +:+ nl +:+ " x" +:+ nl +:+ "+q")))])].
Proof.
  apply (interleaved_view_order Py.path_join "../pulls" "a.txt" (Some ("x" +:+ nl +:+ "y")) false).
  - cbn. apply NoDup_cons_2; [|apply NoDup_singleton].
    intros H%list_elem_of_singleton. discriminate.
  - apply Permutation_swap.
Defined.

(** ** The header pattern *)

Section Pattern.

Lemma append_cons a p s : String a p +:+ s = String a (p +:+ s).
Proof. reflexivity. Qed.

Lemma append_assoc (a b c : string) : (a +:+ b) +:+ c = a +:+ (b +:+ c).
Proof.
  induction a as [|x a IH]; [done|]. rewrite !append_cons. by rewrite IH.
Qed.

Lemma lit_app p s : Re.lit p (p +:+ s) = Some s.
Proof.
  induction p as [|a p IH]; [done|]. rewrite append_cons. cbn [Re.lit].
  by rewrite Ascii.eqb_refl.
Qed.

Lemma lit_Some p s r : Re.lit p s = Some r → s = p +:+ r.
Proof.
  revert s. induction p as [|a p IH]; intros s H.
  - cbn in H. by injection H as ->.
  - destruct s as [|b s]; [done|]. cbn [Re.lit] in H.
    destruct (Ascii.eqb_spec a b) as [->|]; [|done].
    rewrite append_cons. f_equal. by apply IH.
Qed.

Lemma digits_split s : s = (Re.digits s).1 +:+ (Re.digits s).2.
Proof.
  induction s as [|c s IH]; [done|]. cbn [Re.digits].
  destruct (Py.is_digit c); [|done]. cbn [fst snd]. rewrite append_cons. by f_equal.
Qed.

Lemma digits_digits s :
  Forall (λ c, Py.is_digit c = true) (String.list_ascii_of_string (Re.digits s).1).
Proof.
  induction s as [|c s IH]; [by constructor|]. cbn [Re.digits].
  destruct (Py.is_digit c) eqn:Hc; [|by constructor]. cbn. by constructor.
Qed.

Lemma digits_rest s : no_digit_head (Re.digits s).2.
Proof.
  induction s as [|c s IH]; [done|]. cbn [Re.digits].
  destruct (Py.is_digit c) eqn:Hc; [done|]. exact Hc.
Qed.

Lemma digits_app d r :
  Forall (λ c, Py.is_digit c = true) (String.list_ascii_of_string d) →
  no_digit_head r →
  Re.digits (d +:+ r) = (d, r).
Proof.
  intros Hd Hr. induction d as [|c d IH].
  - destruct r as [|c r]; [done|]. cbn [no_digit_head] in Hr.
    change (EmptyString +:+ String c r) with (String c r). cbn [Re.digits].
    by rewrite Hr.
  - cbn in Hd. apply Forall_cons in Hd as [Hc Hd]. rewrite append_cons.
    cbn [Re.digits]. rewrite Hc, (IH Hd). done.
Qed.

Lemma digits1_Some s d r :
  Re.digits1 s = Some (d, r) ↔ s = d +:+ r ∧ is_number d ∧ no_digit_head r.
Proof.
  unfold Re.digits1. split.
  - pose proof (digits_split s) as Hs. pose proof (digits_digits s) as Hd.
    pose proof (digits_rest s) as Hr.
    destruct (Re.digits s) as [[|c d'] r']; [done|]. intros [= <- <-].
    cbn [fst snd] in *. done.
  - intros (-> & [Hne Hd] & Hr). rewrite (digits_app d r Hd Hr).
    by destruct d.
Qed.

Lemma opt_count_spec s g r :
  Re.opt_count s = (g, r) →
  s = count_text g +:+ r ∧ from_option is_number True g.
Proof.
  unfold Re.opt_count. destruct (Re.lit "," s) as [s'|] eqn:Hl; cbn [mbind option_bind].
  - apply lit_Some in Hl as ->. destruct (Re.digits1 s') as [[d r']|] eqn:Hd.
    + intros [= <- <-]. apply digits1_Some in Hd as (-> & Hn & _). done.
    + by intros [= <- <-].
  - by intros [= <- <-].
Qed.

(** The optional group in front of a text that starts with a space. *)
Lemma opt_count_app g r :
  from_option is_number True g →
  Re.opt_count (count_text g +:+ String " " r) = (g, String " " r).
Proof.
  intros Hg. unfold Re.opt_count. destruct g as [d|]; cbn [count_text from_option] in *.
  - rewrite append_assoc, lit_app. cbn [mbind option_bind].
    assert (Re.digits1 (d +:+ String " " r) = Some (d, String " " r)) as ->; [|done].
    apply digits1_Some. done.
  - done.
Qed.

Lemma match_here_spec s g :
  Re.match_here s = Some g ↔ (∃ rest, s = header_text g rest) ∧ groups_wf g.
Proof.
  unfold Re.match_here, header_text, groups_wf. split.
  - destruct (Re.lit "@@ -" s) as [s1|] eqn:H1; [|done]. cbn [mbind option_bind].
    destruct (Re.digits1 s1) as [[g1 s2]|] eqn:H2; [|done]. cbn [mbind option_bind].
    destruct (Re.opt_count s2) as [g3 s3] eqn:H3.
    destruct (Re.lit " +" s3) as [s4|] eqn:H4; [|done]. cbn [mbind option_bind].
    destruct (Re.digits1 s4) as [[g4 s5]|] eqn:H5; [|done]. cbn [mbind option_bind].
    destruct (Re.opt_count s5) as [g6 s6] eqn:H6.
    destruct (Re.lit " @@" s6) as [s7|] eqn:H7; [|done]. cbn [mbind option_bind].
    intros [= <-]. cbn [Re.group1 Re.group3 Re.group4 Re.group6].
    apply lit_Some in H1 as ->. apply digits1_Some in H2 as (-> & Hn1 & _).
    apply opt_count_spec in H3 as (-> & Hn3). apply lit_Some in H4 as ->.
    apply digits1_Some in H5 as (-> & Hn4 & _).
    apply opt_count_spec in H6 as (-> & Hn6). apply lit_Some in H7 as ->.
    split; [|done]. by exists s7.
  - destruct g as [g1 g3 g4 g6]. cbn [Re.group1 Re.group3 Re.group4 Re.group6].
    intros [[rest ->] (Hn1 & Hn3 & Hn4 & Hn6)].
    rewrite lit_app. cbn [mbind option_bind].
    assert (Hd : ∀ d g r, is_number d → from_option is_number True g →
              Re.digits1 (d +:+ count_text g +:+ String " " r)
              = Some (d, count_text g +:+ String " " r)).
    { intros d g r Hd Hg. apply digits1_Some. split; [done|]. split; [done|].
      destruct g as [d'|]; done. }
    change (" +" +:+ ?x) with (String " " (String "+" x)).
    change (" @@" +:+ ?x) with (String " " (String "@" (String "@" x))).
    rewrite (Hd g1 g3 _ Hn1 Hn3). cbn [mbind option_bind].
    rewrite (opt_count_app g3 _ Hn3).
    change (Re.lit " +" (String " " (String "+" ?x))) with (Some x).
    cbn [mbind option_bind].
    rewrite (Hd g4 g6 _ Hn4 Hn6). cbn [mbind option_bind].
    rewrite (opt_count_app g6 _ Hn6).
    done.
Qed.

Lemma search_here s g : Re.match_here s = Some g → Re.search s = Some g.
Proof. intros H. destruct s; cbn [Re.search]; by rewrite H. Qed.

Lemma search_skip c s : Re.match_here (String c s) = None → Re.search (String c s) = Re.search s.
Proof. intros H. cbn [Re.search]. by rewrite H. Qed.

End Pattern.

(** [re.search] with the header pattern returns the match at the leftmost
    place of the line where a text of the pattern starts: the groups [g]
    are those of a header text that stands in the line behind [pre], no
    header text starts earlier in the line, and the search fails exactly
    when the line has no header text at all. *)
Theorem search_leftmost (s : string) (g : Re.groups) :
  Re.search s = Some g
  ↔ ∃ pre rest,
      s = pre +:+ header_text g rest ∧ groups_wf g
      ∧ ∀ pre' g' rest',
          groups_wf g' → s = pre' +:+ header_text g' rest' →
          (String.length pre ≤ String.length pre')%nat.
Proof.
  split.
  - induction s as [|c s IH].
    + cbn [Re.search]. destruct (Re.match_here "") as [g0|] eqn:Hm; [|done].
      intros [= ->]. apply match_here_spec in Hm as [[rest Hs] Hwf].
      exists EmptyString, rest. split; [done|]. split; [done|]. intros; cbn; lia.
    + destruct (Re.match_here (String c s)) as [g0|] eqn:Hm.
      * rewrite (search_here _ _ Hm). intros [= ->].
        apply match_here_spec in Hm as [[rest Hs] Hwf].
        exists EmptyString, rest. split; [done|]. split; [done|]. intros; cbn; lia.
      * rewrite (search_skip _ _ Hm). intros Hs.
        destruct (IH Hs) as (pre & rest & -> & Hwf & Hmin).
        exists (String c pre), rest. split; [done|]. split; [done|].
        intros pre' g' rest' Hwf' Heq. destruct pre' as [|c' pre'].
        { change (EmptyString +:+ ?x) with x in Heq.
          assert (Re.match_here (String c (pre +:+ header_text g rest)) = Some g') as Hm'.
          { apply match_here_spec. split; [by exists rest'|done]. }
          congruence. }
        rewrite append_cons in Heq. injection Heq as -> Heq.
        cbn [String.length]. apply le_n_S. by apply (Hmin pre' g' rest').
  - intros (pre & rest & -> & Hwf & Hmin).
    induction pre as [|c pre IH].
    + change (EmptyString +:+ ?x) with x. apply search_here.
      apply match_here_spec. split; [by exists rest|done].
    + rewrite append_cons.
      destruct (Re.match_here (String c (pre +:+ header_text g rest))) as [g0|] eqn:Hm.
      * apply match_here_spec in Hm as [[rest0 Hs] Hwf0].
        specialize (Hmin EmptyString g0 rest0 Hwf0 Hs). cbn in Hmin. lia.
      * rewrite (search_skip _ _ Hm). apply IH.
        intros pre' g' rest' Hwf' Heq.
        specialize (Hmin (String c pre') g' rest' Hwf').
        cbn [String.length] in Hmin. apply le_S_n, Hmin.
        rewrite !append_cons. by f_equal.
Qed.


Lemma str_int_number (n : Z) :
  0 ≤ n → is_number (Py.str_int n) ∧ Py.int_of_digits (Py.str_int n) = n.
Proof.
  intros Hn. unfold is_number, Py.int_of_digits, Py.str_int. cbv zeta.
  rewrite bool_decide_eq_false_2 by lia.
  rewrite String.list_ascii_of_string_of_list_ascii.
  rewrite Z.abs_eq by done.
  destruct (digits_of_spec (S (Z.to_nat (Z.log2 n))) n) as (Hall & Hne & Hval);
    [by apply log2_bound|lia|].
  split; [split|].
  - intros H. apply Hne. apply (f_equal String.list_ascii_of_string) in H.
    by rewrite String.list_ascii_of_string_of_list_ascii in H.
  - eapply Forall_impl; [exact Hall|]. by intros c [? _].
  - exact Hval.
Qed.

(** A hunk header in the notation of a unified diff is read back: for the
    line [@@ -a,b +c,d @@] with the numbers in decimal, with or without the
    counts and whatever follows, the search matches and [old_start] is
    [a]. *)
Theorem header_old_start (a c : Z) (b d : option Z) (rest : string) :
  0 ≤ a → 0 ≤ c → from_option (Z.le 0) True b → from_option (Z.le 0) True d →
  old_start_1based
    <$> Re.search (header_text (Re.Groups (Py.str_int a) (Py.str_int <$> b)
                                  (Py.str_int c) (Py.str_int <$> d)) rest)
  = Some a.
Proof.
  intros Ha Hc Hb Hd.
  rewrite (search_here _ (Re.Groups (Py.str_int a) (Py.str_int <$> b)
                            (Py.str_int c) (Py.str_int <$> d))).
  - cbn [fmap option_fmap option_map]. unfold old_start_1based. cbn [Re.group1].
    f_equal. by apply str_int_number.
  - apply match_here_spec. split; [by exists rest|].
    unfold groups_wf. cbn [Re.group1 Re.group3 Re.group4 Re.group6].
    split; [by apply str_int_number|]. split; [|split; [by apply str_int_number|]].
    + destruct b as [b|]; [|done]. by apply str_int_number.
    + destruct d as [d|]; [|done]. by apply str_int_number.
Qed.

Lemma header_old_start_witness :
  old_start_1based
    <$> Re.search (header_text (Re.Groups (Py.str_int 12) (Py.str_int <$> Some 3)
                                  (Py.str_int 14) (Py.str_int <$> None)) " def f():")
  = Some 12.
Proof.
  apply (header_old_start 12 14 (Some 3) None " def f():"); cbn; lia.
Defined.

Section Escaped.

Lemma list_ascii_app (a b : string) :
  String.list_ascii_of_string (a +:+ b)
  = String.list_ascii_of_string a ++ String.list_ascii_of_string b.
Proof.
  induction a as [|c a IH]; [done|]. rewrite append_cons. cbn. by rewrite IH.
Qed.

Lemma escape_char_escaped c : is_escaped (Py.escape_char c).
Proof.
  unfold Py.escape_char.
  destruct (Ascii.eqb_spec c "&"); [apply (bool_decide_unpack _); by vm_compute|].
  destruct (Ascii.eqb_spec c "<"); [apply (bool_decide_unpack _); by vm_compute|].
  destruct (Ascii.eqb_spec c ">"); [apply (bool_decide_unpack _); by vm_compute|].
  destruct (Ascii.eqb_spec c Py.dquote); [apply (bool_decide_unpack _); by vm_compute|].
  destruct (Ascii.eqb_spec c Py.squote); [apply (bool_decide_unpack _); by vm_compute|].
  unfold is_escaped. cbn. apply Forall_singleton.
  rewrite !not_elem_of_cons. repeat split; try done. apply not_elem_of_nil.
Qed.

Lemma html_escape_escaped s : is_escaped (Py.html_escape s).
Proof.
  induction s as [|c s IH]; [by constructor|]. cbn [Py.html_escape].
  unfold is_escaped. rewrite list_ascii_app. apply Forall_app.
  split; [apply escape_char_escaped | exact IH].
Qed.

End Escaped.

(** The merged output is safe to put into a page: the text of every line,
    base or added, and the title in the details of every added line hold
    none of the characters [<], [>] and the two quotes. *)
Theorem interleaved_text_escaped (base_content_str : option string) (d : Merge.prs) :
  keys_parse d →
  ∃ out,
    Merge.generate_interleaved_lines_for_all_prs base_content_str d = Some out
    ∧ Forall (λ o, is_escaped (Merge.text o)
                   ∧ from_option (λ i, is_escaped (Merge.details_title i)) True
                       (Merge.pr_info o)) out.
Proof.
  intros Hp. destruct (generate_lines_origin base_content_str d Hp) as (out & Hout & Ho).
  exists out. split; [done|]. apply Forall_forall. intros o Hin.
  destruct (Ho o Hin) as [[b ->]|(k & x & p & line & _ & _ & _ & _ & ->)].
  - cbn. split; [apply html_escape_escaped|done].
  - cbn. split; apply html_escape_escaped.
Qed.

Lemma interleaved_text_escaped_witness :
  ∃ out,
    Merge.generate_interleaved_lines_for_all_prs (Some "a<b")
      [("1", pr_with ("@@ -0,0 +1 @@" +:+ nl +:+ "+<p>"))] = Some out
    ∧ Forall (λ o, is_escaped (Merge.text o)
                   ∧ from_option (λ i, is_escaped (Merge.details_title i)) True
                       (Merge.pr_info o)) out.
Proof.
  apply (interleaved_text_escaped (Some "a<b")
           [("1", pr_with ("@@ -0,0 +1 @@" +:+ nl +:+ "+<p>"))]).
  unfold keys_parse. simpl. apply Forall_cons_2; [by eexists | apply Forall_nil_2].
Defined.

(** ** Pull requests that do not touch the file *)

Section Frame.

Lemma with_hunks_keys d0 (d : Merge.prs) :
  (∀ e, e ∈ d → Merge.dict_get d0 e.1 = Some e.2) →
  (with_hunks d).*1 = filter (key_with_hunks d0) d.*1.
Proof.
  unfold with_hunks. induction d as [|e d IH]; intros Hget; [done|].
  assert (He : key_with_hunks d0 e.1 ↔ ¬ no_hunk (Merge.patch e.2)).
  { unfold key_with_hunks. by rewrite (Hget e) by left. }
  assert (IH' := IH (λ e' He', Hget e' (list_elem_of_further _ _ _ He'))).
  cbn [fmap list_fmap].
  destruct (decide (¬ no_hunk (Merge.patch e.2))) as [Hh|Hh].
  - rewrite (filter_cons_True (λ e, ¬ no_hunk (Merge.patch e.2)) e d Hh).
    rewrite (filter_cons_True (key_with_hunks d0)) by by apply He.
    cbn [fmap list_fmap]. f_equal. exact IH'.
  - rewrite (filter_cons_False (λ e, ¬ no_hunk (Merge.patch e.2)) e d Hh).
    rewrite (filter_cons_False (key_with_hunks d0)) by (by rewrite He).
    exact IH'.
Qed.

Lemma insert_by_key_head x l :
  Forall (key_le x) l → Merge.insert_by_key x l = x :: l.
Proof.
  destruct 1 as [|y l Hy _]; [done|]. cbn [Merge.insert_by_key].
  by rewrite bool_decide_eq_true_2.
Qed.

Lemma insert_by_key_filter (P : Z * string → Prop) `{!∀ x, Decision (P x)} x l :
  StronglySorted key_le l →
  filter P (Merge.insert_by_key x l)
  = if decide (P x) then Merge.insert_by_key x (filter P l) else filter P l.
Proof.
  induction 1 as [|y l Hl IH Hy]; cbn [Merge.insert_by_key].
  { rewrite filter_cons, filter_nil. by destruct (decide (P x)). }
  case_bool_decide as Hxy.
  - rewrite (filter_cons P x). destruct (decide (P x)) as [Hx|Hx]; [|done].
    rewrite insert_by_key_head; [done|]. apply Forall_forall.
    intros z [_ Hz]%list_elem_of_filter. unfold key_le in *.
    apply elem_of_cons in Hz as [->|Hz]; [done|].
    rewrite Forall_forall in Hy. specialize (Hy z Hz). lia.
  - rewrite (filter_cons P y), IH. rewrite (filter_cons P y).
    destruct (decide (P x)) as [Hx|Hx]; [|done].
    destruct (decide (P y)) as [Hy'|Hy']; [|done].
    cbn [Merge.insert_by_key]. by rewrite bool_decide_eq_false_2.
Qed.

Lemma sort_by_key_filter (P : Z * string → Prop) `{!∀ x, Decision (P x)} l :
  Merge.sort_by_key (filter P l) = filter P (Merge.sort_by_key l).
Proof.
  induction l as [|x l IH]; [done|]. rewrite filter_cons.
  change (Merge.sort_by_key (x :: l)) with (Merge.insert_by_key x (Merge.sort_by_key l)).
  rewrite insert_by_key_filter by apply sort_by_key_sorted.
  destruct (decide (P x)); [|done].
  change (Merge.sort_by_key (x :: ?l)) with (Merge.insert_by_key x (Merge.sort_by_key l)).
  by rewrite IH.
Qed.

Lemma filter_keyed (Q : string → Prop) `{!∀ k, Decision (Q k)} (keys : list string) :
  keyed <$> filter Q keys = filter (λ p, Q p.2) (keyed <$> keys).
Proof.
  induction keys as [|k keys IH]; [done|]. cbn [fmap list_fmap]. rewrite !filter_cons.
  cbn [keyed snd]. destruct (decide (Q k)); [cbn [fmap list_fmap]; f_equal|]; exact IH.
Qed.

Lemma filter_snd (Q : string → Prop) `{!∀ k, Decision (Q k)} (l : list (Z * string)) :
  (filter (λ p, Q p.2) l).*2 = filter Q l.*2.
Proof.
  induction l as [|p l IH]; [done|]. cbn [fmap list_fmap]. rewrite !filter_cons.
  destruct (decide (Q p.2)); [cbn [fmap list_fmap]; f_equal|]; exact IH.
Qed.

Lemma all_additions_filter d (s : list string) :
  all_additions d (filter (key_with_hunks d) s) = all_additions d s.
Proof.
  unfold all_additions. induction s as [|k s IH]; [done|]. rewrite filter_cons.
  cbn [flat_map]. destruct (decide (key_with_hunks d k)) as [Hk|Hk].
  - cbn [flat_map]. by rewrite IH.
  - rewrite IH. unfold key_with_hunks in Hk.
    destruct (Merge.dict_get d k) as [x|]; [|done]. cbn [from_option] in Hk.
    rewrite pr_additions_no_hunk; [done|]. by destruct (decide (no_hunk (Merge.patch x))).
Qed.

Lemma dict_get_with_hunks d k :
  key_with_hunks d k → Merge.dict_get (with_hunks d) k = Merge.dict_get d k.
Proof.
  unfold key_with_hunks, with_hunks. induction d as [|[k' x] d IH]; [done|].
  rewrite filter_cons. cbn [Merge.dict_get snd]. intros Hk.
  destruct (decide (¬ no_hunk (Merge.patch x))) as [Hx|Hx].
  - cbn [Merge.dict_get]. case_bool_decide; [done|]. by apply IH.
  - case_bool_decide; [done|]. by apply IH.
Qed.

Lemma all_additions_with_hunks d (s : list string) :
  Forall (key_with_hunks d) s →
  all_additions (with_hunks d) s = all_additions d s.
Proof.
  unfold all_additions. induction 1 as [|k s Hk _ IH]; [done|]. cbn [flat_map].
  by rewrite IH, dict_get_with_hunks.
Qed.

End Frame.

(** Pull requests that do not touch the file can be left out: an entry
    without a patch, with an empty patch or with a patch that has no hunk
    header that matches does not change the merged output, as long as its
    key is a number. *)
Theorem generate_frame (base_content_str : option string) (d : Merge.prs) :
  keys_parse d →
  NoDup d.*1 →
  Merge.generate_interleaved_lines_for_all_prs base_content_str (with_hunks d)
  = Merge.generate_interleaved_lines_for_all_prs base_content_str d.
Proof.
  intros Hp Hnd.
  assert (Hkeys : (with_hunks d).*1 = filter (key_with_hunks d) d.*1).
  { apply with_hunks_keys. intros [k x] He. by apply dict_get_elem. }
  assert (Hp' : keys_parse (with_hunks d)).
  { unfold keys_parse in *. rewrite Hkeys. rewrite Forall_forall in Hp.
    apply Forall_forall. intros k [_ Hk]%list_elem_of_filter. by apply Hp. }
  destruct (generate_returns base_content_str d Hp) as (sorted & Hs & _ & ->).
  destruct (generate_returns base_content_str _ Hp') as (sorted' & Hs' & _ & ->).
  rewrite (sorted_pr_numbers_parse d Hp) in Hs. injection Hs as <-.
  rewrite (sorted_pr_numbers_parse _ Hp') in Hs'. injection Hs' as <-.
  rewrite Hkeys, filter_keyed, sort_by_key_filter, filter_snd.
  rewrite all_additions_with_hunks by (apply Forall_forall; by intros k [? _]%list_elem_of_filter).
  by rewrite all_additions_filter.
Qed.

Lemma generate_frame_witness :
  Merge.generate_interleaved_lines_for_all_prs (Some ("x" +:+ nl +:+ "y"))
    (with_hunks [("2", pr_with ("@@ -1 +1,2 @@" +:+ nl +:+ " x" +:+ nl +:+ "+q"));
                 ("1", pr_with "")])
  = Merge.generate_interleaved_lines_for_all_prs (Some ("x" +:+ nl +:+ "y"))
      [("2", pr_with ("@@ -1 +1,2 @@" +:+ nl +:+ " x" +:+ nl +:+ "+q"));
       ("1", pr_with "")].
Proof.
  apply (generate_frame (Some ("x" +:+ nl +:+ "y"))
           [("2", pr_with ("@@ -1 +1,2 @@" +:+ nl +:+ " x" +:+ nl +:+ "+q"));
            ("1", pr_with "")]).
  - unfold keys_parse. simpl. repeat apply Forall_cons_2; try by eexists. apply Forall_nil_2.
  - simpl. apply NoDup_cons_2; [|apply NoDup_singleton].
    intros H%list_elem_of_singleton. discriminate.
Defined.

(** ** Lines in front of the hunks *)

Section Preamble.

Lemma splitlines_line h p :
  no_break h = true → Py.splitlines (h +:+ nl +:+ p) = h :: Py.splitlines p.
Proof.
  intros Hh.
  assert (Hnl : Py.splitlines (nl +:+ p) = EmptyString :: Py.splitlines p).
  { change (nl +:+ p) with (String Py.LF p). cbn [Py.splitlines].
    change (Py.is_linebreak Py.LF) with true. cbv iota.
    change (Ascii.eqb Py.LF Py.CR) with false. cbn [andb]. by destruct p. }
  destruct h as [|c h]; [exact Hnl|].
  rewrite (splitlines_prefix c h _ Hh), Hnl. by rewrite string_app_nil_r.
Qed.

Lemma sections_from_preamble h lines :
  is_header h = false → sections_from None (h :: lines) = sections_from None lines.
Proof. intros Hh. cbn [sections_from]. by rewrite Hh. Qed.

Lemma pull_requests_ext_additions d d' m sorted :
  (∀ k, pr_additions k <$> Merge.dict_get d' k = pr_additions k <$> Merge.dict_get d k) →
  Merge.pull_requests d' m sorted = Merge.pull_requests d m sorted.
Proof.
  intros Hget. revert m. induction sorted as [|k sorted IH]; intros m; [done|].
  cbn [Merge.pull_requests]. specialize (Hget k).
  destruct (Merge.dict_get d k) as [x|], (Merge.dict_get d' k) as [x'|]; try done.
  cbn [mbind option_bind]. rewrite !pull_request_additions.
  injection Hget as ->. apply IH.
Qed.

Lemma pr_additions_preamble k t u l h p :
  no_break h = true → is_header h = false →
  pr_additions k {| Merge.patch := Some (h +:+ nl +:+ p); Merge.title := t;
                    Merge.html_url := u; Merge.local_pr_page_link := l |}
  = pr_additions k {| Merge.patch := Some p; Merge.title := t;
                      Merge.html_url := u; Merge.local_pr_page_link := l |}.
Proof.
  intros Hb Hh. unfold pr_additions. cbn [Merge.patch].
  assert (Hs : Merge.scan_patch (Py.splitlines (h +:+ nl +:+ p))
               = Merge.scan_patch (Py.splitlines p)).
  { rewrite !merge_scan_patch, !single_scan_patch, (splitlines_line h p Hb).
    by apply sections_from_preamble. }
  destruct (h +:+ nl +:+ p) as [|c r] eqn:Heq.
  { destruct h; discriminate. }
  rewrite Hs. destruct p as [|c' p']; [|done].
  by rewrite merge_scan_patch, single_scan_patch.
Qed.

End Preamble.

(** A line in front of the hunks counts for nothing in single-patch
    reconstruction: a patch text with a further first line that does not
    start with [@@] (a line of a file header, as [diff], [index], [---] or
    [+++]) gives the result of the patch text without that line. *)
Theorem file_header_ignored
    (base_content_str : option string) (h p : string) (a : option Single.annotation) :
  no_break h = true → is_header h = false →
  Single.apply_patch_to_content base_content_str (Some (h +:+ nl +:+ p)) a
  = Single.apply_patch_to_content base_content_str (Some p) a.
Proof.
  intros Hb Hh. unfold Single.apply_patch_to_content.
  assert (Hs : Single.scan_patch (Py.splitlines (h +:+ nl +:+ p))
               = Single.scan_patch (Py.splitlines p)).
  { rewrite !single_scan_patch, (splitlines_line h p Hb).
    by apply sections_from_preamble. }
  destruct (h +:+ nl +:+ p) as [|c r] eqn:Heq.
  { destruct h; discriminate. }
  cbv zeta. rewrite Hs. clear Hs. destruct p as [|c' p'].
  - change (Single.scan_patch (Py.splitlines "")) with (@nil (string * list string)).
    cbv iota. destruct base_content_str as [[|]|]; cbn [default];
      by destruct (Single.is_only_no_newline_meta _ _).
  - destruct (Single.scan_patch (Py.splitlines (String c' p'))); [|done].
    by do 2 destruct (Single.is_only_no_newline_meta _ _).
Qed.

Lemma file_header_ignored_witness :
  Single.apply_patch_to_content (Some ("a" +:+ nl +:+ "b"))
    (Some ("+++ b/f" +:+ nl +:+ ("@@ -1 +1,2 @@" +:+ nl +:+ " a" +:+ nl +:+ "+x"))) None
  = Single.apply_patch_to_content (Some ("a" +:+ nl +:+ "b"))
      (Some ("@@ -1 +1,2 @@" +:+ nl +:+ " a" +:+ nl +:+ "+x")) None.
Proof.
  apply (file_header_ignored (Some ("a" +:+ nl +:+ "b")) "+++ b/f"
           ("@@ -1 +1,2 @@" +:+ nl +:+ " a" +:+ nl +:+ "+x") None); reflexivity.
Defined.

(** The same in the interleaved view: a further first line of the patch
    of a pull request that does not start with [@@] changes nothing, not
    even when it starts with [+]. *)
Theorem file_header_ignored_interleaved
    (base_content_str : option string) (d1 d2 : Merge.prs) (k h p : string)
    (t u l : option string) :
  no_break h = true → is_header h = false →
  Merge.generate_interleaved_lines_for_all_prs base_content_str
    (d1 ++ (k, {| Merge.patch := Some (h +:+ nl +:+ p); Merge.title := t;
                  Merge.html_url := u; Merge.local_pr_page_link := l |}) :: d2)
  = Merge.generate_interleaved_lines_for_all_prs base_content_str
      (d1 ++ (k, {| Merge.patch := Some p; Merge.title := t;
                    Merge.html_url := u; Merge.local_pr_page_link := l |}) :: d2).
Proof.
  intros Hb Hh. unfold Merge.generate_interleaved_lines_for_all_prs, Merge.sorted_pr_numbers.
  rewrite !fmap_app. cbn [fmap list_fmap fst].
  destruct (mapM _ _) as [ks|]; [|done]. cbn [mbind option_bind].
  rewrite (pull_requests_ext_additions
             (d1 ++ (k, {| Merge.patch := Some p; Merge.title := t;
                           Merge.html_url := u; Merge.local_pr_page_link := l |}) :: d2)
             (d1 ++ (k, {| Merge.patch := Some (h +:+ nl +:+ p); Merge.title := t;
                           Merge.html_url := u; Merge.local_pr_page_link := l |}) :: d2));
    [done|].
  intros k'. induction d1 as [|[k1 x1] d1 IH]; cbn [app Merge.dict_get].
  - case_bool_decide as Hk; [|done]. subst k'. cbn [fmap option_fmap option_map].
    f_equal. by apply pr_additions_preamble.
  - case_bool_decide; [done|]. exact IH.
Qed.

Lemma file_header_ignored_interleaved_witness :
  Merge.generate_interleaved_lines_for_all_prs (Some ("a" +:+ nl +:+ "b"))
    ([] ++ ("4", {| Merge.patch := Some ("+++ b/f" +:+ nl
                                       +:+ ("@@ -1 +1,2 @@" +:+ nl +:+ " a" +:+ nl +:+ "+x"));
                    Merge.title := Some "t"; Merge.html_url := None;
                    Merge.local_pr_page_link := None |}) :: [])
  = Merge.generate_interleaved_lines_for_all_prs (Some ("a" +:+ nl +:+ "b"))
      ([] ++ ("4", {| Merge.patch := Some ("@@ -1 +1,2 @@" +:+ nl +:+ " a" +:+ nl +:+ "+x");
                      Merge.title := Some "t"; Merge.html_url := None;
                      Merge.local_pr_page_link := None |}) :: []).
Proof.
  apply (file_header_ignored_interleaved (Some ("a" +:+ nl +:+ "b")) [] [] "4" "+++ b/f"
           ("@@ -1 +1,2 @@" +:+ nl +:+ " a" +:+ nl +:+ "+x") (Some "t") None None);
    reflexivity.
Defined.

(** ** The names of the cache files *)

Example b64_examples :
  Cache.sanitized_identifier "all" = "YWxs"
  ∧ Cache.sanitized_identifier "open" = "b3Blbg=="
  ∧ Cache.sanitized_identifier "src/a" = "c3JjL2E="
  ∧ Cache.sanitized_identifier (String (ascii_of_nat 255) (String (ascii_of_nat 254) "?")) = "w7_Dvj8="
  ∧ Cache.sanitized_identifier "" = "default".
Proof. vm_compute. done. Qed.

Section CacheNames.

Local Ltac div_lia := Z.to_euclidean_division_equations; lia.

Lemma sextet_spec n :
  0 ≤ n < 64 →
  unsextet (Cache.sextet n) = n ∧ Cache.sextet n ≠ "="%char
  ∧ Cache.sextet n ∈ Cache.alphabet.
Proof.
  intros Hn. rewrite <- (Z2Nat.id n) by lia.
  assert (Hk : (Z.to_nat n < 64)%nat) by lia. revert Hk. generalize (Z.to_nat n).
  intros k Hk. clear n Hn.
  do 64 (destruct k as [|k]; [by (split; [|split]; [vm_compute..| apply (bool_decide_unpack _); vm_compute])|]).
  lia.
Qed.

Lemma list_ind3 {A} (P : list A → Prop) :
  P [] → (∀ a, P [a]) → (∀ a b, P [a; b]) →
  (∀ a b c l, P l → P (a :: b :: c :: l)) → ∀ l, P l.
Proof.
  intros H0 H1 H2 H3.
  assert (H : ∀ l, P l ∧ (∀ a, P (a :: l)) ∧ (∀ a b, P (a :: b :: l))).
  { induction l as [|c l (IH0 & IH1 & IH2)]; [done|].
    split; [apply IH1|]. split; [intros a; apply IH2|]. intros a b. by apply H3. }
  intros l. apply H.
Qed.

Lemma b64decode_encode (bs : Cache.bytes) :
  Forall (λ b, 0 ≤ b < 256) bs → b64decode (Cache.urlsafe_b64encode bs) = bs.
Proof.
  induction bs as [|a|a b|a b c bs IH] using list_ind3; intros Hbs.
  - done.
  - apply Forall_cons in Hbs as [Ha _]. cbn [Cache.urlsafe_b64encode]. cbv zeta.
    destruct (sextet_spec (a * 65536 / 262144)) as (E0 & _ & _); [div_lia|].
    destruct (sextet_spec (a * 65536 / 4096 mod 64)) as (E1 & _ & _); [div_lia|].
    cbn [b64decode]. cbv zeta. rewrite E0, E1.
    change (Ascii.eqb "=" "=") with true. cbv iota.
    change (unsextet "=") with 0. f_equal. div_lia.
  - apply Forall_cons in Hbs as [Ha Hbs]. apply Forall_cons in Hbs as [Hb _].
    cbn [Cache.urlsafe_b64encode]. cbv zeta.
    destruct (sextet_spec ((a * 256 + b) * 256 / 262144)) as (E0 & _ & _); [div_lia|].
    destruct (sextet_spec ((a * 256 + b) * 256 / 4096 mod 64)) as (E1 & _ & _); [div_lia|].
    destruct (sextet_spec ((a * 256 + b) * 256 / 64 mod 64)) as (E2 & N2 & _); [div_lia|].
    cbn [b64decode]. cbv zeta. rewrite E0, E1, E2.
    rewrite (proj2 (Ascii.eqb_neq _ _) N2).
    change (Ascii.eqb "=" "=") with true. cbv iota.
    change (unsextet "=") with 0. f_equal; [div_lia|]. f_equal. div_lia.
  - apply Forall_cons in Hbs as [Ha Hbs]. apply Forall_cons in Hbs as [Hb Hbs].
    apply Forall_cons in Hbs as [Hc Hbs].
    cbn [Cache.urlsafe_b64encode]. cbv zeta.
    destruct (sextet_spec (((a * 256 + b) * 256 + c) / 262144)) as (E0 & _ & _); [div_lia|].
    destruct (sextet_spec (((a * 256 + b) * 256 + c) / 4096 mod 64)) as (E1 & _ & _); [div_lia|].
    destruct (sextet_spec (((a * 256 + b) * 256 + c) / 64 mod 64)) as (E2 & N2 & _); [div_lia|].
    destruct (sextet_spec (((a * 256 + b) * 256 + c) mod 64)) as (E3 & N3 & _); [div_lia|].
    cbn [b64decode]. cbv zeta. rewrite E0, E1, E2, E3.
    rewrite (proj2 (Ascii.eqb_neq _ _) N2), (proj2 (Ascii.eqb_neq _ _) N3).
    rewrite (IH Hbs). f_equal; [div_lia|]. f_equal; [div_lia|]. f_equal. div_lia.
Qed.

Lemma cp_bound c : 0 ≤ Z.of_nat (Py.cp c) < 256.
Proof. unfold Py.cp. pose proof (nat_ascii_bounded c). lia. Qed.

Lemma utf8_bytes c : Forall (λ b, 0 ≤ b < 256) (Cache.utf8 c).
Proof.
  unfold Cache.utf8. cbv zeta. pose proof (cp_bound c). case_bool_decide.
  - apply Forall_singleton. lia.
  - apply Forall_cons_2; [div_lia|]. apply Forall_singleton. div_lia.
Qed.

Lemma encode_bytes s : Forall (λ b, 0 ≤ b < 256) (Cache.encode s).
Proof.
  unfold Cache.encode. induction (String.list_ascii_of_string s) as [|c l IH]; [done|].
  cbn [flat_map]. apply Forall_app. split; [apply utf8_bytes | exact IH].
Qed.

Lemma utf8_decode_encode (l : list ascii) : utf8_decode (flat_map Cache.utf8 l) = l.
Proof.
  induction l as [|c l IH]; [done|]. cbn [flat_map]. unfold Cache.utf8 at 1. cbv zeta.
  pose proof (cp_bound c) as Hc. case_bool_decide as Hlt.
  - cbn [app utf8_decode]. rewrite bool_decide_eq_true_2 by done.
    rewrite Nat2Z.id. unfold Py.cp. by rewrite ascii_nat_embedding, IH.
  - cbn [app utf8_decode]. rewrite bool_decide_eq_false_2 by div_lia.
    replace ((192 + Z.of_nat (Py.cp c) / 64 - 192) * 64
             + (128 + Z.of_nat (Py.cp c) mod 64 - 128)) with (Z.of_nat (Py.cp c)) by div_lia.
    rewrite Nat2Z.id. unfold Py.cp. by rewrite ascii_nat_embedding, IH.
Qed.

Lemma encode_nonempty c s : Cache.encode (String c s) ≠ [].
Proof.
  unfold Cache.encode. cbn [String.list_ascii_of_string flat_map]. unfold Cache.utf8.
  cbv zeta. by case_bool_decide.
Qed.

(** The encoded text of bytes that are not empty has at least four
    characters, and all of them are of the alphabet or the padding. *)
Lemma b64_length (bs : Cache.bytes) :
  bs ≠ [] → (4 ≤ length (Cache.urlsafe_b64encode bs))%nat ∧ Nat.divide 4 (length (Cache.urlsafe_b64encode bs)).
Proof.
  induction bs as [|a|a b|a b c bs IH] using list_ind3; intros Hne; [done|..].
  - cbn. split; [lia|]. by exists 1%nat.
  - cbn. split; [lia|]. by exists 1%nat.
  - cbn [Cache.urlsafe_b64encode]. cbv zeta. cbn [length]. split; [lia|].
    destruct bs as [|b' bs']; [by exists 1%nat|].
    destruct IH as [_ [k Hk]]; [done|]. exists (S k). lia.
Qed.

Lemma b64_alphabet (bs : Cache.bytes) :
  Forall (λ b, 0 ≤ b < 256) bs →
  Forall (λ c, c ∈ Cache.alphabet ∨ c = "="%char) (Cache.urlsafe_b64encode bs).
Proof.
  induction bs as [|a|a b|a b c bs IH] using list_ind3; intros Hbs.
  - constructor.
  - apply Forall_cons in Hbs as [Ha _]. cbn [Cache.urlsafe_b64encode]. cbv zeta.
    repeat apply Forall_cons_2; try apply Forall_nil_2; try (by right);
      left; apply sextet_spec; div_lia.
  - apply Forall_cons in Hbs as [Ha Hbs]. apply Forall_cons in Hbs as [Hb _].
    cbn [Cache.urlsafe_b64encode]. cbv zeta.
    repeat apply Forall_cons_2; try apply Forall_nil_2; try (by right);
      left; apply sextet_spec; div_lia.
  - apply Forall_cons in Hbs as [Ha Hbs]. apply Forall_cons in Hbs as [Hb Hbs].
    apply Forall_cons in Hbs as [Hc Hbs].
    cbn [Cache.urlsafe_b64encode]. cbv zeta.
    repeat (apply Forall_cons_2; [left; apply sextet_spec; div_lia|]). by apply IH.
Qed.

End CacheNames.

(** The sanitized identifier determines the identifier: two identifiers
    with the same cache file name are the same, and only the empty
    identifier has the name [default]. *)
Lemma sanitized_identifier_inj (identifier identifier' : string) :
  Cache.sanitized_identifier identifier = Cache.sanitized_identifier identifier' →
  identifier = identifier'.
Proof.
  assert (Hdefault : ∀ c s,
    Cache.sanitized_identifier (String c s) ≠ "default").
  { intros c s H. unfold Cache.sanitized_identifier in H.
    apply (f_equal String.list_ascii_of_string) in H.
    rewrite String.list_ascii_of_string_of_list_ascii in H.
    apply (f_equal length) in H.
    destruct (b64_length (Cache.encode (String c s))) as [_ [k Hk]];
      [apply encode_nonempty|].
    rewrite Hk in H. cbn in H. lia. }
  destruct identifier as [|c s], identifier' as [|c' s']; [done|..].
  - intros H. symmetry in H. by apply Hdefault in H.
  - intros H. by apply Hdefault in H.
  - unfold Cache.sanitized_identifier. intros H.
    apply (f_equal String.list_ascii_of_string) in H.
    rewrite !String.list_ascii_of_string_of_list_ascii in H.
    apply (f_equal b64decode) in H. rewrite !b64decode_encode in H by apply encode_bytes.
    apply (f_equal utf8_decode) in H. unfold Cache.encode in H.
    rewrite !utf8_decode_encode in H.
    apply (f_equal String.string_of_list_ascii) in H.
    by rewrite !String.string_of_list_ascii_of_string in H.
Qed.

(** Every identifier has a cache file name of its own: two identifiers
    with the same sanitized identifier are the same, and only the empty
    identifier has the name [default]. *)
Theorem sanitized_identifier_unique (identifier identifier' : string) :
  (Cache.sanitized_identifier identifier = Cache.sanitized_identifier identifier'
   ↔ identifier = identifier')
  ∧ (Cache.sanitized_identifier identifier = "default" ↔ identifier = EmptyString).
Proof.
  split.
  - split; [apply sanitized_identifier_inj | by intros ->].
  - split; [|by intros ->]. intros H. by apply (sanitized_identifier_inj identifier "").
Qed.

(** The sanitized identifier is a plain file name: whatever the
    identifier is, it consists of letters, digits, [-], [_] and [=] only,
    so it has no path separator and no dot. *)
Theorem sanitized_identifier_plain (identifier : string) :
  Forall (λ c, c ∈ Cache.alphabet ∨ c = "="%char)
    (String.list_ascii_of_string (Cache.sanitized_identifier identifier)).
Proof.
  destruct identifier as [|c s].
  - apply (bool_decide_unpack _). by vm_compute.
  - unfold Cache.sanitized_identifier.
    rewrite String.list_ascii_of_string_of_list_ascii.
    apply b64_alphabet, encode_bytes.
Qed.


Section CachePaths.

Lemma append_inv_r (a b c : string) : a +:+ c = b +:+ c → a = b.
Proof.
  intros H. apply (f_equal String.list_ascii_of_string) in H.
  rewrite !list_ascii_app in H. apply app_inv_tail in H.
  apply (f_equal String.string_of_list_ascii) in H.
  by rewrite !String.string_of_list_ascii_of_string in H.
Qed.

Lemma append_inv_l (a b c : string) : c +:+ a = c +:+ b → a = b.
Proof.
  intros H. apply (f_equal String.list_ascii_of_string) in H.
  rewrite !list_ascii_app in H. apply app_inv_head in H.
  apply (f_equal String.string_of_list_ascii) in H.
  by rewrite !String.string_of_list_ascii_of_string in H.
Qed.

Lemma sanitized_json_plain identifier :
  plain_name (Cache.sanitized_identifier identifier +:+ ".json").
Proof.
  unfold plain_name. rewrite list_ascii_app. apply Forall_app. split.
  - pose proof (b64_alphabet (Cache.encode identifier) (encode_bytes identifier)) as Hb.
    destruct identifier as [|c s].
    { repeat constructor; by intros [= ?]. }
    unfold Cache.sanitized_identifier. rewrite String.list_ascii_of_string_of_list_ascii.
    eapply Forall_impl; [exact Hb|]. intros x [Hx| ->]; [|by split].
    split; intros ->; revert Hx; apply (bool_decide_unpack _); by vm_compute.
  - repeat constructor; by intros [= ?].
Qed.

Lemma path_join_plain a n :
  plain_name n →
  Py.path_join a n
  = (if bool_decide (a = EmptyString) || Py.endswith a "/" then a else a +:+ "/") +:+ n.
Proof.
  intros Hn. unfold Py.path_join.
  assert (Py.startswith n "/" = false) as ->.
  { destruct n as [|c n]; [done|]. cbn in Hn. apply Forall_cons in Hn as [[Hc _] _].
    cbn [Py.startswith]. rewrite andb_true_r. apply Ascii.eqb_neq. congruence. }
  destruct (bool_decide (a = EmptyString) || Py.endswith a "/"); [done|].
  by rewrite append_assoc.
Qed.

Lemma posix_join_plain a d n m :
  plain_name n → plain_name m →
  posix_join a [d; n] = posix_join a [d; m] → n = m.
Proof.
  intros Hn Hm. unfold posix_join. cbn [fold_left].
  rewrite (path_join_plain _ n Hn), (path_join_plain _ m Hm). apply append_inv_l.
Qed.

End CachePaths.

(** For the cache of the directory contents, different directory paths
    have different cache files, on every platform whose [os.path.join]
    keeps names without a separator apart. *)
Theorem contents_cache_path_inj
    (os_path_join : string → list string → string) (owner repo identifier identifier' : string) :
  (∀ a d n m, plain_name n → plain_name m →
     os_path_join a [d; n] = os_path_join a [d; m] → n = m) →
  Cache.get_cache_path os_path_join owner repo "contents_metadata" identifier
  = Cache.get_cache_path os_path_join owner repo "contents_metadata" identifier'
  ↔ identifier = identifier'.
Proof.
  intros Hjoin. split; [|by intros ->].
  unfold Cache.get_cache_path. cbv zeta.
  rewrite bool_decide_eq_false_2 by done. rewrite bool_decide_eq_true_2 by done.
  intros H. apply Hjoin in H; try apply sanitized_json_plain.
  apply append_inv_r in H. by apply sanitized_identifier_inj.
Qed.

Lemma contents_cache_path_inj_witness :
  Cache.get_cache_path posix_join "o" "r" "contents_metadata" "src"
  = Cache.get_cache_path posix_join "o" "r" "contents_metadata" "lib"
  ↔ "src" = "lib".
Proof.
  apply (contents_cache_path_inj posix_join "o" "r" "src" "lib").
  exact posix_join_plain.
Defined.

(** ** Where the lines of the reconstruction come from *)

Section Origin.

Variable base_lines : list string.
Variable a : option Single.annotation.

Lemma line_origin_mono bodies bodies' line :
  bodies ⊆ bodies' → line_origin base_lines bodies a line → line_origin base_lines bodies' a line.
Proof.
  intros Hsub [H|[(l & Hl & H)|(l & Hl & H)]]; [by left|right; left|right; right];
    exists l; (split; [by apply Hsub|done]).
Qed.

Lemma enter_hunk_origin bodies os st st' :
  in_base base_lines st →
  Single.enter_hunk base_lines os st = Some st' →
  Forall (line_origin base_lines bodies a) st.1 →
  Forall (line_origin base_lines bodies a) st'.1.
Proof.
  destruct st as [out idx]. unfold in_base, Single.enter_hunk. cbn [fst snd].
  intros Hidx Hst Hout.
  assert (Hcopy : ∀ x y, 0 ≤ x → y ≤ len base_lines → ∀ copied,
            Single.copy_base base_lines x y = Some copied →
            Forall (line_origin base_lines bodies a) (out ++ copied)).
  { intros x y Hx Hy copied. rewrite copy_base_slice by done. intros [= <-].
    apply Forall_app. split; [done|]. apply Forall_forall.
    intros line (b & -> & Hb)%list_elem_of_fmap. left. exists b. split; [|done].
    apply (subseteq_take _ _), (subseteq_drop _ _) in Hb. exact Hb. }
  repeat case_bool_decide; try (injection Hst as <-; done).
  - destruct (Single.copy_base _ _ _) as [copied|] eqn:Hc; [|done].
    cbn [mbind option_bind] in Hst. injection Hst as <-. cbn [fst].
    apply (Hcopy idx (len base_lines)); [lia|lia|done].
  - destruct (Single.copy_base _ _ _) as [copied|] eqn:Hc; [|done].
    cbn [mbind option_bind] in Hst. injection Hst as <-. cbn [fst].
    eapply Hcopy; [| |exact Hc]; lia.
Qed.

Lemma body_line_origin bodies st l :
  l ∈ bodies →
  Forall (line_origin base_lines bodies a) st.1 →
  Forall (line_origin base_lines bodies a) (Single.body_line base_lines a st l).1.
Proof.
  destruct st as [out idx]. unfold Single.body_line. cbn [fst]. intros Hl Hout.
  destruct (Py.startswith l "+") eqn:Hp.
  { cbn [fst]. apply Forall_app. split; [done|]. apply Forall_singleton.
    right; left. by exists l. }
  destruct (Py.startswith l "-") eqn:Hm.
  { by case_bool_decide. }
  destruct (Py.startswith l " ") eqn:Hs.
  { assert (line_origin base_lines bodies a (Py.html_escape (Py.tail1 l))).
    { right; right. by exists l. }
    case_bool_decide; cbn [fst]; apply Forall_app; (split; [done|]);
      by apply Forall_singleton. }
  by destruct (Py.startswith l Py.backslash).
Qed.

Lemma body_origin bodies body st :
  body ⊆ bodies →
  Forall (line_origin base_lines bodies a) st.1 →
  Forall (line_origin base_lines bodies a) (fold_left (Single.body_line base_lines a) body st).1.
Proof.
  revert st. induction body as [|l body IH]; intros st Hsub Hst; [done|].
  cbn [fold_left]. apply IH.
  - intros x Hx. apply Hsub. by right.
  - apply body_line_origin; [apply Hsub; left|done].
Qed.

Lemma hunks_origin bodies sections st :
  in_base base_lines st →
  Forall (λ s, s.2 ⊆ bodies) sections →
  Forall (line_origin base_lines bodies a) st.1 →
  ∃ st', Single.hunks base_lines a st sections = Some st'
         ∧ in_base base_lines st'
         ∧ Forall (line_origin base_lines bodies a) st'.1.
Proof.
  revert st. induction sections as [|[h body] sections IH]; intros st Hin Hsub Hst.
  { by exists st. }
  apply Forall_cons in Hsub as [Hbody Hsub]. cbn [Single.hunks Single.hunk].
  destruct (Re.search h) as [g|]; cbn [mbind option_bind]; [|by apply IH].
  destruct (enter_hunk_in_base base_lines (old_start_1based g) st Hin) as (st1 & He & Hin1).
  rewrite He. cbn [mbind option_bind]. apply IH; [by apply body_in_base|done|].
  apply body_origin; [done|].
  by apply (enter_hunk_origin bodies (old_start_1based g) st st1).
Qed.

End Origin.

(** Every line of the single-patch reconstruction is a line of the base,
    escaped, or comes from a body line of a hunk section: an Added line
    as its span, a Context line as its escaped text.  Nothing else gets
    into the result: no header, no Removed line, no line of any other
    kind. *)
Theorem single_lines_origin
    (base_lines : list string) (sections : list (string * list string))
    (a : option Single.annotation) :
  ∃ out,
    Single.patched_lines base_lines sections a = Some out
    ∧ Forall (line_origin base_lines (flat_map snd sections) a) out.
Proof.
  destruct (hunks_origin base_lines a (flat_map snd sections) sections ([], 0))
    as ([out idx] & Hh & Hin & Hout).
  - unfold in_base. cbn [snd]. pose proof (len_nonneg base_lines). lia.
  - apply Forall_forall. intros s Hs l Hl. apply elem_of_flat_map. by exists s.
  - constructor.
  - unfold Single.patched_lines. rewrite Hh. cbn [mbind option_bind].
    rewrite (tail_in_base base_lines (out, idx) Hin). eexists. split; [done|].
    cbn [fst snd] in *. apply Forall_app. split; [done|]. apply Forall_forall.
    intros line (b & -> & Hb)%list_elem_of_fmap. left. exists b. split; [|done].
    by apply (subseteq_drop _ _) in Hb.
Qed.

(** ** The layout of the interleaved view *)

(** The layout of the merged output: first the additions with the index
    -1, then every base line, each followed by the additions keyed to its
    index; the additions of one index stand in the order of the numbers of
    their pull requests and, for one pull request, in the order of the
    patch. *)
Theorem generate_layout (base_content_str : option string) (d : Merge.prs) :
  keys_parse d →
  let base_lines := Py.splitlines (default EmptyString base_content_str) in
  let sorted := (Merge.sort_by_key (keyed <$> d.*1)).*2 in
  let listed := all_additions d sorted in
  Merge.generate_interleaved_lines_for_all_prs base_content_str d
  = Some (keyed_at (-1) listed
          ++ mjoin (imap (λ n b, Merge.base_obj b :: keyed_at (Z.of_nat n) listed)
                      base_lines)).
Proof.
  intros Hp base_lines sorted listed.
  destruct (generate_returns base_content_str d Hp) as (sorted' & Hs & _ & ->).
  rewrite (sorted_pr_numbers_parse d Hp) in Hs. injection Hs as <-.
  fold sorted. fold listed. fold base_lines. unfold Merge.emit.
  rewrite at_key_listed, emit_from_imap. do 3 f_equal.
  apply imap_ext. intros n b _. cbn. by rewrite at_key_listed.
Qed.

Lemma generate_layout_witness :
  Merge.generate_interleaved_lines_for_all_prs (Some ("x" +:+ nl +:+ "y"))
    [("12", pr_with ("@@ -1 +1,2 @@" +:+ nl +:+ " x" +:+ nl +:+ "+q"));
     ("7", pr_with ("@@ -1 +1,2 @@" +:+ nl +:+ " x" +:+ nl +:+ "+p"))]
  = Some (keyed_at (-1)
            (all_additions
               [("12", pr_with ("@@ -1 +1,2 @@" +:+ nl +:+ " x" +:+ nl +:+ "+q"));
                ("7", pr_with ("@@ -1 +1,2 @@" +:+ nl +:+ " x" +:+ nl +:+ "+p"))]
               ["7"; "12"])
          ++ mjoin (imap (λ n b, Merge.base_obj b
                            :: keyed_at (Z.of_nat n)
                                 (all_additions
                                    [("12", pr_with ("@@ -1 +1,2 @@" +:+ nl +:+ " x" +:+ nl +:+ "+q"));
                                     ("7", pr_with ("@@ -1 +1,2 @@" +:+ nl +:+ " x" +:+ nl +:+ "+p"))]
                                    ["7"; "12"]))
                      ["x"; "y"])).
Proof.
  apply (generate_layout (Some ("x" +:+ nl +:+ "y"))
           [("12", pr_with ("@@ -1 +1,2 @@" +:+ nl +:+ " x" +:+ nl +:+ "+q"));
            ("7", pr_with ("@@ -1 +1,2 @@" +:+ nl +:+ " x" +:+ nl +:+ "+p"))]).
  unfold keys_parse. simpl. repeat apply Forall_cons_2; try by eexists. apply Forall_nil_2.
Defined.

(** ** The two views of one pull request *)

Section BothViews.

Variable base_lines : list string.
Variable a : option Single.annotation.

Lemma enter_hunk_prefix os st st' :
  Single.enter_hunk base_lines os st = Some st' → st.1 `prefix_of` st'.1.
Proof.
  destruct st as [out idx]. unfold Single.enter_hunk. cbn [fst].
  repeat case_bool_decide; try (intros [= <-]; done).
  - destruct (Single.copy_base _ _ _) as [copied|]; [|done].
    cbn [mbind option_bind]. intros [= <-]. by apply prefix_app_r.
  - destruct (Single.copy_base _ _ _) as [copied|]; [|done].
    cbn [mbind option_bind]. intros [= <-]. by apply prefix_app_r.
Qed.

Lemma body_line_prefix st l :
  st.1 `prefix_of` (Single.body_line base_lines a st l).1.
Proof.
  destruct st as [out idx]. unfold Single.body_line. cbn [fst].
  destruct (Py.startswith l "+"); [by apply prefix_app_r|].
  destruct (Py.startswith l "-"); [by case_bool_decide|].
  destruct (Py.startswith l " "); [case_bool_decide; by apply prefix_app_r|].
  by destruct (Py.startswith l Py.backslash).
Qed.

Lemma body_prefix body st :
  st.1 `prefix_of` (fold_left (Single.body_line base_lines a) body st).1.
Proof.
  revert st. induction body as [|l body IH]; intros st; [done|].
  cbn [fold_left]. etrans; [apply (body_line_prefix st l)|apply IH].
Qed.

Lemma body_added body st l :
  l ∈ body → Py.startswith l "+" = true →
  Single.added_line a (Py.html_escape (Py.tail1 l))
  ∈ (fold_left (Single.body_line base_lines a) body st).1.
Proof.
  revert st. induction body as [|l' body IH]; intros st Hl Hp; [by apply elem_of_nil in Hl|].
  cbn [fold_left]. apply elem_of_cons in Hl as [->|Hl]; [|by apply IH].
  eapply elem_of_prefix; [|apply body_prefix].
  destruct st as [out idx]. unfold Single.body_line. rewrite Hp. cbn [fst].
  apply elem_of_app. right. left.
Qed.

Lemma hunks_prefix sections st st' :
  Single.hunks base_lines a st sections = Some st' → st.1 `prefix_of` st'.1.
Proof.
  revert st. induction sections as [|[h body] sections IH]; intros st.
  { by intros [= <-]. }
  cbn [Single.hunks Single.hunk]. destruct (Re.search h) as [g|]; cbn [mbind option_bind].
  - destruct (Single.enter_hunk _ _ _) as [st1|] eqn:He; [|done]. cbn [mbind option_bind].
    intros Hh. etrans; [apply (enter_hunk_prefix _ _ _ He)|].
    etrans; [apply (body_prefix body st1)|]. by apply IH.
  - apply IH.
Qed.

Lemma hunks_added sections st st' h body l :
  Single.hunks base_lines a st sections = Some st' →
  (h, body) ∈ sections → is_Some (Re.search h) →
  l ∈ body → Py.startswith l "+" = true →
  Single.added_line a (Py.html_escape (Py.tail1 l)) ∈ st'.1.
Proof.
  revert st. induction sections as [|[h' body'] sections IH]; intros st Hh Hin [g Hg] Hl Hp.
  { by apply elem_of_nil in Hin. }
  cbn [Single.hunks] in Hh.
  destruct (Single.hunk base_lines a st (h', body')) as [st1|] eqn:H1; [|done].
  cbn [mbind option_bind] in Hh.
  apply elem_of_cons in Hin as [[= <- <-]|Hin]; [|by apply (IH st1)].
  eapply elem_of_prefix; [|apply (hunks_prefix _ _ _ Hh)].
  unfold Single.hunk in H1. rewrite Hg in H1.
  destruct (Single.enter_hunk _ _ _) as [st0|]; [|done].
  cbn [mbind option_bind] in H1. injection H1 as <-. by apply body_added.
Qed.

End BothViews.

(** An added line of the merged output with the hunk section it comes
    from. *)
Lemma generate_added_sections (base_content_str : option string) (d : Merge.prs) :
  keys_parse d →
  ∃ out,
    Merge.generate_interleaved_lines_for_all_prs base_content_str d = Some out
    ∧ ∀ o, o ∈ out → Merge.type o = Merge.added →
        ∃ k x p h body line,
          (k, x) ∈ d ∧ Merge.patch x = Some p
          ∧ (h, body) ∈ Single.scan_patch (Py.splitlines p) ∧ is_Some (Re.search h)
          ∧ line ∈ body ∧ Py.startswith line "+" = true
          ∧ o = Merge.LineObj (Py.html_escape (Py.tail1 line)) Merge.added
                  (Some (Merge.details_of k x)).
Proof.
  intros Hp.
  destruct (generate_reach base_content_str d Hp) as (sorted & out & _ & Hout & Hperm).
  exists out. split; [done|]. intros o Ho Hadded. cbv zeta in Hperm.
  rewrite Hperm in Ho. apply elem_of_app in Ho as [Ho|Ho].
  { apply list_elem_of_fmap in Ho as (b & -> & _). done. }
  apply list_elem_of_fmap in Ho as ([key o'] & -> & [_ Ho]%list_elem_of_filter).
  cbn [snd] in *. unfold all_additions in Ho.
  apply elem_of_flat_map in Ho as (k & Ho & _).
  destruct (Merge.dict_get d k) as [x|] eqn:Hk; [|by apply elem_of_nil in Ho].
  apply dict_get_Some_elem in Hk. unfold pr_additions in Ho.
  destruct (Merge.patch x) as [[|c p]|] eqn:Hpatch; try by apply elem_of_nil in Ho.
  apply elem_of_flat_map in Ho as ([h body] & Ho & Hsec).
  unfold hunk_additions in Ho. cbn [fst snd] in Ho.
  destruct (Re.search h) as [g|] eqn:Hg; [|by apply elem_of_nil in Ho].
  apply body_additions_line in Ho as (line & Hline & Hplus & Heq). cbn [snd] in Heq.
  rewrite merge_scan_patch in Hsec.
  exists k, x, (String c p), h, body, line. rewrite Hg. by repeat split.
Qed.

(** The two views agree on what a pull request adds: a line that the
    interleaved view shows as added by a pull request is also in the
    single-patch reconstruction of that pull request's patch on the same
    base, as the span of an added line with the same text. *)
Theorem interleaved_added_in_single
    (base_content_str : option string) (d : Merge.prs) (a : option Single.annotation) :
  keys_parse d →
  ∃ out,
    Merge.generate_interleaved_lines_for_all_prs base_content_str d = Some out
    ∧ ∀ o, o ∈ out → Merge.type o = Merge.added →
        ∃ k x p single_lines,
          (k, x) ∈ d ∧ Merge.patch x = Some p
          ∧ Merge.pr_info o = Some (Merge.details_of k x)
          ∧ Single.apply_patch_to_content base_content_str (Some p) a
            = Some (Py.join (String Py.LF EmptyString) single_lines)
          ∧ Single.added_line a (Merge.text o) ∈ single_lines.
Proof.
  intros Hp. destruct (generate_added_sections base_content_str d Hp) as (out & Hout & Ho).
  exists out. split; [done|]. intros o Hin Hadded.
  destruct (Ho o Hin Hadded)
    as (k & x & p & h & body & line & Hk & Hpatch & Hsec & Hh & Hline & Hplus & ->).
  set (base_lines := Py.splitlines (default EmptyString base_content_str)).
  destruct (hunks_in_base base_lines a (Single.scan_patch (Py.splitlines p)) ([], 0))
    as ([lines idx] & Hhunks & Hbase).
  { unfold in_base. cbn [snd]. pose proof (len_nonneg base_lines). lia. }
  exists k, x, p, (lines ++ (Single.base_line <$> drop (Z.to_nat idx) base_lines)).
  split; [done|]. split; [done|]. split; [done|]. split.
  - unfold Single.apply_patch_to_content. destruct p as [|c p].
    { by apply elem_of_nil in Hsec. }
    cbv zeta. fold base_lines.
    destruct (Single.scan_patch (Py.splitlines (String c p))) as [|s secs] eqn:Hs.
    { by apply elem_of_nil in Hsec. }
    unfold Single.patched_lines. rewrite Hhunks. cbn [mbind option_bind].
    by rewrite (tail_in_base base_lines (lines, idx) Hbase).
  - cbn [Merge.text]. apply elem_of_app. left.
    by apply (hunks_added base_lines a _ ([], 0) (lines, idx) h body line Hhunks).
Qed.

Lemma interleaved_added_in_single_witness :
  ∃ out,
    Merge.generate_interleaved_lines_for_all_prs (Some ("x" +:+ nl +:+ "y"))
      [("7", pr_with ("@@ -1 +1,2 @@" +:+ nl +:+ " x" +:+ nl +:+ "+p"))] = Some out
    ∧ ∀ o, o ∈ out → Merge.type o = Merge.added →
        ∃ k x p single_lines,
          (k, x) ∈ [("7", pr_with ("@@ -1 +1,2 @@" +:+ nl +:+ " x" +:+ nl +:+ "+p"))]
          ∧ Merge.patch x = Some p
          ∧ Merge.pr_info o = Some (Merge.details_of k x)
          ∧ Single.apply_patch_to_content (Some ("x" +:+ nl +:+ "y")) (Some p) None
            = Some (Py.join (String Py.LF EmptyString) single_lines)
          ∧ Single.added_line None (Merge.text o) ∈ single_lines.
Proof.
  apply (interleaved_added_in_single (Some ("x" +:+ nl +:+ "y"))
           [("7", pr_with ("@@ -1 +1,2 @@" +:+ nl +:+ " x" +:+ nl +:+ "+p"))] None).
  unfold keys_parse. simpl. repeat apply Forall_cons_2; try by eexists. apply Forall_nil_2.
Defined.
